(** * Request dispatch core of the file-system REST router

    Shallow embedding of the dispatcher [tunnel] and of its helpers
    [getIdentities], [getMiddlewares], [sortCompiledRoutes] and
    [callRecursiveMiddlewares], together with [normalizePath] of
    [src/utils/path.ts].

    The repository holds two revisions of the dispatcher:
    - the one that follows the declarations of [src/@types/internal.d.ts],
      which runs the middleware through [callRecursiveMiddlewares]
      (module [Recursive]);
    - the one of [unnamed/part_000], which runs them in a [for] loop over
      promises (module [Loop]).
    What the two revisions share is defined once, before the modules. *)

From Stdlib Require Import ZArith Lia Bool List String Ascii Sorted.
From stdpp Require Import base list strings gmap.

Local Open Scope Z_scope.
Local Open Scope string_scope.
Local Open Scope list_scope.

(** ** JavaScript strings and arrays

    Strings are sequences of 8-bit code units (the UTF-8 bytes of the
    JavaScript string); every operation below is the byte-wise reading of the
    JavaScript one, exact on ASCII text. *)

Module Js.

(** [s.split(sep)] for a one-character separator: never empty, the empty
    string splits to one empty piece. *)
Fixpoint split (sep : ascii) (s : string) : list string :=
  match s with
  | EmptyString => [EmptyString]
  | String c s' =>
      if Ascii.eqb c sep then EmptyString :: split sep s'
      else match split sep s' with
           | [] => [String c EmptyString]
           | h :: t => String c h :: t
           end
  end.

(** [l.join(sep)]. *)
Fixpoint join (sep : string) (l : list string) : string :=
  match l with
  | [] => EmptyString
  | x :: rest =>
      match rest with
      | [] => x
      | _ :: _ => x ++ sep ++ join sep rest
      end
  end.

(** [s[0] === c]; [s[0]] is [undefined] on the empty string. *)
Definition first_is (c : ascii) (s : string) : bool :=
  match s with
  | EmptyString => false
  | String c' _ => Ascii.eqb c' c
  end.

Definition lower_char (c : ascii) : ascii :=
  let n := N_of_ascii c in
  if ((65 <=? n) && (n <=? 90))%N then ascii_of_N (n + 32) else c.

(** [s.toLowerCase()]. *)
Fixpoint toLowerCase (s : string) : string :=
  match s with
  | EmptyString => EmptyString
  | String c s' => String (lower_char c) (toLowerCase s')
  end.

(** [a < b] on strings: lexicographic on code units, a proper prefix is
    smaller. *)
Definition lt (a b : string) : bool := String.ltb a b.

(** [s.startsWith(p)]. *)
Fixpoint startsWith (p s : string) : bool :=
  match p, s with
  | EmptyString, _ => true
  | String a p', String b s' => Ascii.eqb a b && startsWith p' s'
  | String _ _, EmptyString => false
  end.

(** [s.includes(sub)]. *)
Fixpoint includes (s sub : string) : bool :=
  startsWith sub s ||
  match s with
  | EmptyString => false
  | String _ s' => includes s' sub
  end.

Fixpoint drop (n : nat) (s : string) : string :=
  match n, s with
  | O, _ => s
  | S n', String _ s' => drop n' s'
  | S _, EmptyString => EmptyString
  end.

(** [s.replace(pattern, '')] for a string pattern: the first occurrence is
    removed. *)
Fixpoint remove_first (pattern s : string) : string :=
  if startsWith pattern s then drop (String.length pattern) s
  else match s with
       | EmptyString => EmptyString
       | String c s' => String c (remove_first pattern s')
       end.

(** [l.find(p)]. *)
Fixpoint find {A} (p : A -> bool) (l : list A) : option A :=
  match l with
  | [] => None
  | x :: l' => if p x then Some x else find p l'
  end.

(** [l.some(p)]. *)
Definition some {A} (p : A -> bool) (l : list A) : bool := existsb p l.

(** [l.map((x, i, l) => f(i, l))]. *)
Definition map_index {A B} (f : nat -> list A -> B) (l : list A) : list B :=
  imap (fun i _ => f i l) l.

(** [l.slice(0, n)]. *)
Definition slice0 {A} (n : nat) (l : list A) : list A := take n l.

(** [l.sort(cmp)]. The engine's sort is stable; for a comparator that is a
    total preorder on the elements every stable sort returns the same array,
    the one built here by insertion from the right. *)
Fixpoint insert_sorted {A} (cmp : A -> A -> Z) (x : A) (l : list A) : list A :=
  match l with
  | [] => [x]
  | y :: l' => if (cmp x y <=? 0)%Z then x :: y :: l' else y :: insert_sorted cmp x l'
  end.

Fixpoint sort {A} (cmp : A -> A -> Z) (l : list A) : list A :=
  match l with
  | [] => []
  | x :: l' => insert_sorted cmp x (sort cmp l')
  end.

(** [a || b] on values that are [undefined] or a function. *)
Definition or_else {A} (a b : option A) : option A :=
  match a with Some _ => a | None => b end.

(** [s || d] on an optional string: [undefined] and the empty string are
    falsy. *)
Definition or_default (s : option string) (d : string) : string :=
  match s with
  | Some (String c r) => String c r
  | _ => d
  end.

(** [if (s)] on an optional string: what the test lets through. *)
Definition truthy (s : option string) : option string :=
  match s with
  | Some (String c r) => Some (String c r)
  | _ => None
  end.

End Js.

(** ** [querystring]: percent coding *)

Module QueryString.

Definition hex_value (c : ascii) : option N :=
  let n := N_of_ascii c in
  if ((48 <=? n) && (n <=? 57))%N then Some (n - 48)%N
  else if ((65 <=? n) && (n <=? 70))%N then Some (n - 55)%N
  else if ((97 <=? n) && (n <=? 102))%N then Some (n - 87)%N
  else None.

Definition hex_digit (n : N) : ascii :=
  ascii_of_N (if (n <? 10)%N then 48 + n else 55 + n)%N.

(** The characters [escape] leaves alone: letters, digits and [-_.!~*'()]. *)
Definition unreserved (c : ascii) : bool :=
  let n := N_of_ascii c in
  ((48 <=? n) && (n <=? 57) || (65 <=? n) && (n <=? 90)
   || (97 <=? n) && (n <=? 122)
   || existsb (N.eqb n) [45; 95; 46; 33; 126; 42; 39; 40; 41])%N.

(** Modelled from the spec: the percent/escape encoding of a value put
    into a path, as [escape] of [querystring] does it: every other byte
    becomes [%XX], upper-case hexadecimal. *)
Fixpoint escape (s : string) : string :=
  match s with
  | EmptyString => EmptyString
  | String c s' =>
      if unreserved c then String c (escape s')
      else
        let n := N_of_ascii c in
        String "%" (String (hex_digit (n / 16)) (String (hex_digit (n mod 16)) (escape s')))
  end.

(** [unescape(s)]: [decodeURIComponent], and on its failure the lenient
    [unescapeBuffer]; byte-wise both decode every [%XX] with two hexadecimal
    digits, and the lenient one keeps any other [%] as it is. *)
Fixpoint unescape (s : string) : string :=
  match s with
  | EmptyString => EmptyString
  | String c s' =>
      let keep := String c (unescape s') in
      if Ascii.eqb c "%" then
        match s' with
        | String h (String l rest) =>
            match hex_value h, hex_value l with
            | Some a, Some b => String (ascii_of_N (16 * a + b)) (unescape rest)
            | _, _ => keep
            end
        | _ => keep
        end
      else keep
  end.

End QueryString.

(** ** [src/utils/path.ts] *)

Module Path.

Definition is_slash (c : ascii) : bool := Ascii.eqb c "/" || Ascii.eqb c "\".

(** [path.replace(/[\\\/]+/g, '/')]: [after_slash] tells that the previous
    character belonged to the run being replaced. *)
Fixpoint collapse_slashes (after_slash : bool) (s : string) : string :=
  match s with
  | EmptyString => EmptyString
  | String c s' =>
      if is_slash c then
        if after_slash then collapse_slashes true s'
        else String "/" (collapse_slashes true s')
      else String c (collapse_slashes false s')
  end.

(** [s.replace(/^[\/\\]*/, '')]. *)
Fixpoint strip_leading_slashes (s : string) : string :=
  match s with
  | EmptyString => EmptyString
  | String c s' => if is_slash c then strip_leading_slashes s' else s
  end.

Definition normalizePath (path : string) : string :=
  strip_leading_slashes (collapse_slashes false path).

End Path.

(** ** Requests, responses and thrown values *)

(** The data a middleware passes on ([CustomRequestData]): nested mappings
    with scalar leaves, keys in insertion order. *)
#[local] Set Warnings "-register-all".
Inductive Json :=
| JStr (s : string)
| JObj (fields : list (string * Json)).

Definition CustomRequestData := list (string * Json).

Inductive Body :=
| NoBody
| Message (message : string)          (* [{ message }] *)
| FileStream (file : string)          (* [createReadStream(file)] *)
| Content (value : Json).

(** Modelled from the spec: [IntREST.IntResponse], declared outside the
    sources, is a status, headers and a body, each of which may be missing. *)
Record IntResponse := {
  status : option Z;
  body : Body;
  resHeaders : list (string * string)
}.

(** Modelled from the spec: [IntREST.IntRequest], declared outside the
    sources, is the context shared by the middleware and the handler of one
    request: method, path, headers, query, [params] and [custom]. [query] is
    the string its [URLSearchParams] was built from. [custom] is a mapping
    or missing: [tunnel] copies it from the data of the worker and does not
    make one. *)
Record IntRequest := {
  method : string;
  path : string;
  headers : list (string * string);
  query : string;
  params : gmap string (option string);
  custom : option CustomRequestData
}.

(** [WorkerProps.data]: the request as the application worker sends it. *)
Record RequestData := {
  dataMethod : string;
  dataPath : string;
  dataHeaders : list (string * string);
  dataQuery : option string;
  dataCustom : option CustomRequestData
}.

(** What a [throw] can carry, as the [catch] of [tunnel] tells them apart. *)
Inductive Thrown :=
| ErrorValue (message : string)       (* [instanceof Error] *)
| ObjectValue (o : IntResponse)       (* any other non-null object *)
| PrimitiveValue (v : string).        (* a string, a number, [undefined], [null] *)

Module StatusCodes.
Definition OK := 200.
Definition NO_CONTENT := 204.
Definition NOT_FOUND := 404.
Definition METHOD_NOT_ALLOWED := 405.
Definition INTERNAL_SERVER_ERROR := 500.
End StatusCodes.

Definition json_response (code : Z) (message : string) : IntResponse :=
  {| status := Some code;
     body := Message message;
     resHeaders := [("Content-Type", "application/json")] |}.

(** ** [lodash] *)

Module Lodash.

Fixpoint get (k : string) (o : list (string * Json)) : option Json :=
  match o with
  | [] => None
  | (k', v) :: o' => if String.eqb k k' then Some v else get k o'
  end.

(** [o[k] = v]: an existing key keeps its place, a new one goes last. *)
Fixpoint set (k : string) (v : Json) (o : list (string * Json)) : list (string * Json) :=
  match o with
  | [] => [(k, v)]
  | (k', v') :: o' => if String.eqb k k' then (k, v) :: o' else (k', v') :: set k v o'
  end.

(** [baseMerge]: the keys of the source in order; a nested mapping is merged
    into the destination's mapping under that key (into a fresh one when the
    destination has none or has a scalar there), a scalar overwrites. *)
Fixpoint merge_value (dst : option Json) (src : Json) : Json :=
  match src with
  | JStr s => JStr s
  | JObj fields =>
      let base := match dst with Some (JObj o) => o | _ => [] end in
      JObj ((fix merge_fields (fs : list (string * Json)) (acc : list (string * Json)) :=
               match fs with
               | [] => acc
               | (k, v) :: fs' => merge_fields fs' (set k (merge_value (get k acc) v) acc)
               end) fields base)
  end.

(** [_.merge(object, source)]: the destination is [Object(object)], the
    empty mapping when [object] is [undefined]; an [undefined] source is
    skipped. The result is the destination, always a mapping. *)
Definition merge (object source : option CustomRequestData) : option CustomRequestData :=
  let object := default [] object in
  match source with
  | None => Some object
  | Some src =>
      match merge_value (Some (JObj object)) (JObj src) with
      | JObj o => Some o
      | JStr _ => Some object
      end
  end.

Fixpoint zip_into (acc : gmap string (option string)) (props values : list string)
  : gmap string (option string) :=
  match props with
  | [] => acc
  | k :: props' => zip_into (<[k := head values]> acc) props' (tail values)
  end.

(** [_.zipObject(props, values)]: a key past the end of [values] is bound to
    [undefined]; of two equal keys the later one wins. *)
Definition zipObject (props values : list string) : gmap string (option string) :=
  zip_into ∅ props values.

End Lodash.

(** ** Handlers

    A handler is a JavaScript function of the context. What it can do to the
    dispatcher is: return a response or nothing, throw, never settle the
    promise it returned, read or assign the shared context, and (a middleware
    only) call the continuation it was given. [Prog A B] is the tree of these
    actions; [A] is what the continuation takes and [B] what it gives back.
    The steps of one handler happen in sequence, and a continuation has run
    to its end when the caller goes on. A call of the continuation is a step
    of the handler, made before the handler returns: a handler that keeps
    the continuation and calls it after it has returned is not one of these
    trees. *)
Inductive Prog (A B : Type) : Type :=
| Return (r : option IntResponse)
| Raise (e : Thrown)
| Pending
| Read (k : IntRequest -> Prog A B)
| Write (c : IntRequest) (k : Prog A B)
| Next (a : A) (k : B -> Prog A B).

Arguments Return {A B} r.
Arguments Raise {A B} e.
Arguments Pending {A B}.
Arguments Read {A B} k.
Arguments Write {A B} c k.
Arguments Next {A B} a k.

(** [IntREST.RequestHandler]: no continuation to call. *)
Definition RequestHandler := Prog Empty_set unit.

(** The three ways an awaited promise can go. *)
Inductive Result (St X : Type) : Type :=
| Done (x : X) (s : St)               (* fulfilled *)
| Failed (e : Thrown) (s : St)        (* rejected *)
| Stuck (s : St).                     (* never settled *)

Arguments Done {St X} x s.
Arguments Failed {St X} e s.
Arguments Stuck {St X} s.

Section Exec.

Context {A B St : Type}.
Variable get_ctx : St -> IntRequest.
Variable set_ctx : IntRequest -> St -> St.
Variable next : A -> St -> B * St.

(** Running a handler: the context lives in the state, the continuation is
    the caller's. *)
Fixpoint exec (p : Prog A B) (s : St) : Result St (option IntResponse) :=
  match p with
  | Return r => Done r s
  | Raise e => Failed e s
  | Pending => Stuck s
  | Read k => exec (k (get_ctx s)) s
  | Write c k => exec k (set_ctx c s)
  | Next a k => let '(b, s') := next a s in exec (k b) s'
  end.

End Exec.

(** The state a promise leaves behind. *)
Definition final {St X} (r : Result St X) : St :=
  match r with
  | Done _ s => s
  | Failed _ s => s
  | Stuck s => s
  end.

(** A handler that never assigns the context. *)
Inductive assigns_nothing {A B} : Prog A B -> Prop :=
| an_return r : assigns_nothing (Return r)
| an_raise e : assigns_nothing (Raise e)
| an_pending : assigns_nothing Pending
| an_read k : (forall c, assigns_nothing (k c)) -> assigns_nothing (Read k)
| an_next a k : (forall b, assigns_nothing (k b)) -> assigns_nothing (Next a k).

(** A handler that never calls its continuation. *)
Inductive calls_no_next {A B} : Prog A B -> Prop :=
| cn_return r : calls_no_next (Return r)
| cn_raise e : calls_no_next (Raise e)
| cn_pending : calls_no_next Pending
| cn_read k : (forall c, calls_no_next (k c)) -> calls_no_next (Read k)
| cn_write c k : calls_no_next k -> calls_no_next (Write c k).

(** What was entered while a request was served, oldest first. *)
Inductive Event :=
| EvRouting (path : string)           (* [getIdentities] *)
| EvMiddleware (pathname : string)    (* a middleware handler is called *)
| EvHandler.                          (* the route handler is called *)

(** ** Route identities *)

(** Modelled from the spec: [AutoGeneratedVars], declared outside the
    sources, is the compiled descriptor of one route, with the four fields
    the dispatcher reads. [paramExtract] is a regular expression; it is used
    through [test] and [match] only, so it is represented by its [match]
    function: [None] when the path does not match, [Some captures] (groups
    1..n) otherwise. *)
Record AutoGeneratedVars := {
  pathname : string;
  route : string;
  paramKeys : list string;
  paramExtract : string -> option (list string)
}.

Definition regexp_test (i : AutoGeneratedVars) (path : string) : bool :=
  match paramExtract i path with Some _ => true | None => false end.

(** [Array.from(path.match(re) || []).slice(1)]. *)
Definition regexp_captures (i : AutoGeneratedVars) (path : string) : list string :=
  match paramExtract i path with Some captures => captures | None => [] end.

(** A segment is dynamic when its first character is an opening bracket,
    as [sortCompiledRoutes] tests it. *)
Definition is_dynamic (seg : string) : bool := Js.first_is "[" seg.

Definition segments (i : AutoGeneratedVars) : list string :=
  Js.split "/" (pathname i).

(** The [for] loop of [sortCompiledRoutes]: [Some r] when the loop returns
    [r], [None] when it runs to the end. [bSlipt[i]?.[0]] is [undefined]
    past the end of [bSlipt]. *)
Fixpoint compare_segments (aSlipt bSlipt : list string) : option Z :=
  match aSlipt with
  | [] => None
  | sa :: aRest =>
      let a_dyn := is_dynamic sa in
      let b_dyn := match bSlipt with [] => false | sb :: _ => is_dynamic sb end in
      if a_dyn && b_dyn then compare_segments aRest (tail bSlipt)
      else if a_dyn then Some 1
      else if b_dyn then Some (-1)
      else compare_segments aRest (tail bSlipt)
  end.

(** The three statements after the loop. *)
Definition compare_routes (a b : AutoGeneratedVars) : Z :=
  let ar := Js.toLowerCase (route a) in
  let br := Js.toLowerCase (route b) in
  if Js.lt ar br then -1
  else if Js.lt br ar then 1
  else Z.of_nat (String.length (pathname b)) - Z.of_nat (String.length (pathname a)).

Definition sortCompiledRoutes (a b : AutoGeneratedVars) : Z :=
  match compare_segments (segments a) (segments b) with
  | Some r => r
  | None => compare_routes a b
  end.

(** [a] is listed no later than [b]. *)
Definition prefers (a b : AutoGeneratedVars) : Prop := sortCompiledRoutes a b <= 0.

Definition shape (i : AutoGeneratedVars) : list bool := map is_dynamic (segments i).

Definition same_arity (a b : AutoGeneratedVars) : Prop :=
  length (segments a) = length (segments b).

Definition rank (o : option Z) : Z := default 0 o.

(** [getIdentities(route)], from the identity modules in the order the glob
    found them. *)
Definition getIdentities (identitiesModules : list AutoGeneratedVars) (route : string)
  : list AutoGeneratedVars :=
  Js.sort sortCompiledRoutes (filter (fun m => regexp_test m route = true) identitiesModules).

(** The assignment to [context.params] in [tunnel]. *)
Definition extract_params (identity : AutoGeneratedVars) (path : string)
  : gmap string (option string) :=
  Lodash.zipObject (paramKeys identity)
    (map QueryString.unescape (regexp_captures identity path)).

(** ** The pattern of a template

    The module that writes [paramExtract] is not part of the sources; the
    pattern is taken from the data model of the specification. *)

(** Modelled from the spec: the pattern matches exactly the structurally
    conformant paths (same segment count, literal segments equal, each
    bracketed segment bound to one segment of the path) and captures the
    segments at the bracketed positions in template order. *)
Fixpoint segment_match (template path : list string) : option (list string) :=
  match template, path with
  | [], [] => Some []
  | t :: template', p :: path' =>
      if is_dynamic t then cons p <$> segment_match template' path'
      else if String.eqb t p then segment_match template' path'
      else None
  | _, _ => None
  end.

Definition template_match (template path : string) : option (list string) :=
  segment_match (Js.split "/" template) (Js.split "/" path).

(** Modelled from the spec: the name inside the brackets of a segment. *)
Fixpoint bracket_name (seg : string) : string :=
  match seg with
  | EmptyString => EmptyString
  | String c rest =>
      if Ascii.eqb c "[" then bracket_name rest
      else if Ascii.eqb c "]" then EmptyString
      else String c (bracket_name rest)
  end.

(** Modelled from the spec: the identity a template compiles to. *)
Definition compile (template declared : string) : AutoGeneratedVars :=
  {| pathname := template;
     route := declared;
     paramKeys := map bracket_name (filter (fun s => is_dynamic s = true) (Js.split "/" template));
     paramExtract := template_match template |}.

(** The invariant of the data model: the pattern of an identity is the
    pattern of its template, and there is one key per bracketed segment. *)
Definition conforms (i : AutoGeneratedVars) : Prop :=
  (forall path, paramExtract i path = template_match (pathname i) path)
  /\ length (paramKeys i) = length (filter (fun s => is_dynamic s = true) (segments i)).

(** A template with no bracketed segment. *)
Definition literal (i : AutoGeneratedVars) : Prop := forallb (fun s => negb (is_dynamic s)) (segments i) = true.

(** No occurrence of the separator. *)
Fixpoint free_of (sep : ascii) (s : string) : Prop :=
  match s with
  | EmptyString => True
  | String c s' => Ascii.eqb c sep = false /\ free_of sep s'
  end.

(** Substituting escaped values for the bracketed segments of a template. *)
Fixpoint substitute (template values : list string) : list string :=
  match template with
  | [] => []
  | t :: template' =>
      if is_dynamic t then
        match values with
        | v :: values' => QueryString.escape v :: substitute template' values'
        | [] => t :: substitute template' []
        end
      else t :: substitute template' values
  end.

Definition concrete_path (i : AutoGeneratedVars) (values : list string) : string :=
  Js.join "/" (substitute (segments i) values).

(** ** The collaborators of the dispatcher

    What [tunnel] gets from the file system, from the module loader and from
    the configuration. [H] is the type of a middleware handler. The timeout
    of the configuration has no place here: the model has no clock. *)
Record Env (H : Type) := {
  (** [getFolderPath(basePath, globPatterns.staticFolder)] *)
  staticFolder : option string;
  (** [globFind(folder, path)] *)
  globFind : string -> string -> option string;
  (** [lookup(file)] of [mime-types]; [false] is [None] *)
  lookup : string -> option string;
  (** the identity modules, in the order [globFindAll] lists them *)
  identitiesModules : list AutoGeneratedVars;
  (** the exports of the route module of a pathname, by name, typed
      [IntREST.RequestHandler | undefined] *)
  routeModule : string -> string -> option RequestHandler;
  (** [join(process.cwd(), compiledFolder, compiledRoutes)] *)
  basePath : string;
  (** [join] of [path/posix] *)
  join : list string -> string;
  (** [globFindAll(basePath, globPatterns.middlewarePoints)] *)
  middlewarePaths : list string;
  (** the exports of a middleware module, by name *)
  middlewareModule : string -> string -> option H;
  (** [config.messages] *)
  NOT_FOUND : option string;
  METHOD_NOT_ALLOWED : option string
}.

Arguments staticFolder {H} _.
Arguments globFind {H} _ _ _.
Arguments lookup {H} _ _.
Arguments identitiesModules {H} _.
Arguments routeModule {H} _ _ _.
Arguments basePath {H} _.
Arguments join {H} _ _.
Arguments middlewarePaths {H} _.
Arguments middlewareModule {H} _ _ _.
Arguments NOT_FOUND {H} _.
Arguments METHOD_NOT_ALLOWED {H} _.

Module MiddlewareModule.
Record t (H : Type) := { handler : H; pathname : string }.
Arguments handler {H} _.
Arguments pathname {H} _.
End MiddlewareModule.

Section Shared.

Context {H : Type}.
Variable env : Env H.

(** The context [tunnel] starts from. *)
Definition init_context (data : RequestData) : IntRequest :=
  {| method := dataMethod data;
     path := dataPath data;
     headers := dataHeaders data;
     query := Js.or_default (dataQuery data) "";
     params := ∅;
     custom := dataCustom data |}.

(** The block before the [try]: the response of a static file, when there is
    a static folder, a file for the path and a content type for the file.
    The three tests are [if (staticFolder)], [if (staticFile)] and
    [if (mimeType)]: an empty string does not pass. *)
Definition static_file (path : string) : option IntResponse :=
  match Js.truthy (staticFolder env) with
  | Some folder =>
      match Js.truthy (globFind env folder path) with
      | Some staticFile =>
          match Js.truthy (lookup env staticFile) with
          | Some mimeType =>
              Some {| status := Some StatusCodes.OK;
                      body := FileStream staticFile;
                      resHeaders := [("Content-Type", mimeType)] |}
          | None => None
          end
      | None => None
      end
  | None => None
  end.

Definition not_found : IntResponse :=
  json_response StatusCodes.NOT_FOUND (Js.or_default (NOT_FOUND env) "Not found").

Definition method_not_allowed : IntResponse :=
  json_response StatusCodes.METHOD_NOT_ALLOWED
    (Js.or_default (METHOD_NOT_ALLOWED env) "Method not allowed").

Definition no_content : IntResponse :=
  {| status := Some StatusCodes.NO_CONTENT; body := NoBody; resHeaders := [] |}.

(** The [catch] of [tunnel]. *)
Definition catch_boundary {St} (r : Result St IntResponse) : Result St IntResponse :=
  match r with
  | Failed (ErrorValue message) s =>
      Done (json_response StatusCodes.INTERNAL_SERVER_ERROR message) s
  | Failed (ObjectValue o) s => Done o s
  | Failed (PrimitiveValue v) s => Failed (PrimitiveValue v) s
  | Done x s => Done x s
  | Stuck s => Stuck s
  end.

(** [pathname.split('/').map((_, i, l) => i > 0 ? l.slice(0, i + 1).join('/') : '/')] *)
Definition prefix_pathnames (pathname : string) : list string :=
  Js.map_index
    (fun i l => if (0 <? i)%nat then Js.join "/" (Js.slice0 (i + 1) l) else "/")
    (Js.split "/" pathname).

(** [if (response) ... else NO_CONTENT], at the end of the [try]. *)
Definition respond {St} (r : Result St (option IntResponse)) : Result St IntResponse :=
  match r with
  | Done (Some response) s => Done response s
  | Done None s => Done no_content s
  | Failed e s => Failed e s
  | Stuck s => Stuck s
  end.

End Shared.

(** [routes = identities.map((i) => ({ handler, identity: i }))] and
    [routes.find((r) => typeof r.handler === 'function')], for a way
    [route_handler] of taking the handler from the route module; [None] is
    the case sent to the 405 response. *)
Definition find_handler (route_handler : AutoGeneratedVars -> option RequestHandler)
    (identities : list AutoGeneratedVars) : option (RequestHandler * AutoGeneratedVars) :=
  match Js.find (fun r => bool_decide (is_Some r.1))
          (map (fun i => (route_handler i, i)) identities) with
  | Some (Some handler, i) => Some (handler, i)
  | _ => None
  end.

(** [h] is the handler of [i], the first identity of [identities] for which
    [route_handler] gives one. *)
Definition first_with_handler (route_handler : AutoGeneratedVars -> option RequestHandler)
    (identities : list AutoGeneratedVars) (h : RequestHandler) (i : AutoGeneratedVars)
  : Prop :=
  exists before after,
    identities = before ++ i :: after
    /\ Forall (fun j => route_handler j = None) before
    /\ route_handler i = Some h.

(** The fields of the context other than [custom] are the same. *)
Definition same_request (c c' : IntRequest) : Prop :=
  method c' = method c /\ path c' = path c /\ headers c' = headers c
  /\ query c' = query c /\ params c' = params c.

(** What the [catch] of [tunnel] does with a thrown value. *)
Definition boundary {St} (v : Thrown) (s : St) : Result St IntResponse :=
  match v with
  | ErrorValue message => Done (json_response StatusCodes.INTERNAL_SERVER_ERROR message) s
  | ObjectValue o => Done o s
  | PrimitiveValue p => Failed (PrimitiveValue p) s
  end.

Definition timeout_message (pathname : string) : string :=
  "Middleware handler timeout: " ++ pathname.

(** ** The revision with [callRecursiveMiddlewares] *)

Module Recursive.

(** The state of one request: the shared context, the trace, and the timers
    set and not cleared. A timer that stays armed fires: its callback throws
    the timeout error from the event loop, outside of every promise. *)
Record State := {
  ctx : IntRequest;
  log : list Event;
  nextTimer : nat;
  armed : list (nat * string)
}.

Definition initial (context : IntRequest) : State :=
  {| ctx := context; log := []; nextTimer := 0; armed := [] |}.

Definition set_ctx (c : IntRequest) (s : State) : State :=
  {| ctx := c; log := log s; nextTimer := nextTimer s; armed := armed s |}.

Definition add_log (e : Event) (s : State) : State :=
  {| ctx := ctx s; log := log s ++ [e]; nextTimer := nextTimer s; armed := armed s |}.

Definition set_params (p : gmap string (option string)) (s : State) : State :=
  set_ctx {| method := method (ctx s); path := path (ctx s); headers := headers (ctx s);
             query := query (ctx s); params := p; custom := custom (ctx s) |} s.

Definition set_custom (c : option CustomRequestData) (s : State) : State :=
  set_ctx {| method := method (ctx s); path := path (ctx s); headers := headers (ctx s);
             query := query (ctx s); params := params (ctx s); custom := c |} s.

Definition setTimeout (owner : string) (s : State) : nat * State :=
  (nextTimer s,
   {| ctx := ctx s; log := log s; nextTimer := S (nextTimer s);
      armed := armed s ++ [(nextTimer s, owner)] |}).

Definition clearTimeout (timeoutId : nat) (s : State) : State :=
  {| ctx := ctx s; log := log s; nextTimer := nextTimer s;
     armed := filter (fun t => t.1 <> timeoutId) (armed s) |}.

(** The errors thrown by the timers left armed; nothing catches them. *)
Definition uncaught (s : State) : list Thrown :=
  map (fun t => ErrorValue (timeout_message t.2)) (armed s).

(** What the caller of a continuation finds in the promise it got. *)
Inductive Settled :=
| Fulfilled (r : option IntResponse)
| Rejected (e : Thrown)
| Unsettled.

Definition settle (r : Result State (option IntResponse)) : Settled * State :=
  match r with
  | Done x s => (Fulfilled x, s)
  | Failed e s => (Rejected e, s)
  | Stuck s => (Unsettled, s)
  end.

(** [return next(c)]: the handler hands on what the continuation gave. *)
Definition forward (b : Settled) : Prog (option CustomRequestData) Settled :=
  match b with
  | Fulfilled r => Return r
  | Rejected e => Raise e
  | Unsettled => Pending
  end.

Definition MiddlewareHandler := Prog (option CustomRequestData) Settled.

(** A middleware that reads or assigns the context, calls its continuation
    once and returns what it gave. *)
Inductive forwards : MiddlewareHandler -> Prop :=
| fw_next c : forwards (Next c forward)
| fw_read k : (forall x, forwards (k x)) -> forwards (Read k)
| fw_write c k : forwards k -> forwards (Write c k).

Definition no_next (a : Empty_set) (s : State) : unit * State := match a with end.

Definition call_handler (requestHandler : RequestHandler) (s : State)
  : Result State (option IntResponse) :=
  exec ctx set_ctx no_next requestHandler (add_log EvHandler s).

(** A middleware handler run with a continuation that does nothing: the run
    of a handler that calls no continuation. *)
Definition run_alone (p : MiddlewareHandler) (s : State) : Result State (option IntResponse) :=
  exec ctx set_ctx (fun _ s' => (Unsettled, s')) p s.

(** The statements of the continuation before it recurses. *)
Definition next_effect (timeoutId : nat) (c : option CustomRequestData) (s : State) : State :=
  let s := clearTimeout timeoutId s in
  set_custom (Lodash.merge (custom (ctx s)) c) s.

Fixpoint callRecursiveMiddlewares
    (middlewares : list (MiddlewareModule.t MiddlewareHandler))
    (requestHandler : RequestHandler) (s : State) : Result State (option IntResponse) :=
  match middlewares with
  | [] => call_handler requestHandler s
  | middleware :: rest =>
      let '(timeoutId, s) := setTimeout (MiddlewareModule.pathname middleware) s in
      exec ctx set_ctx
        (fun c s' =>
           settle (callRecursiveMiddlewares rest requestHandler (next_effect timeoutId c s')))
        (MiddlewareModule.handler middleware)
        (add_log (EvMiddleware (MiddlewareModule.pathname middleware)) s)
  end.

Section Dispatch.

Variable env : Env MiddlewareHandler.

(** The file [getMiddlewares] expects for a prefix. *)
Definition middleware_file (p : string) : string :=
  Path.normalizePath (join env [basePath env; p; "middleware.mjs"]).

Definition load_middleware (p : string) : option (MiddlewareModule.t MiddlewareHandler) :=
  match Js.or_else (middlewareModule env p "middleware") (middlewareModule env p "default") with
  | Some h => Some {| MiddlewareModule.handler := h;
                      MiddlewareModule.pathname := Js.remove_first (basePath env) p |}
  | None => None
  end.

Definition getMiddlewares (pathname : string) : list (MiddlewareModule.t MiddlewareHandler) :=
  let pathnames := map middleware_file (prefix_pathnames pathname) in
  let validMiddlewarePaths :=
    filter (fun p => Js.some (String.eqb p) pathnames = true) (middlewarePaths env) in
  omap load_middleware validMiddlewarePaths.

(** [routeModule[method] || routeModule['ALL'] || routeModule.default] *)
Definition route_handler (method : string) (i : AutoGeneratedVars) : option RequestHandler :=
  let routeModule := routeModule env (pathname i) in
  Js.or_else (routeModule method) (Js.or_else (routeModule "ALL") (routeModule "default")).

Definition find_route (method : string) (identities : list AutoGeneratedVars)
  : option (RequestHandler * AutoGeneratedVars) :=
  find_handler (route_handler method) identities.

(** The [try] block of [tunnel]. *)
Definition route_and_run (data : RequestData) (s : State) : Result State IntResponse :=
  let identities := getIdentities (identitiesModules env) (path (ctx s)) in
  let s := add_log (EvRouting (path (ctx s))) s in
  match identities with
  | [] => Done (not_found env) s
  | _ :: _ =>
      match find_route (method (ctx s)) identities with
      | None => Done (method_not_allowed env) s
      | Some (handler, i) =>
          let s := set_params (extract_params i (dataPath data)) s in
          let middlewares := getMiddlewares (pathname i) in
          respond (callRecursiveMiddlewares middlewares handler s)
      end
  end.

(** [tunnel]: [Done r s] is [r] handed to [sendResponse] with the request
    left in state [s]; [Failed v s] is [tunnel] itself ending with the throw
    of [v]; [Stuck s] is a request that is never answered. *)
Definition tunnel (data : RequestData) : Result State IntResponse :=
  let s := initial (init_context data) in
  match static_file env (path (ctx s)) with
  | Some response => Done response s
  | None => catch_boundary (route_and_run data s)
  end.

End Dispatch.

End Recursive.

(** ** The revision with the loop over promises *)

Module Loop.

Record State := {
  ctx : IntRequest;
  log : list Event
}.

Definition initial (context : IntRequest) : State := {| ctx := context; log := [] |}.

Definition set_ctx (c : IntRequest) (s : State) : State := {| ctx := c; log := log s |}.

Definition add_log (e : Event) (s : State) : State :=
  {| ctx := ctx s; log := log s ++ [e] |}.

Definition set_params (p : gmap string (option string)) (s : State) : State :=
  set_ctx {| method := method (ctx s); path := path (ctx s); headers := headers (ctx s);
             query := query (ctx s); params := p; custom := custom (ctx s) |} s.

Definition set_custom (c : option CustomRequestData) (s : State) : State :=
  set_ctx {| method := method (ctx s); path := path (ctx s); headers := headers (ctx s);
             query := query (ctx s); params := params (ctx s); custom := c |} s.

(** The continuation returns nothing. *)
Definition MiddlewareHandler := Prog (option CustomRequestData) unit.

Definition no_next (a : Empty_set) (s : State) : unit * State := match a with end.

Definition call_handler (requestHandler : RequestHandler) (s : State)
  : Result State (option IntResponse) :=
  exec ctx set_ctx no_next requestHandler (add_log EvHandler s).

(** The callback given to a middleware; the second component of the state is
    the local [resolved]. While the handler runs [timeoutId] is still [null],
    so the callback clears no timer. *)
Definition next_callback (c : option CustomRequestData) (st : State * bool)
  : unit * (State * bool) :=
  (tt, (set_custom (Lodash.merge (custom (ctx st.1)) c) st.1, true)).

(** The promise built for one middleware. When the handler returns nothing
    and has not called back, the timer set after it is the only thing left
    to settle the promise, and rejects it. A handler that never returns
    leaves the [await] before [setTimeout] pending. *)
Definition run_middleware (middleware : MiddlewareModule.t MiddlewareHandler) (s : State)
  : Result State (option IntResponse) :=
  match exec (fun st => ctx st.1) (fun c st => (set_ctx c st.1, st.2)) next_callback
          (MiddlewareModule.handler middleware)
          (add_log (EvMiddleware (MiddlewareModule.pathname middleware)) s, false) with
  | Done res (s', resolved) =>
      if bool_decide (is_Some res) || resolved then Done res s'
      else Failed (ErrorValue (timeout_message (MiddlewareModule.pathname middleware))) s'
  | Failed e (s', _) => Failed e s'
  | Stuck (s', _) => Stuck s'
  end.

(** The [for] loop: it stops at the first response. *)
Fixpoint run_middlewares (middlewares : list (MiddlewareModule.t MiddlewareHandler))
    (s : State) : Result State (option IntResponse) :=
  match middlewares with
  | [] => Done None s
  | middleware :: rest =>
      match run_middleware middleware s with
      | Done (Some response) s' => Done (Some response) s'
      | Done None s' => run_middlewares rest s'
      | Failed e s' => Failed e s'
      | Stuck s' => Stuck s'
      end
  end.

(** The loop, then [if (!response) response = await route.handler(context)]. *)
Definition run_chain (middlewares : list (MiddlewareModule.t MiddlewareHandler))
    (requestHandler : RequestHandler) (s : State) : Result State (option IntResponse) :=
  match run_middlewares middlewares s with
  | Done None s' => call_handler requestHandler s'
  | r => r
  end.

Section Dispatch.

Variable env : Env MiddlewareHandler.

Definition load_middleware (p : string) : option (MiddlewareModule.t MiddlewareHandler) :=
  match middlewareModule env p "handler" with
  | Some h => Some {| MiddlewareModule.handler := h;
                      MiddlewareModule.pathname := Js.remove_first (basePath env) p |}
  | None => None
  end.

Definition getMiddlewares (pathname : string) : list (MiddlewareModule.t MiddlewareHandler) :=
  let pathnames := prefix_pathnames pathname in
  let validMiddlewarePaths :=
    filter (fun p => Js.some (fun pn => Js.includes p pn) pathnames = true)
      (middlewarePaths env) in
  omap load_middleware validMiddlewarePaths.

(** [routeModule[method]] *)
Definition route_handler (method : string) (i : AutoGeneratedVars) : option RequestHandler :=
  routeModule env (pathname i) method.

Definition find_route (method : string) (identities : list AutoGeneratedVars)
  : option (RequestHandler * AutoGeneratedVars) :=
  find_handler (route_handler method) identities.

Definition route_and_run (data : RequestData) (s : State) : Result State IntResponse :=
  let identities := getIdentities (identitiesModules env) (path (ctx s)) in
  let s := add_log (EvRouting (path (ctx s))) s in
  match identities with
  | [] => Done (not_found env) s
  | _ :: _ =>
      match find_route (method (ctx s)) identities with
      | None => Done (method_not_allowed env) s
      | Some (handler, i) =>
          let s := set_params (extract_params i (dataPath data)) s in
          let middlewares := getMiddlewares (pathname i) in
          respond (run_chain middlewares handler s)
      end
  end.

(** [tunnel]: [Done r s] is [r] handed to [sendResponse] with the request
    left in state [s]; [Failed v s] is [tunnel] itself ending with the throw
    of [v]; [Stuck s] is a request that is never answered. *)
Definition tunnel (data : RequestData) : Result State IntResponse :=
  let s := initial (init_context data) in
  match static_file env (path (ctx s)) with
  | Some response => Done response s
  | None => catch_boundary (route_and_run data s)
  end.

End Dispatch.

End Loop.

(** ** The rest of [src/utils/path.ts] *)

Module PathTs.

(** [[a-z0-9]] under the flag [i]. *)
Definition is_alnum (c : ascii) : bool :=
  let n := N_of_ascii c in
  ((48 <=? n) && (n <=? 57) || (65 <=? n) && (n <=? 90) || (97 <=? n) && (n <=? 122))%N.

Fixpoint all_alnum (s : string) : bool :=
  match s with
  | EmptyString => true
  | String c s' => is_alnum c && all_alnum s'
  end.

(** [s.replace(/\.[a-z0-9]+$/i, '')]: the match starts at the leftmost dot
    that is followed, up to the end, by one or more letters or digits. *)
Fixpoint strip_extension (s : string) : string :=
  match s with
  | EmptyString => EmptyString
  | String c s' =>
      if Ascii.eqb c "." && negb (String.eqb s' EmptyString) && all_alnum s'
      then EmptyString
      else String c (strip_extension s')
  end.

Definition clearExtension (path : string) : string :=
  strip_extension (Path.normalizePath path).

(** [s.replace(/^\//, '')]. *)
Definition strip_slash (s : string) : string :=
  match s with
  | String c s' => if Ascii.eqb c "/" then s' else s
  | EmptyString => EmptyString
  end.

Definition escapePath (path escape : string) : string :=
  strip_slash (Js.remove_first (Path.normalizePath escape) (Path.normalizePath path)).

(** The paths [normalizePath] aims at: no backslash, no slash after a slash,
    no slash at the start. [after_slash] is true at the start and after a
    slash. *)
Fixpoint clean (after_slash : bool) (s : string) : bool :=
  match s with
  | EmptyString => true
  | String c s' =>
      if Ascii.eqb c "\" then false
      else if Ascii.eqb c "/" then negb after_slash && clean true s'
      else clean false s'
  end.

Definition normalized (s : string) : Prop := clean true s = true.

Section Glob.

(** [path.join] of Node and [glob], called on a list of patterns with the
    options written in the source (a single pattern is a list of one). *)
Variable pathJoin : list string -> string.
Variable glob : list string -> list string.

Definition join (paths : list string) : string :=
  Path.normalizePath (pathJoin paths).

(** [res[0] && normalizePath(res[0])]: [undefined] without a result, and an
    empty first result is handed back as it is. *)
Definition first_normalized (res : list string) : option string :=
  match res with
  | [] => None
  | r :: _ =>
      Some (match r with
            | EmptyString => EmptyString
            | String _ _ => Path.normalizePath r
            end)
  end.

Definition globFind (pattern : list string) : option string :=
  first_normalized (glob [join pattern]).

Definition globFindList (patterns : list (list string)) : option string :=
  first_normalized (glob (map join patterns)).

Definition globFindAll (pattern : list string) : list string :=
  map Path.normalizePath (glob [join pattern]).

(** [list.reverse()] is handed to [glob]. *)
Definition globFindAllList (patterns : list (list string)) : list string :=
  map Path.normalizePath (glob (rev (map join patterns))).

(** [globPatterns.env], from the constants outside the sources. *)
Variable env_patterns : list string.

Definition findEnvPaths (basePath : string) : list string :=
  globFindAllList (map (fun p => [basePath; p]) env_patterns).

Definition getEnvPath (basePath : string) : option string :=
  head (findEnvPaths basePath).

End Glob.

End PathTs.

(** ** Chains that go through *)

(** A middleware of the loop revision that reads or assigns the context,
    calls back once while it runs, and then returns nothing. *)
Inductive goes_on : Loop.MiddlewareHandler -> Prop :=
| go_next c : goes_on (Next c (fun _ => Return None))
| go_read k : (forall x, goes_on (k x)) -> goes_on (Read k)
| go_write c k : goes_on k -> goes_on (Write c k).

(** A handler of the loop revision run on its own, with a callback that
    does nothing. *)
Definition loop_run_alone (p : Loop.MiddlewareHandler) (s : Loop.State)
  : Result Loop.State (option IntResponse) :=
  exec Loop.ctx Loop.set_ctx (fun _ s' => (tt, s')) p s.

(** The traces a chain of the recursive revision can leave: a middleware is
    entered, and each call of its continuation adds a trace of the rest of
    the chain; the rest of an empty chain is the handler. *)
Fixpoint chain_trace (names : list string) (t : list Event) : Prop :=
  match names with
  | [] => t = [EvHandler]
  | p :: rest =>
      exists ts, Forall (chain_trace rest) ts /\ t = EvMiddleware p :: concat ts
  end.

Definition names {H} (ms : list (MiddlewareModule.t H)) : list string :=
  map MiddlewareModule.pathname ms.

Definition entered {H} (ms : list (MiddlewareModule.t H)) : list Event :=
  map (fun m => EvMiddleware (MiddlewareModule.pathname m)) ms.

(** The timers of a state were all set before its next one. *)
Definition timers_fresh (s : Recursive.State) : Prop :=
  Forall (fun t => (t.1 < Recursive.nextTimer s)%nat) (Recursive.armed s).

(** What the loop revision enters for a chain: the middleware of the chain
    in order up to some step, or all of them and then the handler. *)
Definition loop_chain_trace {H} (ms : list (MiddlewareModule.t H)) (t : list Event) : Prop :=
  (exists k, (k <= length ms)%nat /\ t = entered (take k ms))
  \/ t = entered ms ++ [EvHandler].

(** ** Continuations without data *)

(** A middleware handler that never assigns the context itself and gives no
    data to its continuation, however often it calls it. *)
Inductive passes_no_data {B} : Prog (option CustomRequestData) B -> Prop :=
| pd_return r : passes_no_data (Return r)
| pd_raise e : passes_no_data (Raise e)
| pd_pending : passes_no_data Pending
| pd_read k : (forall c, passes_no_data (k c)) -> passes_no_data (Read k)
| pd_next k : (forall b, passes_no_data (k b)) -> passes_no_data (Next None k).

(** ** Sample routes, requests and collaborators *)

Module Sample.

Definition users_me : AutoGeneratedVars := compile "users/me" "users/me".
Definition users_id : AutoGeneratedVars := compile "users/[id]" "users/[id]".
Definition users_name : AutoGeneratedVars := compile "users/[name]" "users/[name]".
Definition zed : AutoGeneratedVars := compile "z" "z".
Definition a_id : AutoGeneratedVars := compile "a/[id]" "a/[id]".
Definition status_route : AutoGeneratedVars := compile "status" "status".
Definition api_status : AutoGeneratedVars := compile "api/status" "api/status".
Definition files_route : AutoGeneratedVars := compile "files/[dir]/[name]" "files/[dir]/[name]".

Definition request (m p : string) : RequestData :=
  {| dataMethod := m; dataPath := p; dataHeaders := []; dataQuery := None;
     dataCustom := None |}.

Definition text (code : Z) (s : string) : IntResponse :=
  {| status := Some code; body := Content (JStr s); resHeaders := [] |}.

(** [join] on arguments without [.] and [..] segments, up to the repeated
    slashes that [normalizePath] removes afterwards. *)
Definition slash_join (parts : list string) : string := Js.join "/" parts.

Definition answer {A B} (s : string) : Prog A B := Return (Some (text 200 s)).

(** Routes [users/[id]] and [users/me], found in that order; [users/me]
    exports [GET] only, [users/[id]] exports [GET] and [DELETE]. *)
Definition users_modules (pathname name : string) : option RequestHandler :=
  if String.eqb pathname "users/me" then
    if String.eqb name "GET" then Some (answer "me") else None
  else if String.eqb pathname "users/[id]" then
    if String.eqb name "GET" || String.eqb name "DELETE" then Some (answer "by id") else None
  else None.

Definition users_env {H} (found : list AutoGeneratedVars) : Env H :=
  {| staticFolder := None;
     globFind := fun _ _ => None;
     lookup := fun _ => None;
     identitiesModules := found;
     routeModule := users_modules;
     basePath := "/app/.intrest/routes";
     join := slash_join;
     middlewarePaths := [];
     middlewareModule := fun _ _ => None;
     NOT_FOUND := None;
     METHOD_NOT_ALLOWED := None |}.

(** One route [status] whose module exports [ALL] only. *)
Definition wildcard_env {H} : Env H :=
  {| staticFolder := None;
     globFind := fun _ _ => None;
     lookup := fun _ => None;
     identitiesModules := [status_route];
     routeModule := fun pathname name =>
       if String.eqb pathname "status" && String.eqb name "ALL"
       then Some (answer "up") else None;
     basePath := "/app/.intrest/routes";
     join := slash_join;
     middlewarePaths := [];
     middlewareModule := fun _ _ => None;
     NOT_FOUND := None;
     METHOD_NOT_ALLOWED := Some "Nope" |}.

(** One route [api/status] with a [GET] handler [h], and the middleware
    files [files], loaded by [mw]. *)
Definition chain_env {H} (h : RequestHandler) (files : list string)
    (mw : string -> option H) : Env H :=
  {| staticFolder := None;
     globFind := fun _ _ => None;
     lookup := fun _ => None;
     identitiesModules := [api_status];
     routeModule := fun pathname name =>
       if String.eqb pathname "api/status" && String.eqb name "GET" then Some h else None;
     basePath := "app/.intrest/routes";
     join := slash_join;
     middlewarePaths := files;
     middlewareModule := fun p name =>
       if String.eqb name "middleware" || String.eqb name "handler" then mw p else None;
     NOT_FOUND := None;
     METHOD_NOT_ALLOWED := None |}.

Definition root_middleware : string := "app/.intrest/routes/middleware.mjs".
Definition api_middleware : string := "app/.intrest/routes/api/middleware.mjs".
Definition nested_middleware : string := "app/.intrest/routes/api/status/middleware.mjs".

(** Every middleware file holds the same handler. *)
Definition all_alike {H} (h : H) (p : string) : option H := Some h.

(** The root middleware is [first], the one of [api/status] is [second]. *)
Definition two_steps {H} (first second : H) (p : string) : option H :=
  if String.eqb p root_middleware then Some first
  else if String.eqb p nested_middleware then Some second
  else None.

(** [async (context, next) => { await next() }] in the recursive revision:
    the result of the continuation is dropped. *)
Definition drops_result : Recursive.MiddlewareHandler :=
  Next None (fun _ => Return None).

(** [(context, next) => next(data)] in the two revisions. *)
Definition proceeds (data : option CustomRequestData) : Recursive.MiddlewareHandler :=
  Next data Recursive.forward.

Definition proceeds_loop (data : option CustomRequestData) : Loop.MiddlewareHandler :=
  Next data (fun _ => Return None).

(** A static folder holding [README] (no known content type) and
    [logo.png], next to a route [status]. *)
Definition static_env {H} : Env H :=
  {| staticFolder := Some "/app/static";
     globFind := fun folder p =>
       if String.eqb p "README" || String.eqb p "logo.png" || String.eqb p "status"
       then Some (folder ++ "/" ++ p)%string else None;
     lookup := fun file =>
       if String.eqb file "/app/static/logo.png" then Some "image/png" else None;
     identitiesModules := [status_route; compile "logo.png" "logo.png"];
     routeModule := fun pathname name =>
       if String.eqb name "GET" then Some (answer pathname) else None;
     basePath := "/app/.intrest/routes";
     join := slash_join;
     middlewarePaths := [];
     middlewareModule := fun _ _ => None;
     NOT_FOUND := None;
     METHOD_NOT_ALLOWED := None |}.

(** The middleware modules of the root, of [api] and of [api/status]. *)
Definition at_root {H} (h : H) : MiddlewareModule.t H :=
  {| MiddlewareModule.handler := h; MiddlewareModule.pathname := "/middleware.mjs" |}.

Definition at_api {H} (h : H) : MiddlewareModule.t H :=
  {| MiddlewareModule.handler := h; MiddlewareModule.pathname := "/api/middleware.mjs" |}.

Definition at_api_status {H} (h : H) : MiddlewareModule.t H :=
  {| MiddlewareModule.handler := h;
     MiddlewareModule.pathname := "/api/status/middleware.mjs" |}.

(** [(context) => { context.method }]: a middleware of the loop revision
    that looks at the request and returns. *)
Definition looks_on : Loop.MiddlewareHandler := Read (fun _ => Return None).

(** [() => response]: a middleware of the recursive revision that answers
    at once. *)
Definition stops : Recursive.MiddlewareHandler := answer "stop".

(** [async (context, next) => { await next(); return next() }]. *)
Definition calls_twice : Recursive.MiddlewareHandler :=
  Next None (fun _ => Next None Recursive.forward).

Definition other_middleware : string := "app/.intrest/routes/other/middleware.mjs".

Definition at_other {H} (h : H) : MiddlewareModule.t H :=
  {| MiddlewareModule.handler := h; MiddlewareModule.pathname := "/other/middleware.mjs" |}.

(** A request that comes with a [custom] of its own. *)
Definition request_with (c : CustomRequestData) : RequestData :=
  {| dataMethod := "GET"; dataPath := "api/status"; dataHeaders := []; dataQuery := None;
     dataCustom := Some c |}.

Definition start_loop : Loop.State :=
  Loop.initial (init_context (request "GET" "api/status")).

Definition start_recursive : Recursive.State :=
  Recursive.initial (init_context (request "GET" "api/status")).

End Sample.

(* ===================================================================== *)
(** * Properties *)
(* ===================================================================== *)

(** ** The comparator as an order *)

Section StringOrder.

Lemma ascii_compare_trans a b c :
  Ascii.compare a b = Lt -> Ascii.compare b c = Lt -> Ascii.compare a c = Lt.
Proof.
  unfold Ascii.compare. rewrite !N.compare_lt_iff. lia.
Qed.

Lemma ascii_compare_refl a : Ascii.compare a a = Eq.
Proof. unfold Ascii.compare. apply N.compare_refl. Qed.

Lemma string_compare_refl s : String.compare s s = Eq.
Proof.
  induction s as [|c s IH]; simpl; [done|]. by rewrite ascii_compare_refl.
Qed.

Lemma string_compare_trans s1 s2 s3 :
  String.compare s1 s2 = Lt -> String.compare s2 s3 = Lt -> String.compare s1 s3 = Lt.
Proof.
  revert s2 s3. induction s1 as [|a s1 IH]; intros [|b s2] [|c s3]; simpl; try done.
  destruct (Ascii.compare a b) eqn:Hab; try done;
    destruct (Ascii.compare b c) eqn:Hbc; try done; intros H1 H2.
  - apply Ascii.compare_eq_iff in Hab, Hbc. subst.
    rewrite ascii_compare_refl. eauto.
  - apply Ascii.compare_eq_iff in Hab. subst. by rewrite Hbc.
  - apply Ascii.compare_eq_iff in Hbc. subst. by rewrite Hab.
  - by rewrite (ascii_compare_trans _ _ _ Hab Hbc).
Qed.

Lemma lt_irrefl s : Js.lt s s = false.
Proof. unfold Js.lt, String.ltb. by rewrite string_compare_refl. Qed.

Lemma lt_trans s1 s2 s3 : Js.lt s1 s2 = true -> Js.lt s2 s3 = true -> Js.lt s1 s3 = true.
Proof.
  unfold Js.lt, String.ltb. intros H1 H2.
  destruct (String.compare s1 s2) eqn:E1; try done.
  destruct (String.compare s2 s3) eqn:E2; try done.
  by rewrite (string_compare_trans _ _ _ E1 E2).
Qed.

Lemma lt_asym s1 s2 : Js.lt s1 s2 = true -> Js.lt s2 s1 = false.
Proof.
  unfold Js.lt, String.ltb. rewrite (String.compare_antisym s1 s2).
  by destruct (String.compare s2 s1).
Qed.

Lemma lt_connected s1 s2 : Js.lt s1 s2 = false -> Js.lt s2 s1 = false -> s1 = s2.
Proof.
  unfold Js.lt, String.ltb. rewrite (String.compare_antisym s1 s2).
  destruct (String.compare s2 s1) eqn:E; try done.
  intros _ _. symmetry. by apply String.compare_eq_iff.
Qed.

End StringOrder.

Section SegmentOrder.

Lemma compare_segments_values aS bS :
  compare_segments aS bS = None \/ compare_segments aS bS = Some 1
  \/ compare_segments aS bS = Some (-1).
Proof.
  revert bS. induction aS as [|sa aS IH]; intros bS; simpl; [by left|].
  destruct (is_dynamic sa), bS as [|sb bS]; simpl; try destruct (is_dynamic sb);
    simpl; auto.
Qed.

Lemma compare_segments_antisym aS bS :
  length aS = length bS ->
  compare_segments bS aS = Z.opp <$> compare_segments aS bS.
Proof.
  revert bS. induction aS as [|sa aS IH]; intros [|sb bS] Hlen; simpl in *; try done.
  destruct (is_dynamic sa), (is_dynamic sb); simpl; auto.
Qed.

Lemma compare_segments_None aS bS :
  length aS = length bS ->
  compare_segments aS bS = None <-> map is_dynamic aS = map is_dynamic bS.
Proof.
  revert bS. induction aS as [|sa aS IH]; intros [|sb bS] Hlen; simpl in *; try done.
  destruct (is_dynamic sa), (is_dynamic sb); simpl;
    rewrite ?IH by lia; split; intros H; try done; congruence.
Qed.

Lemma compare_segments_trans aS bS cS :
  length aS = length bS -> length bS = length cS ->
  rank (compare_segments aS bS) <= 0 -> rank (compare_segments bS cS) <= 0 ->
  compare_segments aS cS =
    match compare_segments aS bS with
    | None => compare_segments bS cS
    | Some r => Some r
    end.
Proof.
  revert bS cS.
  induction aS as [|sa aS IH]; intros [|sb bS] [|sc cS] Hab Hbc; simpl in *; try done.
  destruct (is_dynamic sa), (is_dynamic sb), (is_dynamic sc); simpl;
    intros H1 H2; try done; try lia; try (apply IH; auto with lia; fail);
    pose proof (compare_segments_values aS bS) as V;
    destruct (compare_segments aS bS); simpl in *;
    destruct V as [?|[?|?]]; simplify_eq; done || lia.
Qed.

End SegmentOrder.

Section RouteOrder.

Lemma compare_routes_antisym a b :
  Z.sgn (compare_routes b a) = - Z.sgn (compare_routes a b).
Proof.
  unfold compare_routes.
  destruct (Js.lt (Js.toLowerCase (route a)) (Js.toLowerCase (route b))) eqn:E1.
  - by rewrite (lt_asym _ _ E1).
  - destruct (Js.lt (Js.toLowerCase (route b)) (Js.toLowerCase (route a))) eqn:E2;
      [done|]. lia.
Qed.

Lemma compare_routes_zero a b :
  compare_routes a b = 0 <->
  Js.toLowerCase (route a) = Js.toLowerCase (route b)
  /\ String.length (pathname a) = String.length (pathname b).
Proof.
  unfold compare_routes. split.
  - destruct (Js.lt _ _) eqn:E1; [lia|].
    destruct (Js.lt (Js.toLowerCase (route b)) _) eqn:E2; [lia|].
    intros H. split; [by apply lt_connected|lia].
  - intros [-> Hl]. rewrite lt_irrefl. lia.
Qed.

Lemma compare_routes_trans a b c :
  compare_routes a b <= 0 -> compare_routes b c <= 0 -> compare_routes a c <= 0.
Proof.
  unfold compare_routes.
  destruct (Js.lt (Js.toLowerCase (route a)) (Js.toLowerCase (route b))) eqn:Eab.
  - intros _.
    destruct (Js.lt (Js.toLowerCase (route b)) (Js.toLowerCase (route c))) eqn:Ebc.
    + intros _. by rewrite (lt_trans _ _ _ Eab Ebc).
    + destruct (Js.lt (Js.toLowerCase (route c)) (Js.toLowerCase (route b))) eqn:Ecb;
        [lia|].
      rewrite <- (lt_connected _ _ Ebc Ecb). by rewrite Eab.
  - destruct (Js.lt (Js.toLowerCase (route b)) (Js.toLowerCase (route a))) eqn:Eba;
      [lia|].
    rewrite (lt_connected _ _ Eab Eba). intros Hl.
    destruct (Js.lt (Js.toLowerCase (route b)) (Js.toLowerCase (route c))) eqn:Ebc;
      [done|].
    destruct (Js.lt (Js.toLowerCase (route c)) (Js.toLowerCase (route b))) eqn:Ecb;
      lia.
Qed.

End RouteOrder.

(** The comparator on identities with the same number of segments: the case
    [getIdentities] sorts, since every identity kept by its filter matches
    the one request path. *)
Section SameArity.

Implicit Types a b c : AutoGeneratedVars.

Lemma sortCompiledRoutes_antisym a b :
  same_arity a b ->
  Z.sgn (sortCompiledRoutes b a) = - Z.sgn (sortCompiledRoutes a b).
Proof.
  intros Hab. unfold sortCompiledRoutes.
  rewrite (compare_segments_antisym _ _ Hab).
  destruct (compare_segments_values (segments a) (segments b)) as [E|[E|E]];
    rewrite E; simpl; [apply compare_routes_antisym|done|done].
Qed.

Lemma sortCompiledRoutes_total a b : same_arity a b -> prefers a b \/ prefers b a.
Proof.
  intros Hab. unfold prefers. pose proof (sortCompiledRoutes_antisym a b Hab). lia.
Qed.

Lemma sortCompiledRoutes_trans a b c :
  same_arity a b -> same_arity b c -> prefers a b -> prefers b c -> prefers a c.
Proof.
  unfold prefers, sortCompiledRoutes. intros Hab Hbc H1 H2.
  assert (R1 : rank (compare_segments (segments a) (segments b)) <= 0).
  { destruct (compare_segments (segments a) (segments b)); simpl; [done|lia]. }
  assert (R2 : rank (compare_segments (segments b) (segments c)) <= 0).
  { destruct (compare_segments (segments b) (segments c)); simpl; [done|lia]. }
  rewrite (compare_segments_trans _ _ _ Hab Hbc R1 R2).
  destruct (compare_segments (segments a) (segments b)) as [r|]; [done|].
  destruct (compare_segments (segments b) (segments c)) as [r|]; [done|].
  by apply compare_routes_trans with b.
Qed.

Lemma sortCompiledRoutes_tie a b :
  same_arity a b ->
  sortCompiledRoutes a b = 0 <->
  shape a = shape b
  /\ Js.toLowerCase (route a) = Js.toLowerCase (route b)
  /\ String.length (pathname a) = String.length (pathname b).
Proof.
  intros Hab. unfold sortCompiledRoutes, shape.
  rewrite <- (compare_segments_None _ _ Hab), <- compare_routes_zero.
  destruct (compare_segments_values (segments a) (segments b)) as [E|[E|E]];
    rewrite E; intuition (done || lia).
Qed.

End SameArity.

(** C1 (as amended). On identities with the same number of segments, which
    is what the structural matches of one path are, the preference induced by
    [sortCompiledRoutes] is total, the two ways of comparing a pair agree up
    to sign, it is transitive, and a tie (result 0) happens exactly when the
    two templates have the same literal/dynamic shape, routes equal up to
    case and pathnames of equal length. *)
Theorem sortCompiledRoutes_order (a b c : AutoGeneratedVars) :
  same_arity a b -> same_arity b c ->
  (prefers a b \/ prefers b a)
  /\ Z.sgn (sortCompiledRoutes b a) = - Z.sgn (sortCompiledRoutes a b)
  /\ (prefers a b -> prefers b c -> prefers a c)
  /\ (sortCompiledRoutes a b = 0 <->
      shape a = shape b
      /\ Js.toLowerCase (route a) = Js.toLowerCase (route b)
      /\ String.length (pathname a) = String.length (pathname b)).
Proof.
  intros Hab Hbc. split; [|split; [|split]].
  - by apply sortCompiledRoutes_total.
  - by apply sortCompiledRoutes_antisym.
  - by apply sortCompiledRoutes_trans.
  - by apply sortCompiledRoutes_tie.
Qed.

Lemma sortCompiledRoutes_order_witness :
  (prefers Sample.users_me Sample.users_id \/ prefers Sample.users_id Sample.users_me)
  /\ Z.sgn (sortCompiledRoutes Sample.users_id Sample.users_me)
     = - Z.sgn (sortCompiledRoutes Sample.users_me Sample.users_id)
  /\ (prefers Sample.users_me Sample.users_id ->
      prefers Sample.users_id Sample.users_name ->
      prefers Sample.users_me Sample.users_name)
  /\ (sortCompiledRoutes Sample.users_me Sample.users_id = 0 <->
      shape Sample.users_me = shape Sample.users_id
      /\ Js.toLowerCase (route Sample.users_me) = Js.toLowerCase (route Sample.users_id)
      /\ String.length (pathname Sample.users_me)
         = String.length (pathname Sample.users_id)).
Proof.
  apply (sortCompiledRoutes_order Sample.users_me Sample.users_id Sample.users_name);
    reflexivity.
Defined.

(** C1 (as stated) fails on templates with different segment counts: [z]
    and [a/[id]] are each listed after the other, whichever is compared
    first, so neither is preferred and the signs do not oppose. *)
Lemma sortCompiledRoutes_not_total :
  sortCompiledRoutes Sample.zed Sample.a_id = 1
  /\ sortCompiledRoutes Sample.a_id Sample.zed = 1
  /\ ~ (prefers Sample.zed Sample.a_id \/ prefers Sample.a_id Sample.zed).
Proof.
  split; [reflexivity|]. split; [reflexivity|].
  unfold prefers. intros [H|H]; vm_compute in H; by apply H.
Qed.

(** A tie does not need identical templates: [Ab] and [aB] differ, and
    compare as equal in both directions. *)
Example tie_of_distinct_templates :
  sortCompiledRoutes (compile "Ab" "Ab") (compile "aB" "aB") = 0
  /\ sortCompiledRoutes (compile "aB" "aB") (compile "Ab" "Ab") = 0.
Proof. split; reflexivity. Qed.

(** ** Percent coding *)

Section PercentCoding.

Import QueryString.

Lemma unescape_escape_step c s :
  unescape (escape (String c s)) = String c (unescape (escape s)).
Proof.
  destruct c as [[] [] [] [] [] [] [] []]; reflexivity.
Qed.

Lemma unescape_escape s : unescape (escape s) = s.
Proof.
  induction s as [|c s IH]; [done|].
  by rewrite unescape_escape_step, IH.
Qed.

Lemma map_unescape_escape l : map unescape (map escape l) = l.
Proof.
  induction l as [|x l IH]; simpl; [done|]. by rewrite unescape_escape, IH.
Qed.

End PercentCoding.

Example normalizePath_mixed : Path.normalizePath "\\app//routes\\api/" = "app/routes/api/".
Proof. reflexivity. Qed.

(** ** Splitting and joining *)

Section SplitJoin.

Lemma split_nonempty sep s : Js.split sep s <> [].
Proof.
  destruct s as [|c s]; simpl; [done|].
  destruct (Ascii.eqb c sep); [done|]. by destruct (Js.split sep s).
Qed.

Lemma split_free sep s : free_of sep s -> Js.split sep s = [s].
Proof.
  induction s as [|c s IH]; simpl; [done|]. intros [-> Hs]. by rewrite IH.
Qed.

Lemma split_app sep x y :
  free_of sep x ->
  Js.split sep (String.append x (String sep y)) = x :: Js.split sep y.
Proof.
  induction x as [|c x IH]; simpl.
  - intros _. by rewrite Ascii.eqb_refl.
  - intros [-> Hx]. by rewrite IH.
Qed.

Lemma split_pieces_free sep s : Forall (free_of sep) (Js.split sep s).
Proof.
  induction s as [|c s IH]; simpl; [by repeat constructor|].
  destruct (Ascii.eqb c sep) eqn:E; [by constructor|].
  destruct (Js.split sep s) as [|h t]; [by repeat constructor|].
  inversion IH; subst. by constructor.
Qed.

Lemma split_join sep l :
  l <> [] -> Forall (free_of sep) l ->
  Js.split sep (Js.join (String sep EmptyString) l) = l.
Proof.
  induction l as [|x l IH]; [done|]. intros _ Hall.
  inversion Hall as [|? ? Hx Hl]; subst.
  destruct l as [|y l].
  - by apply split_free.
  - change (Js.join (String sep "") (x :: y :: l))
      with (String.append x (String sep (Js.join (String sep "") (y :: l)))).
    rewrite split_app by done. f_equal. by apply IH.
Qed.

Lemma escape_free_of_slash v : free_of "/" (QueryString.escape v).
Proof.
  induction v as [|c v IH]; simpl; [done|].
  destruct c as [[] [] [] [] [] [] [] []]; simpl; auto.
Qed.

End SplitJoin.

(** ** Extraction of the parameters *)

Section Extraction.

Lemma substitute_free template values :
  Forall (free_of "/") template -> Forall (free_of "/") (substitute template values).
Proof.
  intros Ht. revert values.
  induction Ht as [|t template Hfree Ht IH]; intros values; simpl; [done|].
  destruct (is_dynamic t); [|by constructor].
  destruct values as [|v values]; constructor; auto using escape_free_of_slash.
Qed.

Lemma substitute_nonempty template values :
  template <> [] -> substitute template values <> [].
Proof.
  destruct template as [|t template]; [done|]. intros _. simpl.
  destruct (is_dynamic t); [|done]. by destruct values.
Qed.

Lemma segment_match_substitute template values :
  length values = length (filter (fun s => is_dynamic s = true) template) ->
  segment_match template (substitute template values)
  = Some (map QueryString.escape values).
Proof.
  revert values. induction template as [|t template IH]; intros values; simpl.
  - by destruct values.
  - rewrite filter_cons. destruct (is_dynamic t) eqn:E.
    + rewrite decide_True by done. destruct values as [|v values]; simpl; [done|].
      intros Hlen. rewrite IH by lia. done.
    + rewrite decide_False by (by intros ?). intros Hlen.
      rewrite String.eqb_refl. by apply IH.
Qed.

Lemma template_match_concrete i values :
  length values = length (filter (fun s => is_dynamic s = true) (segments i)) ->
  template_match (pathname i) (concrete_path i values)
  = Some (map QueryString.escape values).
Proof.
  intros Hlen. unfold template_match, concrete_path.
  rewrite (split_join "/").
  - by apply segment_match_substitute.
  - apply substitute_nonempty, split_nonempty.
  - apply substitute_free, split_pieces_free.
Qed.

Lemma zip_into_notin acc props values k :
  k ∉ props -> Lodash.zip_into acc props values !! k = acc !! k.
Proof.
  revert acc values. induction props as [|p props IH]; intros acc values Hk; simpl; [done|].
  apply not_elem_of_cons in Hk as [Hne Hk].
  rewrite IH by done. by rewrite lookup_insert_ne.
Qed.

Lemma zip_into_lookup acc props values j k :
  NoDup props -> props !! j = Some k ->
  Lodash.zip_into acc props values !! k = Some (values !! j).
Proof.
  revert acc values j. induction props as [|p props IH]; intros acc values j Hnd Hj;
    [done|].
  apply NoDup_cons in Hnd as [Hp Hnd]. destruct j as [|j]; simpl in *.
  - simplify_eq. rewrite zip_into_notin by done. rewrite lookup_insert_eq.
    by destruct values.
  - rewrite (IH _ _ j) by done. by destruct values.
Qed.

End Extraction.

(** C9. For an identity that satisfies the invariant of the data model and
    one value per bracketed segment: on the path obtained by substituting the
    escaped values, the captures of the pattern, unescaped, are the values;
    [context.params] is these values zipped with [paramKeys]; and, the keys
    being distinct, each key is bound to its own value. *)
Theorem params_roundtrip (i : AutoGeneratedVars) (values : list string) :
  conforms i ->
  length values = length (filter (fun s => is_dynamic s = true) (segments i)) ->
  map QueryString.unescape (regexp_captures i (concrete_path i values)) = values
  /\ extract_params i (concrete_path i values) = Lodash.zipObject (paramKeys i) values
  /\ (NoDup (paramKeys i) ->
      forall j k, paramKeys i !! j = Some k ->
        extract_params i (concrete_path i values) !! k = Some (values !! j)).
Proof.
  intros [Hpat Hkeys] Hlen.
  assert (Hcap : map QueryString.unescape (regexp_captures i (concrete_path i values))
                 = values).
  { unfold regexp_captures. rewrite Hpat, template_match_concrete by done.
    apply map_unescape_escape. }
  unfold extract_params. rewrite Hcap. split; [done|]. split; [done|].
  intros Hnd j k Hj. by apply zip_into_lookup.
Qed.

Lemma params_roundtrip_witness :
  map QueryString.unescape
    (regexp_captures Sample.files_route
       (concrete_path Sample.files_route ["a/b c"; "100%.txt"]))
  = ["a/b c"; "100%.txt"]
  /\ extract_params Sample.files_route
       (concrete_path Sample.files_route ["a/b c"; "100%.txt"])
     = Lodash.zipObject (paramKeys Sample.files_route) ["a/b c"; "100%.txt"]
  /\ (NoDup (paramKeys Sample.files_route) ->
      forall j k, paramKeys Sample.files_route !! j = Some k ->
        extract_params Sample.files_route
          (concrete_path Sample.files_route ["a/b c"; "100%.txt"]) !! k
        = Some (["a/b c"; "100%.txt"] !! j)).
Proof.
  apply (params_roundtrip Sample.files_route ["a/b c"; "100%.txt"]).
  - split; [intros p; reflexivity | reflexivity].
  - reflexivity.
Defined.

Example concrete_path_files :
  concrete_path Sample.files_route ["a/b c"; "100%.txt"] = "files/a%2Fb%20c/100%25.txt".
Proof. reflexivity. Qed.

Example extract_params_files :
  extract_params Sample.files_route "files/a%2Fb%20c/100%25.txt"
  = {[ "dir" := Some "a/b c"; "name" := Some "100%.txt" ]}.
Proof. vm_compute. reflexivity. Qed.

(** ** Sorting *)

Section Sort.

Context {A : Type} (cmp : A -> A -> Z).

Lemma elem_of_insert_sorted x y l :
  y ∈ Js.insert_sorted cmp x l <-> y = x \/ y ∈ l.
Proof.
  induction l as [|z l IH]; simpl.
  - rewrite list_elem_of_singleton. split; [by left|].
    intros [?|H]; [done|by apply elem_of_nil in H].
  - destruct (cmp x z <=? 0)%Z; rewrite !elem_of_cons; [done|].
    rewrite IH. tauto.
Qed.

Lemma elem_of_sort y l : y ∈ Js.sort cmp l <-> y ∈ l.
Proof.
  induction l as [|x l IH]; simpl; [done|].
  by rewrite elem_of_insert_sorted, elem_of_cons, IH.
Qed.

Lemma insert_sorted_Permutation x l : Js.insert_sorted cmp x l ≡ₚ x :: l.
Proof.
  induction l as [|z l IH]; simpl; [done|].
  destruct (cmp x z <=? 0)%Z; [done|]. rewrite IH. apply Permutation_swap.
Qed.

Lemma sort_Permutation l : Js.sort cmp l ≡ₚ l.
Proof.
  induction l as [|x l IH]; simpl; [done|].
  by rewrite insert_sorted_Permutation, IH.
Qed.

(** On a list where the comparator is total and transitive, the sorted
    array starts with an element that is listed no later than any other. *)
Lemma sort_head_least l :
  (forall x y, x ∈ l -> y ∈ l -> cmp x y <= 0 \/ cmp y x <= 0) ->
  (forall x y z, x ∈ l -> y ∈ l -> z ∈ l -> cmp x y <= 0 -> cmp y z <= 0 -> cmp x z <= 0) ->
  l <> [] ->
  exists m rest, Js.sort cmp l = m :: rest /\ m ∈ l /\ forall y, y ∈ l -> cmp m y <= 0.
Proof.
  intros Htot Htrans. induction l as [|x l IH]; [done|]. intros _. simpl.
  destruct l as [|x' l'].
  - exists x, []. split; [done|]. split; [by left|].
    intros y Hy. apply list_elem_of_singleton in Hy as ->.
    destruct (Htot x x); by try left.
  - destruct IH as (m & rest & Hs & Hm & Hleast).
    + intros; apply Htot; by right.
    + intros a b c ? ? ?; apply Htrans; by right.
    + done.
    + rewrite Hs. simpl. destruct (cmp x m <=? 0)%Z eqn:E.
      * apply Z.leb_le in E. exists x, (m :: rest). split; [done|]. split; [by left|].
        intros y Hy. apply elem_of_cons in Hy as [->|Hy].
        -- destruct (Htot x x); by try left.
        -- apply (Htrans x m y); [by left|by right|by right|done|by apply Hleast].
      * apply Z.leb_gt in E. exists m, (Js.insert_sorted cmp x rest).
        split; [done|]. split; [by right|].
        intros y Hy. apply elem_of_cons in Hy as [->|Hy]; [|by apply Hleast].
        destruct (Htot x m); [by left|by right|lia|done].
Qed.

(** On such a list the sorted array is ordered throughout. *)
Lemma insert_sorted_StronglySorted x (l : list A) :
  (forall y, y ∈ l -> cmp x y <= 0 \/ cmp y x <= 0) ->
  (forall y z, y ∈ l -> z ∈ l -> cmp x y <= 0 -> cmp y z <= 0 -> cmp x z <= 0) ->
  StronglySorted (fun a b => cmp a b <= 0) l ->
  StronglySorted (fun a b => cmp a b <= 0) (Js.insert_sorted cmp x l).
Proof.
  intros Htot Htrans. induction 1 as [|y l Hsorted IH Hall]; simpl.
  - repeat constructor.
  - destruct (cmp x y <=? 0)%Z eqn:E.
    + apply Z.leb_le in E. constructor; [by constructor|].
      constructor; [done|].
      apply Forall_forall. intros z Hz.
      apply (Htrans y z); [by left|by right|done|].
      by apply (proj1 (Forall_forall _ _) Hall).
    + apply Z.leb_gt in E. constructor.
      * apply IH.
        -- intros; apply Htot; by right.
        -- intros y' z ? ?. apply Htrans; by right.
      * apply Forall_forall. intros z Hz.
        apply elem_of_insert_sorted in Hz as [->|Hz].
        -- destruct (Htot y); [by left|lia|done].
        -- by apply (proj1 (Forall_forall _ _) Hall).
Qed.

Lemma sort_StronglySorted (l : list A) :
  (forall x y, x ∈ l -> y ∈ l -> cmp x y <= 0 \/ cmp y x <= 0) ->
  (forall x y z, x ∈ l -> y ∈ l -> z ∈ l -> cmp x y <= 0 -> cmp y z <= 0 -> cmp x z <= 0) ->
  StronglySorted (fun x y => cmp x y <= 0) (Js.sort cmp l).
Proof.
  intros Htot Htrans. induction l as [|x l IH]; simpl; [constructor|].
  apply insert_sorted_StronglySorted.
  - intros y Hy. rewrite elem_of_sort in Hy. apply Htot; [by left|by right].
  - intros y z Hy Hz. rewrite elem_of_sort in Hy, Hz.
    apply Htrans; [by left|by right|by right].
  - apply IH.
    + intros; apply Htot; by right.
    + intros a b c ? ? ?; apply Htrans; by right.
Qed.

End Sort.

(** ** The literal template is listed first *)

Section LiteralFirst.

Lemma join_split sep s : Js.join (String sep EmptyString) (Js.split sep s) = s.
Proof.
  induction s as [|c s IH]; simpl; [done|].
  destruct (Ascii.eqb c sep) eqn:E.
  - apply Ascii.eqb_eq in E as ->.
    pose proof (split_nonempty sep s) as Hne.
    destruct (Js.split sep s) as [|h t]; [done|]. simpl in *. by rewrite IH.
  - pose proof (split_nonempty sep s) as Hne.
    destruct (Js.split sep s) as [|h t]; [done|].
    destruct t as [|h' t]; simpl in *; by rewrite <- IH.
Qed.

Lemma segment_match_length template p caps :
  segment_match template p = Some caps -> length template = length p.
Proof.
  revert p caps. induction template as [|t template IH]; intros [|q p] caps; simpl;
    try done.
  destruct (is_dynamic t).
  - destruct (segment_match template p) eqn:E; [|done]. intros _. f_equal. eauto.
  - destruct (String.eqb t q); [|done]. intros E. f_equal. eauto.
Qed.

Lemma segment_match_literal template p caps :
  forallb (fun s => negb (is_dynamic s)) template = true ->
  segment_match template p = Some caps -> template = p.
Proof.
  revert p caps. induction template as [|t template IH]; intros [|q p] caps; simpl;
    try done.
  destruct (is_dynamic t); simpl; [done|]. intros Hlit.
  destruct (String.eqb t q) eqn:E; [|done]. apply String.eqb_eq in E as ->.
  intros Hm. f_equal. eauto.
Qed.

Lemma compare_segments_literal aS bS :
  length aS = length bS ->
  forallb (fun s => negb (is_dynamic s)) bS = true ->
  rank (compare_segments aS bS) <= 0 ->
  forallb (fun s => negb (is_dynamic s)) aS = true.
Proof.
  revert bS. induction aS as [|sa aS IH]; intros [|sb bS]; simpl; try done.
  intros Hlen. destruct (is_dynamic sb); simpl; [done|].
  destruct (is_dynamic sa); simpl; [intros _; lia|].
  intros Hlit Hr. apply (IH bS); auto with lia.
Qed.

Lemma matching_arity i p :
  conforms i -> regexp_test i p = true ->
  length (segments i) = length (Js.split "/" p).
Proof.
  intros [Hpat _]. unfold regexp_test. rewrite Hpat. unfold template_match.
  destruct (segment_match _ _) eqn:E; [|done]. intros _.
  by apply segment_match_length in E.
Qed.

Lemma literal_matching_pathname i p :
  conforms i -> literal i -> regexp_test i p = true -> pathname i = p.
Proof.
  intros [Hpat _] Hlit. unfold regexp_test. rewrite Hpat. unfold template_match.
  destruct (segment_match _ _) eqn:E; [|done]. intros _.
  apply segment_match_literal in E; [|done].
  rewrite <- (join_split "/" (pathname i)), <- (join_split "/" p).
  unfold segments in E. by rewrite E.
Qed.

Lemma literal_no_dynamic l :
  forallb (fun s => negb (is_dynamic s)) l = true ->
  filter (fun s => is_dynamic s = true) l = [].
Proof.
  induction l as [|s l IH]; [done|]. simpl.
  intros [Hs Hl]%andb_true_iff.
  rewrite filter_cons, decide_False; [by apply IH|].
  by destruct (is_dynamic s).
Qed.

Lemma literal_no_keys i : conforms i -> literal i -> paramKeys i = [].
Proof.
  intros [_ Hkeys] Hlit. apply nil_length_inv. rewrite Hkeys.
  by rewrite literal_no_dynamic.
Qed.

Lemma compile_conforms template declared : conforms (compile template declared).
Proof.
  split; [done|]. unfold compile, segments. simpl. by rewrite length_map.
Qed.

(** The matches of a path come out of [getIdentities] in the order of the
    comparator, each of them once. *)
Lemma getIdentities_sorted found p :
  Forall conforms found ->
  StronglySorted prefers (getIdentities found p)
  /\ getIdentities found p ≡ₚ filter (fun m => regexp_test m p = true) found.
Proof.
  intros Hconf. unfold getIdentities. split; [|apply sort_Permutation].
  set (F := filter (fun m => regexp_test m p = true) found).
  assert (Har : forall x y, x ∈ F -> y ∈ F -> same_arity x y).
  { intros x y [Hx1 Hx2]%list_elem_of_filter [Hy1 Hy2]%list_elem_of_filter.
    unfold same_arity. rewrite !(matching_arity _ p); try done;
      by eapply (proj1 (Forall_forall _ _) Hconf). }
  apply sort_StronglySorted.
  - intros x y Hx Hy. by apply sortCompiledRoutes_total, Har.
  - intros x y z Hx Hy Hz. apply sortCompiledRoutes_trans; by apply Har.
Qed.

(** The first identity of [getIdentities] has the pathname of the literal
    template and no parameter. *)
Lemma getIdentities_literal_first found p L :
  Forall conforms found -> L ∈ found -> literal L -> regexp_test L p = true ->
  exists i rest,
    getIdentities found p = i :: rest
    /\ pathname i = pathname L /\ extract_params i p = ∅.
Proof.
  intros Hconf HL Hlit Hmatch. unfold getIdentities.
  set (F := filter (fun m => regexp_test m p = true) found).
  assert (HF : forall x, x ∈ F -> conforms x /\ regexp_test x p = true).
  { intros x Hx. apply list_elem_of_filter in Hx as [Hx1 Hx2].
    split; [|done]. by eapply (proj1 (Forall_forall _ _) Hconf). }
  assert (Har : forall x y, x ∈ F -> y ∈ F -> same_arity x y).
  { intros x y Hx Hy. destruct (HF x Hx), (HF y Hy). unfold same_arity.
    by rewrite !(matching_arity _ p). }
  assert (HLF : L ∈ F) by (by apply list_elem_of_filter).
  destruct (sort_head_least sortCompiledRoutes F) as (m & rest & Hs & Hm & Hleast).
  - intros x y Hx Hy. by apply sortCompiledRoutes_total, Har.
  - intros x y z Hx Hy Hz. apply sortCompiledRoutes_trans; by apply Har.
  - intros E. rewrite E in HLF. by apply elem_of_nil in HLF.
  - exists m, rest. split; [done|].
    destruct (HF m Hm) as [Hcm Hmm]. destruct (HF L HLF) as [HcL _].
    assert (Hlm : literal m).
    { apply (compare_segments_literal _ (segments L)); [by apply Har|done|].
      specialize (Hleast L HLF). unfold sortCompiledRoutes in Hleast.
      destruct (compare_segments (segments m) (segments L)); simpl; [done|lia]. }
    split.
    + rewrite (literal_matching_pathname m p), (literal_matching_pathname L p); done.
    + unfold extract_params. by rewrite (literal_no_keys m).
Qed.

Lemma find_handler_first rh i rest h :
  rh i = Some h -> find_handler rh (i :: rest) = Some (h, i).
Proof.
  intros Hf. unfold find_handler. simpl. rewrite Hf.
  by rewrite ?bool_decide_true by eauto.
Qed.

End LiteralFirst.

(** C2 (as amended). Whatever the order of discovery: when a literal
    template among the discovered ones matches the request path and its route
    module gives a handler for the request (by the method, or in the
    recursive revision by [ALL] or [default]), the route found is one with
    the pathname of the literal template, its handler is that handler, and
    the parameters are empty. In both revisions. *)
Theorem literal_route_wins
    (envR : Env Recursive.MiddlewareHandler) (envL : Env Loop.MiddlewareHandler)
    (found : list AutoGeneratedVars) (m p : string) (L : AutoGeneratedVars) :
  Forall conforms found -> L ∈ found -> literal L -> regexp_test L p = true ->
  (forall h, Recursive.route_handler envR m L = Some h ->
     exists i, Recursive.find_route envR m (getIdentities found p) = Some (h, i)
               /\ pathname i = pathname L /\ extract_params i p = ∅)
  /\ (forall h, Loop.route_handler envL m L = Some h ->
     exists i, Loop.find_route envL m (getIdentities found p) = Some (h, i)
               /\ pathname i = pathname L /\ extract_params i p = ∅).
Proof.
  intros Hconf HL Hlit Hmatch.
  destruct (getIdentities_literal_first found p L) as (i & rest & -> & Hp & Hparams);
    try done.
  split; intros h Hh; exists i; (split; [|done]).
  - unfold Recursive.find_route. apply find_handler_first.
    unfold Recursive.route_handler in *. by rewrite Hp.
  - unfold Loop.find_route. apply find_handler_first.
    unfold Loop.route_handler in *. by rewrite Hp.
Qed.

Lemma literal_route_wins_witness :
  (forall h, Recursive.route_handler (Sample.users_env [Sample.users_id; Sample.users_me])
               "GET" Sample.users_me = Some h ->
     exists i,
       Recursive.find_route (Sample.users_env [Sample.users_id; Sample.users_me]) "GET"
         (getIdentities [Sample.users_id; Sample.users_me] "users/me") = Some (h, i)
       /\ pathname i = pathname Sample.users_me /\ extract_params i "users/me" = ∅)
  /\ (forall h, Loop.route_handler (Sample.users_env [Sample.users_id; Sample.users_me])
               "GET" Sample.users_me = Some h ->
     exists i,
       Loop.find_route (Sample.users_env [Sample.users_id; Sample.users_me]) "GET"
         (getIdentities [Sample.users_id; Sample.users_me] "users/me") = Some (h, i)
       /\ pathname i = pathname Sample.users_me /\ extract_params i "users/me" = ∅).
Proof.
  apply (literal_route_wins
           (Sample.users_env [Sample.users_id; Sample.users_me])
           (Sample.users_env [Sample.users_id; Sample.users_me])
           [Sample.users_id; Sample.users_me] "GET" "users/me" Sample.users_me).
  - repeat constructor; intros p; reflexivity.
  - right. left.
  - reflexivity.
  - reflexivity.
Defined.

(** C2 (as stated) fails when the literal template has no handler for the
    method of the request: with [users/me] exporting [GET] only, a [DELETE]
    of [users/me] is answered by the handler of [users/[id]] with
    [{id: "me"}], in either order of discovery. *)
Lemma literal_route_without_method :
  regexp_test Sample.users_me "users/me" = true
  /\ regexp_test Sample.users_id "users/me" = true
  /\ (exists s,
        Recursive.tunnel (Sample.users_env [Sample.users_id; Sample.users_me])
          (Sample.request "DELETE" "users/me") = Done (Sample.text 200 "by id") s
        /\ params (Recursive.ctx s) = {[ "id" := Some "me" ]})
  /\ (exists s,
        Recursive.tunnel (Sample.users_env [Sample.users_me; Sample.users_id])
          (Sample.request "DELETE" "users/me") = Done (Sample.text 200 "by id") s
        /\ params (Recursive.ctx s) = {[ "id" := Some "me" ]}).
Proof.
  split; [reflexivity|]. split; [reflexivity|].
  split; eexists; (split; [vm_compute; reflexivity|vm_compute; reflexivity]).
Qed.

(** ** Finding the route *)

Section FindRoute.

Context (rh : AutoGeneratedVars -> option RequestHandler).

Lemma find_route_spec ids h i :
  find_handler rh ids = Some (h, i) <-> first_with_handler rh ids h i.
Proof.
  unfold find_handler, first_with_handler. induction ids as [|j ids IH]; simpl.
  - split; [done|]. intros (before & after & E & _). by destruct before.
  - destruct (rh j) as [hj|] eqn:Ej; simpl.
    + rewrite ?bool_decide_true by eauto. split.
      * intros [= <- <-]. exists [], ids. by repeat split.
      * intros (before & after & E & Hnone & Hi).
        destruct before as [|b before]; simpl in E; simplify_eq; [done|].
        apply Forall_cons in Hnone as [Hb _]. congruence.
    + rewrite ?bool_decide_false by (by intros [? ?]). rewrite IH. split.
      * intros (before & after & -> & Hnone & Hi).
        exists (j :: before), after. repeat split; [|done]. by constructor.
      * intros (before & after & E & Hnone & Hi).
        destruct before as [|b before]; simpl in E; simplify_eq.
        apply Forall_cons in Hnone as [_ Hnone]. by exists before, after.
Qed.

Lemma find_route_none ids :
  Forall (fun i => rh i = None) ids -> find_handler rh ids = None.
Proof.
  unfold find_handler. induction 1 as [|j ids Hj _ IH]; simpl; [done|].
  rewrite Hj. simpl. by rewrite ?bool_decide_false by (by intros [? ?]).
Qed.

End FindRoute.

(** C3 (as amended). In the recursive revision the handler of a match is
    the export named by the method, else [ALL], else [default]; in the loop
    revision it is the export named by the method and nothing else. In both,
    the route found is the first match, in the order of [getIdentities], with
    such a handler, and a request with matches of which none has a handler
    is answered with status 405 and the configured message, route matching
    being the only thing done. *)
Theorem handler_resolution
    (envR : Env Recursive.MiddlewareHandler) (envL : Env Loop.MiddlewareHandler)
    (m : string) :
  ((forall i, Recursive.route_handler envR m i =
      match routeModule envR (pathname i) m with
      | Some h => Some h
      | None => match routeModule envR (pathname i) "ALL" with
                | Some h => Some h
                | None => routeModule envR (pathname i) "default"
                end
      end)
   /\ (forall ids h i, Recursive.find_route envR m ids = Some (h, i) <->
         first_with_handler (Recursive.route_handler envR m) ids h i)
   /\ (forall data, dataMethod data = m -> static_file envR (dataPath data) = None ->
         getIdentities (identitiesModules envR) (dataPath data) <> [] ->
         Forall (fun i => Recursive.route_handler envR m i = None)
           (getIdentities (identitiesModules envR) (dataPath data)) ->
         Recursive.tunnel envR data
         = Done (json_response 405 (Js.or_default (METHOD_NOT_ALLOWED envR) "Method not allowed"))
             (Recursive.add_log (EvRouting (dataPath data))
                (Recursive.initial (init_context data)))))
  /\ ((forall i, Loop.route_handler envL m i = routeModule envL (pathname i) m)
   /\ (forall ids h i, Loop.find_route envL m ids = Some (h, i) <->
         first_with_handler (Loop.route_handler envL m) ids h i)
   /\ (forall data, dataMethod data = m -> static_file envL (dataPath data) = None ->
         getIdentities (identitiesModules envL) (dataPath data) <> [] ->
         Forall (fun i => Loop.route_handler envL m i = None)
           (getIdentities (identitiesModules envL) (dataPath data)) ->
         Loop.tunnel envL data
         = Done (json_response 405 (Js.or_default (METHOD_NOT_ALLOWED envL) "Method not allowed"))
             (Loop.add_log (EvRouting (dataPath data))
                (Loop.initial (init_context data))))).
Proof.
  split; (split; [|split]).
  - intros i. unfold Recursive.route_handler, Js.or_else.
    by repeat case_match.
  - intros ids h i. apply find_route_spec.
  - intros data <- Hstatic Hne Hnone.
    unfold Recursive.tunnel. simpl. rewrite Hstatic.
    unfold Recursive.route_and_run. simpl.
    destruct (getIdentities (identitiesModules envR) (dataPath data)) as [|i ids] eqn:E;
      [done|].
    unfold Recursive.find_route.
    by rewrite (find_route_none (Recursive.route_handler envR (dataMethod data))).
  - done.
  - intros ids h i. apply find_route_spec.
  - intros data <- Hstatic Hne Hnone.
    unfold Loop.tunnel. simpl. rewrite Hstatic.
    unfold Loop.route_and_run. simpl.
    destruct (getIdentities (identitiesModules envL) (dataPath data)) as [|i ids] eqn:E;
      [done|].
    unfold Loop.find_route.
    by rewrite (find_route_none (Loop.route_handler envL (dataMethod data))).
Qed.

(** A [PATCH] of [users/me], where no route module exports [PATCH], [ALL] or
    [default]: 405 in both revisions. *)
Lemma handler_resolution_witness :
  Recursive.tunnel (Sample.users_env [Sample.users_id; Sample.users_me])
    (Sample.request "PATCH" "users/me")
  = Done (json_response 405 "Method not allowed")
      (Recursive.add_log (EvRouting "users/me")
         (Recursive.initial (init_context (Sample.request "PATCH" "users/me"))))
  /\ Loop.tunnel (Sample.users_env [Sample.users_id; Sample.users_me])
       (Sample.request "PATCH" "users/me")
     = Done (json_response 405 "Method not allowed")
         (Loop.add_log (EvRouting "users/me")
            (Loop.initial (init_context (Sample.request "PATCH" "users/me")))).
Proof.
  destruct (handler_resolution
              (Sample.users_env [Sample.users_id; Sample.users_me])
              (Sample.users_env [Sample.users_id; Sample.users_me]) "PATCH")
    as [(_ & _ & HR) (_ & _ & HL)].
  split.
  - apply (HR (Sample.request "PATCH" "users/me")).
    + reflexivity.
    + reflexivity.
    + vm_compute. discriminate.
    + vm_compute. repeat constructor.
  - apply (HL (Sample.request "PATCH" "users/me")).
    + reflexivity.
    + reflexivity.
    + vm_compute. discriminate.
    + vm_compute. repeat constructor.
Defined.

(** C3 (as stated) fails in the loop revision: a route module that exports
    [ALL] only gives no handler there, and the request is answered 405,
    where the recursive revision runs the [ALL] handler. *)
Lemma loop_has_no_wildcard :
  routeModule (@Sample.wildcard_env Loop.MiddlewareHandler) "status" "ALL"
  = Some (Sample.answer "up")
  /\ Loop.tunnel Sample.wildcard_env (Sample.request "GET" "status")
     = Done (json_response 405 "Nope")
         (Loop.add_log (EvRouting "status")
            (Loop.initial (init_context (Sample.request "GET" "status"))))
  /\ exists s, Recursive.tunnel Sample.wildcard_env (Sample.request "GET" "status")
               = Done (Sample.text 200 "up") s.
Proof.
  split; [reflexivity|]. split; [vm_compute; reflexivity|].
  eexists. vm_compute. reflexivity.
Qed.

(** ** The [catch] of [tunnel] *)

(** C8 (as amended). A value thrown out of the [try] block reaches the
    [catch] of [tunnel]: an [Error] becomes the 500 response with its
    message, any other object is sent as it is, and a primitive value is
    thrown again to the caller; so a primitive is all that [tunnel] can end
    with. In both revisions. *)
Theorem thrown_values_at_boundary
    (envR : Env Recursive.MiddlewareHandler) (envL : Env Loop.MiddlewareHandler)
    (data : RequestData) :
  ((forall v s, static_file envR (dataPath data) = None ->
      Recursive.route_and_run envR data (Recursive.initial (init_context data))
      = Failed v s ->
      Recursive.tunnel envR data = boundary v s)
   /\ (forall v s, Recursive.tunnel envR data = Failed v s ->
         exists p, v = PrimitiveValue p))
  /\ ((forall v s, static_file envL (dataPath data) = None ->
      Loop.route_and_run envL data (Loop.initial (init_context data)) = Failed v s ->
      Loop.tunnel envL data = boundary v s)
   /\ (forall v s, Loop.tunnel envL data = Failed v s ->
         exists p, v = PrimitiveValue p)).
Proof.
  split; split.
  - intros v s Hstatic Hrun. unfold Recursive.tunnel. simpl. rewrite Hstatic.
    simpl in Hrun. rewrite Hrun. by destruct v.
  - intros v s. unfold Recursive.tunnel. simpl.
    destruct (static_file _ _); [done|].
    destruct (Recursive.route_and_run _ _ _) as [x s'|[msg|o|p] s'|s']; simpl;
      intros ?; simplify_eq. by eexists.
  - intros v s Hstatic Hrun. unfold Loop.tunnel. simpl. rewrite Hstatic.
    simpl in Hrun. rewrite Hrun. by destruct v.
  - intros v s. unfold Loop.tunnel. simpl.
    destruct (static_file _ _); [done|].
    destruct (Loop.route_and_run _ _ _) as [x s'|[msg|o|p] s'|s']; simpl;
      intros ?; simplify_eq. by eexists.
Qed.

(** The route handler throws [new Error("boom")]: 500 with the message. *)
Lemma thrown_values_at_boundary_witness :
  (exists s,
     Recursive.tunnel (Sample.chain_env (Raise (ErrorValue "boom")) [] (fun _ => None))
       (Sample.request "GET" "api/status")
     = boundary (ErrorValue "boom") s)
  /\ (exists s,
     Loop.tunnel (Sample.chain_env (Raise (ErrorValue "boom")) [] (fun _ => None))
       (Sample.request "GET" "api/status")
     = boundary (ErrorValue "boom") s).
Proof.
  destruct (thrown_values_at_boundary
              (Sample.chain_env (Raise (ErrorValue "boom")) [] (fun _ => None))
              (Sample.chain_env (Raise (ErrorValue "boom")) [] (fun _ => None))
              (Sample.request "GET" "api/status")) as [[HR _] [HL _]].
  split; eexists.
  - apply HR; [reflexivity|]. vm_compute. reflexivity.
  - apply HL; [reflexivity|]. vm_compute. reflexivity.
Defined.

(** C8 (as stated) fails for a thrown primitive: the handler throws the
    string ["boom"], and [tunnel] itself ends with that throw; no response is
    made at the boundary. *)
Lemma thrown_primitive_escapes :
  (exists s,
     Recursive.tunnel (Sample.chain_env (Raise (PrimitiveValue "boom")) [] (fun _ => None))
       (Sample.request "GET" "api/status")
     = Failed (PrimitiveValue "boom") s)
  /\ (exists s,
     Loop.tunnel (Sample.chain_env (Raise (PrimitiveValue "boom")) [] (fun _ => None))
       (Sample.request "GET" "api/status")
     = Failed (PrimitiveValue "boom") s).
Proof.
  split; eexists; vm_compute; reflexivity.
Qed.

(** ** The middleware of a route *)

Section Applicable.

Lemma some_eqb_elem_of p l : Js.some (String.eqb p) l = true <-> p ∈ l.
Proof.
  unfold Js.some. rewrite existsb_exists, list_elem_of_In. split.
  - intros (x & Hx & E). by apply String.eqb_eq in E as ->.
  - intros Hp. exists p. split; [done|]. apply String.eqb_refl.
Qed.

Lemma elem_of_map {A B} (f : A -> B) l y : y ∈ map f l <-> exists x, x ∈ l /\ y = f x.
Proof.
  rewrite list_elem_of_In, in_map_iff. split.
  - intros (x & <- & Hx). exists x. by rewrite list_elem_of_In.
  - intros (x & Hx & ->). exists x. by rewrite <- list_elem_of_In.
Qed.

Lemma omap_kept {A B} (f : A -> option B) (l : list A) :
  exists kept, kept `sublist_of` l /\ Forall2 (fun x y => f x = Some y) kept (omap f l).
Proof.
  induction l as [|x l (kept & Hsub & Hall)]; simpl.
  - exists []. by split.
  - destruct (f x) as [y|] eqn:E.
    + exists (x :: kept). split; [by constructor|]. by constructor.
    + exists kept. split; [by constructor|done].
Qed.

Lemma map_index_seq {A B} (f : nat -> list A -> B) (l : list A) :
  Js.map_index f l = map (fun i => f i l) (seq 0 (length l)).
Proof. unfold Js.map_index. by rewrite (imap_seq_0 l (fun i => f i l)). Qed.

Lemma map_seq_shift {B} (g : nat -> B) a n :
  map (fun i => g (i + 1)%nat) (seq a n) = map g (seq (S a) n).
Proof.
  revert a. induction n as [|n IH]; intros a; simpl; [done|].
  rewrite IH. f_equal. f_equal. lia.
Qed.

Lemma map_ext_seq {B} (f g : nat -> B) a n :
  (forall i, (a <= i < a + n)%nat -> f i = g i) -> map f (seq a n) = map g (seq a n).
Proof.
  revert a. induction n as [|n IH]; intros a Hfg; simpl; [done|].
  rewrite Hfg by lia. f_equal. apply IH. intros i Hi. apply Hfg. lia.
Qed.

(** The prefixes computed for a pathname that starts with a slash: the
    root, then every cumulative prefix up to the pathname itself. *)
Lemma prefix_pathnames_rooted segs :
  segs <> [] -> Forall (free_of "/") segs ->
  prefix_pathnames (String "/" (Js.join "/" segs))
  = "/" :: map (fun k => String "/" (Js.join "/" (take k segs))) (seq 1 (length segs)).
Proof.
  intros Hne Hfree. unfold prefix_pathnames. rewrite map_index_seq.
  assert (Hsplit : Js.split "/" (String "/" (Js.join "/" segs)) = "" :: segs).
  { simpl. by rewrite (split_join "/"). }
  rewrite Hsplit. simpl. f_equal. apply map_ext_seq. intros i Hi.
  destruct i as [|i]; [lia|]. simpl.
  replace (i + 1)%nat with (S i) by lia. simpl.
  destruct segs as [|x segs]; [done|]. reflexivity.
Qed.

(** For a pathname that does not start with a slash the prefix made of the
    first piece alone is not among them. *)
Lemma prefix_pathnames_unrooted segs :
  segs <> [] -> Forall (free_of "/") segs ->
  prefix_pathnames (Js.join "/" segs)
  = "/" :: map (fun k => Js.join "/" (take k segs)) (seq 2 (length segs - 1)).
Proof.
  intros Hne Hfree. unfold prefix_pathnames. rewrite map_index_seq.
  rewrite (split_join "/") by done.
  destruct segs as [|x segs]; [done|]. simpl. f_equal.
  replace (length segs - 0)%nat with (length segs) by lia.
  rewrite <- (map_seq_shift (fun k => Js.join "/" (take k (x :: segs)))).
  apply map_ext_seq. intros i Hi. destruct i as [|i]; [lia|]. reflexivity.
Qed.

End Applicable.

(** C6 (as amended). In the recursive revision: a middleware is in the
    chain of a pathname exactly when its file is among the discovered ones,
    is the [middleware.mjs] of one of the prefixes computed from the
    pathname, and its module exports a handler; the chain keeps the order in
    which the files were discovered; and for a pathname that starts with a
    slash the prefixes are the root and every cumulative prefix up to the
    pathname. *)
Theorem getMiddlewares_applicable (env : Env Recursive.MiddlewareHandler) (pn : string) :
  (forall m, m ∈ Recursive.getMiddlewares env pn <->
     exists p, p ∈ middlewarePaths env
       /\ (exists prefix, prefix ∈ prefix_pathnames pn
                          /\ p = Recursive.middleware_file env prefix)
       /\ Recursive.load_middleware env p = Some m)
  /\ (exists kept, kept `sublist_of` middlewarePaths env
       /\ Forall2 (fun p m => Recursive.load_middleware env p = Some m)
            kept (Recursive.getMiddlewares env pn))
  /\ (forall segs, segs <> [] -> Forall (free_of "/") segs ->
        pn = String "/" (Js.join "/" segs) ->
        prefix_pathnames pn
        = "/" :: map (fun k => String "/" (Js.join "/" (take k segs)))
                   (seq 1 (length segs))).
Proof.
  split; [|split].
  - intros m. unfold Recursive.getMiddlewares. rewrite list_elem_of_omap.
    split.
    + intros (p & Hp & Hload). exists p.
      apply list_elem_of_filter in Hp as [Hsome Hp].
      apply some_eqb_elem_of, elem_of_map in Hsome as (prefix & Hprefix & ->).
      eauto 6.
    + intros (p & Hp & (prefix & Hprefix & ->) & Hload).
      exists (Recursive.middleware_file env prefix). split; [|done].
      apply list_elem_of_filter. split; [|done].
      apply some_eqb_elem_of, elem_of_map. eauto.
  - unfold Recursive.getMiddlewares.
    destruct (omap_kept (Recursive.load_middleware env)
                (filter (fun p => Js.some (String.eqb p)
                                    (map (Recursive.middleware_file env)
                                       (prefix_pathnames pn)) = true)
                   (middlewarePaths env))) as (kept & Hsub & Hall).
    exists kept. split; [|done].
    etrans; [done|]. apply sublist_filter.
  - intros segs Hne Hfree ->. by apply prefix_pathnames_rooted.
Qed.

(** The three middleware files of [/api/status], all found. *)
Lemma getMiddlewares_applicable_witness :
  prefix_pathnames "/api/status"
  = "/" :: map (fun k => String "/" (Js.join "/" (take k ["api"; "status"])))
             (seq 1 (length ["api"; "status"])).
Proof.
  destruct (getMiddlewares_applicable
              (Sample.chain_env (Sample.answer "done")
                 [Sample.root_middleware; Sample.api_middleware; Sample.nested_middleware]
                 (Sample.all_alike (Sample.proceeds None)))
              "/api/status") as (_ & _ & H).
  apply (H ["api"; "status"]).
  - discriminate.
  - repeat constructor.
  - reflexivity.
Defined.

(** C6 (as stated) fails on the order: with the middleware of
    [api/status] discovered before the root one, it is also run before it. *)
Lemma nested_middleware_runs_first :
  map MiddlewareModule.pathname
    (Recursive.getMiddlewares
       (Sample.chain_env (Sample.answer "done")
          [Sample.nested_middleware; Sample.root_middleware]
          (Sample.all_alike (Sample.proceeds None)))
       "/api/status")
  = ["/api/status/middleware.mjs"; "/middleware.mjs"]
  /\ exists s,
       Recursive.tunnel
         (Sample.chain_env (Sample.answer "done")
            [Sample.nested_middleware; Sample.root_middleware]
            (Sample.all_alike (Sample.proceeds None)))
         (Sample.request "GET" "api/status")
       = Done (Sample.text 200 "done") s
       /\ Recursive.log s
          = [EvRouting "api/status"; EvMiddleware "/api/status/middleware.mjs";
             EvMiddleware "/middleware.mjs"; EvHandler].
Proof.
  split; [vm_compute; reflexivity|].
  eexists. split; [vm_compute; reflexivity|reflexivity].
Qed.

(** In the loop revision the test is [p.includes(pn)]: the root prefix is
    a substring of every discovered file, so the middleware of [other/] runs
    for [api/status]. *)
Example loop_middleware_by_substring :
  map MiddlewareModule.pathname
    (Loop.getMiddlewares
       (Sample.chain_env (Sample.answer "done")
          ["app/.intrest/routes/other/middleware.mjs"]
          (Sample.all_alike (Sample.proceeds_loop None)))
       "api/status")
  = ["/other/middleware.mjs"].
Proof. vm_compute. reflexivity. Qed.

(** ** Running handlers *)

Section ExecFacts.

Context {A B St : Type}.
Variable get_ctx : St -> IntRequest.
Variable set_ctx : IntRequest -> St -> St.

(** What holds of the state whatever the handler does. *)
Lemma exec_preserves (next : A -> St -> B * St) (P : St -> Prop) p s :
  (forall c s, P s -> P (set_ctx c s)) ->
  (forall a s, P s -> P (next a s).2) ->
  P s -> P (final (exec get_ctx set_ctx next p s)).
Proof.
  intros Hset Hnext. revert s.
  induction p as [r|e| |k IH|c k IH|a k IH]; intros s Hs; simpl; auto.
  specialize (Hnext a s Hs). destruct (next a s) as [b s']. by apply IH.
Qed.

(** What holds of the state when the handler assigns nothing. *)
Lemma exec_assigns_nothing (next : A -> St -> B * St) (P : St -> Prop) p s :
  assigns_nothing p ->
  (forall a s, P s -> P (next a s).2) ->
  P s -> P (final (exec get_ctx set_ctx next p s)).
Proof.
  intros Hp Hnext. revert s.
  induction Hp as [r|e| |k _ IH|a k _ IH]; intros s Hs; simpl; auto.
  specialize (Hnext a s Hs). destruct (next a s) as [b s']. by apply IH.
Qed.

(** A handler that calls no continuation does not depend on it. *)
Lemma exec_no_next (next next' : A -> St -> B * St) p s :
  calls_no_next p ->
  exec get_ctx set_ctx next p s = exec get_ctx set_ctx next' p s.
Proof.
  intros Hp. revert s. induction Hp as [r|e| |k _ IH|c k _ IH]; intros s; simpl; auto.
Qed.

End ExecFacts.

Lemma same_request_refl c : same_request c c.
Proof. by repeat split. Qed.

Lemma same_request_trans c1 c2 c3 :
  same_request c1 c2 -> same_request c2 c3 -> same_request c1 c3.
Proof.
  unfold same_request. intros (?&?&?&?&?) (?&?&?&?&?). repeat split; congruence.
Qed.

(** ** The loop revision *)

Section LoopChain.

Import Loop.

Implicit Types (m : MiddlewareModule.t MiddlewareHandler) (s : State).

Lemma run_middleware_log m s :
  log (final (run_middleware m s)) = log s ++ [EvMiddleware (MiddlewareModule.pathname m)].
Proof.
  unfold run_middleware.
  pose proof (exec_preserves (fun st : State * bool => ctx st.1)
                (fun c st => (set_ctx c st.1, st.2)) next_callback
                (fun st => log st.1 = log s ++ [EvMiddleware (MiddlewareModule.pathname m)])
                (MiddlewareModule.handler m)
                (add_log (EvMiddleware (MiddlewareModule.pathname m)) s, false)) as H.
  destruct (exec _ _ _ _ _) as [res [s' resolved]|e [s' resolved]|[s' resolved]];
    simpl in H; [destruct (bool_decide (is_Some res) || resolved)|..]; simpl;
    apply H; auto.
Qed.

Lemma run_middlewares_log pre s s1 :
  run_middlewares pre s = Done None s1 ->
  log s1 = log s ++ map (fun m => EvMiddleware (MiddlewareModule.pathname m)) pre.
Proof.
  revert s. induction pre as [|m pre IH]; intros s; simpl.
  - intros [= <-]. by rewrite app_nil_r.
  - pose proof (run_middleware_log m s) as Hlog.
    destruct (run_middleware m s) as [[r|] s'|e s'|s']; try done.
    intros Hrun. rewrite (IH _ Hrun). simpl in Hlog. rewrite Hlog.
    by rewrite <- app_assoc.
Qed.

Lemma run_middlewares_app pre rest s :
  run_middlewares (pre ++ rest) s
  = match run_middlewares pre s with
    | Done None s1 => run_middlewares rest s1
    | r => r
    end.
Proof.
  revert s. induction pre as [|m pre IH]; intros s; simpl; [done|].
  destruct (run_middleware m s) as [[r|] s'|e s'|s']; auto.
Qed.

(** A middleware that returns nothing and has not called back ends the
    chain with the timeout error of its pathname. *)
Lemma run_middleware_silent m s :
  MiddlewareModule.handler m = Return None ->
  run_middleware m s
  = Failed (ErrorValue (timeout_message (MiddlewareModule.pathname m)))
      (add_log (EvMiddleware (MiddlewareModule.pathname m)) s).
Proof. intros H. unfold run_middleware. by rewrite H. Qed.

(** One that never settles leaves the chain pending; no timer is set. *)
Lemma run_middleware_pending m s :
  MiddlewareModule.handler m = Pending ->
  run_middleware m s = Stuck (add_log (EvMiddleware (MiddlewareModule.pathname m)) s).
Proof. intros H. unfold run_middleware. by rewrite H. Qed.

(** A step whose handler assigns nothing leaves the request as it was. *)
Lemma run_middleware_frame m s :
  assigns_nothing (MiddlewareModule.handler m) ->
  same_request (ctx s) (ctx (final (run_middleware m s))).
Proof.
  intros Hm. unfold run_middleware.
  pose proof (exec_assigns_nothing (fun st : State * bool => ctx st.1)
                (fun c st => (set_ctx c st.1, st.2)) next_callback
                (fun st => same_request (ctx s) (ctx st.1))
                (MiddlewareModule.handler m)
                (add_log (EvMiddleware (MiddlewareModule.pathname m)) s, false) Hm) as H.
  destruct (exec _ _ _ _ _) as [res [s' resolved]|e [s' resolved]|[s' resolved]];
    simpl in H; [destruct (bool_decide (is_Some res) || resolved)|..]; simpl;
    apply H; try apply same_request_refl;
    intros a st Hst; eapply same_request_trans; try exact Hst; by repeat split.
Qed.

End LoopChain.

(** ** The recursive revision *)

Section RecursiveChain.

Import Recursive.

Implicit Types (m : MiddlewareModule.t MiddlewareHandler) (s : State).

Lemma callRecursiveMiddlewares_cons m rest h s :
  callRecursiveMiddlewares (m :: rest) h s
  = exec ctx set_ctx
      (fun c s' =>
         settle (callRecursiveMiddlewares rest h (next_effect (nextTimer s) c s')))
      (MiddlewareModule.handler m)
      (add_log (EvMiddleware (MiddlewareModule.pathname m))
         (setTimeout (MiddlewareModule.pathname m) s).2).
Proof. reflexivity. Qed.

Lemma forward_settle next r :
  exec ctx set_ctx next (forward (settle r).1) (settle r).2 = r.
Proof. by destruct r. Qed.

Lemma forwards_exec p next s :
  forwards p ->
  exists c s',
    log s' = log s /\ nextTimer s' = nextTimer s /\ armed s' = armed s
    /\ exec ctx set_ctx next p s
       = exec ctx set_ctx next (forward (next c s').1) (next c s').2.
Proof.
  intros Hp. revert s. induction Hp as [c|k _ IH|c k _ IH]; intros s; simpl.
  - exists c, s. repeat split; try done. by destruct (next c s).
  - apply IH.
  - destruct (IH (set_ctx c s)) as (c' & s' & ? & ? & ? & ?). by exists c', s'.
Qed.

Lemma run_alone_log p s : log (final (run_alone p s)) = log s.
Proof.
  unfold run_alone.
  by apply (exec_preserves ctx set_ctx _ (fun s' => log s' = log s)).
Qed.

(** A step that calls no continuation: the chain ends with what the step
    returns, whatever follows it. *)
Lemma chain_stops m rest h s :
  calls_no_next (MiddlewareModule.handler m) ->
  callRecursiveMiddlewares (m :: rest) h s
  = run_alone (MiddlewareModule.handler m)
      (add_log (EvMiddleware (MiddlewareModule.pathname m))
         (setTimeout (MiddlewareModule.pathname m) s).2).
Proof. intros Hm. rewrite callRecursiveMiddlewares_cons. by apply exec_no_next. Qed.

(** Such a step leaves its timer armed. *)
Lemma chain_stops_timer m rest h s :
  calls_no_next (MiddlewareModule.handler m) ->
  armed (final (callRecursiveMiddlewares (m :: rest) h s))
  = armed s ++ [(nextTimer s, MiddlewareModule.pathname m)].
Proof.
  intros Hm. rewrite chain_stops by done. unfold run_alone.
  by apply (exec_preserves ctx set_ctx _
              (fun s' => armed s' = armed s ++ [(nextTimer s, MiddlewareModule.pathname m)])).
Qed.

Lemma chain_forwards pre mk post h s :
  Forall (fun m => forwards (MiddlewareModule.handler m)) pre ->
  calls_no_next (MiddlewareModule.handler mk) ->
  exists s1,
    log s1 = log s ++ map (fun m => EvMiddleware (MiddlewareModule.pathname m)) (pre ++ [mk])
    /\ callRecursiveMiddlewares (pre ++ mk :: post) h s
       = run_alone (MiddlewareModule.handler mk) s1.
Proof.
  intros Hpre Hmk. revert s. induction Hpre as [|m pre Hm _ IH]; intros s.
  - eexists. split; [|by apply chain_stops]. done.
  - pose proof (callRecursiveMiddlewares_cons m (pre ++ mk :: post) h s) as Hc.
    destruct (forwards_exec (MiddlewareModule.handler m)
                (fun c s' => settle (callRecursiveMiddlewares (pre ++ mk :: post) h
                                       (next_effect (nextTimer s) c s')))
                (add_log (EvMiddleware (MiddlewareModule.pathname m))
                   (setTimeout (MiddlewareModule.pathname m) s).2) Hm)
      as (c & s' & Hlog & _ & _ & Hexec).
    rewrite Hexec, forward_settle in Hc.
    destruct (IH (next_effect (nextTimer s) c s')) as (s1 & Hlog1 & Hrun1).
    exists s1. split.
    + rewrite Hlog1. simpl. rewrite Hlog. simpl. by rewrite <- app_assoc.
    + rewrite <- app_comm_cons. by rewrite Hc.
Qed.

Lemma call_handler_frame h s :
  assigns_nothing h -> same_request (ctx s) (ctx (final (call_handler h s))).
Proof.
  intros Hh. unfold call_handler.
  apply (exec_assigns_nothing ctx set_ctx no_next
           (fun s' => same_request (ctx s) (ctx s'))); [done| |apply same_request_refl].
  intros [].
Qed.

(** A chain in which no handler assigns the context leaves the request as
    it was: the continuations change [custom] only. *)
Lemma chain_frame ms h s :
  Forall (fun m => assigns_nothing (MiddlewareModule.handler m)) ms ->
  assigns_nothing h ->
  same_request (ctx s) (ctx (final (callRecursiveMiddlewares ms h s))).
Proof.
  intros Hms Hh. revert s. induction Hms as [|m ms Hm _ IH]; intros s.
  - by apply call_handler_frame.
  - rewrite callRecursiveMiddlewares_cons.
    apply (exec_assigns_nothing ctx set_ctx _
             (fun s' => same_request (ctx s) (ctx s'))); [done| |apply same_request_refl].
    intros c s' Hs'.
    destruct (callRecursiveMiddlewares ms h (next_effect (nextTimer s) c s')) eqn:E;
      simpl;
      (eapply same_request_trans; [exact Hs'|]);
      (eapply same_request_trans;
       [|pose proof (IH (next_effect (nextTimer s) c s')) as H; rewrite E in H; exact H]);
      by repeat split.
Qed.

End RecursiveChain.

(** C5 (as amended). In the loop revision: when the steps before step k
    have all gone on and step k returns a response, the chain ends with that
    response, which is the one sent, and the trace holds the steps up to k
    and nothing else: no later step, no handler. In the recursive revision:
    when the steps before step k hand on what their continuation gives, and
    step k calls no continuation, the chain ends with what step k returns, be
    it a response or not, which is then what is sent, and the trace again
    holds the steps up to k and nothing else. *)
Theorem short_circuit :
  (forall (pre post : list (MiddlewareModule.t Loop.MiddlewareHandler)) mk h s s1 r s2,
     Loop.run_middlewares pre s = Done None s1 ->
     Loop.run_middleware mk s1 = Done (Some r) s2 ->
     Loop.run_chain (pre ++ mk :: post) h s = Done (Some r) s2
     /\ respond (Loop.run_chain (pre ++ mk :: post) h s) = Done r s2
     /\ Loop.log s2
        = Loop.log s
          ++ map (fun m => EvMiddleware (MiddlewareModule.pathname m)) (pre ++ [mk]))
  /\ (forall (pre post : list (MiddlewareModule.t Recursive.MiddlewareHandler)) mk h s,
     Forall (fun m => Recursive.forwards (MiddlewareModule.handler m)) pre ->
     calls_no_next (MiddlewareModule.handler mk) ->
     exists s1,
       Recursive.callRecursiveMiddlewares (pre ++ mk :: post) h s
       = Recursive.run_alone (MiddlewareModule.handler mk) s1
       /\ Recursive.log s1
          = Recursive.log s
            ++ map (fun m => EvMiddleware (MiddlewareModule.pathname m)) (pre ++ [mk])
       /\ Recursive.log
            (final (Recursive.callRecursiveMiddlewares (pre ++ mk :: post) h s))
          = Recursive.log s1
       /\ forall r s2,
            Recursive.run_alone (MiddlewareModule.handler mk) s1 = Done (Some r) s2 ->
            respond (Recursive.callRecursiveMiddlewares (pre ++ mk :: post) h s)
            = Done r s2).
Proof.
  split.
  - intros pre post mk h s s1 r s2 Hpre Hmk.
    assert (Hrun : Loop.run_chain (pre ++ mk :: post) h s = Done (Some r) s2).
    { unfold Loop.run_chain. rewrite run_middlewares_app, Hpre. simpl. by rewrite Hmk. }
    split; [done|]. split; [by rewrite Hrun|].
    pose proof (run_middleware_log mk s1) as Hlog. rewrite Hmk in Hlog. simpl in Hlog.
    rewrite Hlog, (run_middlewares_log _ _ _ Hpre), map_app. simpl.
    by rewrite <- app_assoc.
  - intros pre post mk h s Hpre Hmk.
    destruct (chain_forwards pre mk post h s Hpre Hmk) as (s1 & Hlog & Hrun).
    exists s1. split; [done|]. split; [done|]. split.
    + rewrite Hrun. apply run_alone_log.
    + intros r s2 Hr. by rewrite Hrun, Hr.
Qed.

(** The root middleware goes on, the one of [api] answers, the one of
    [api/status] and the handler are not reached. *)
Lemma short_circuit_witness :
  (Loop.run_chain
     ([Sample.at_root (Sample.proceeds_loop None)]
      ++ Sample.at_api (Sample.answer "stop")
         :: [Sample.at_api_status (Sample.proceeds_loop None)])
     (Sample.answer "done") Sample.start_loop
   = Done (Some (Sample.text 200 "stop"))
       (final (Loop.run_middleware (Sample.at_api (Sample.answer "stop"))
                 (final (Loop.run_middlewares [Sample.at_root (Sample.proceeds_loop None)]
                           Sample.start_loop))))
   /\ respond
        (Loop.run_chain
           ([Sample.at_root (Sample.proceeds_loop None)]
            ++ Sample.at_api (Sample.answer "stop")
               :: [Sample.at_api_status (Sample.proceeds_loop None)])
           (Sample.answer "done") Sample.start_loop)
      = Done (Sample.text 200 "stop")
          (final (Loop.run_middleware (Sample.at_api (Sample.answer "stop"))
                    (final (Loop.run_middlewares
                              [Sample.at_root (Sample.proceeds_loop None)]
                              Sample.start_loop))))
   /\ Loop.log
        (final (Loop.run_middleware (Sample.at_api (Sample.answer "stop"))
                  (final (Loop.run_middlewares [Sample.at_root (Sample.proceeds_loop None)]
                            Sample.start_loop))))
      = Loop.log Sample.start_loop
        ++ map (fun m => EvMiddleware (MiddlewareModule.pathname m))
             ([Sample.at_root (Sample.proceeds_loop None)]
              ++ [Sample.at_api (Sample.answer "stop")]))
  /\ (exists s1,
       Recursive.callRecursiveMiddlewares
         ([Sample.at_root (Sample.proceeds None)]
          ++ Sample.at_api (Sample.answer "stop")
             :: [Sample.at_api_status (Sample.proceeds None)])
         (Sample.answer "done") Sample.start_recursive
       = Recursive.run_alone (MiddlewareModule.handler (Sample.at_api (Sample.answer "stop"))) s1
       /\ Recursive.log s1
          = Recursive.log Sample.start_recursive
            ++ map (fun m => EvMiddleware (MiddlewareModule.pathname m))
                 ([Sample.at_root (Sample.proceeds None)]
                  ++ [Sample.at_api (Sample.answer "stop")])
       /\ Recursive.log
            (final (Recursive.callRecursiveMiddlewares
                      ([Sample.at_root (Sample.proceeds None)]
                       ++ Sample.at_api (Sample.answer "stop")
                          :: [Sample.at_api_status (Sample.proceeds None)])
                      (Sample.answer "done") Sample.start_recursive))
          = Recursive.log s1
       /\ forall r s2,
            Recursive.run_alone
              (MiddlewareModule.handler (Sample.at_api (Sample.answer "stop"))) s1
            = Done (Some r) s2 ->
            respond
              (Recursive.callRecursiveMiddlewares
                 ([Sample.at_root (Sample.proceeds None)]
                  ++ Sample.at_api (Sample.answer "stop")
                     :: [Sample.at_api_status (Sample.proceeds None)])
                 (Sample.answer "done") Sample.start_recursive)
            = Done r s2).
Proof.
  destruct short_circuit as [HL HR]. split.
  - apply (HL [Sample.at_root (Sample.proceeds_loop None)]
              [Sample.at_api_status (Sample.proceeds_loop None)]
              (Sample.at_api (Sample.answer "stop")) (Sample.answer "done")
              Sample.start_loop
              (final (Loop.run_middlewares [Sample.at_root (Sample.proceeds_loop None)]
                        Sample.start_loop))).
    + vm_compute. reflexivity.
    + vm_compute. reflexivity.
  - apply (HR [Sample.at_root (Sample.proceeds None)]
              [Sample.at_api_status (Sample.proceeds None)]
              (Sample.at_api (Sample.answer "stop")) (Sample.answer "done")
              Sample.start_recursive).
    + repeat constructor.
    + constructor.
Defined.

(** C5 (as stated) fails in the recursive revision: the root middleware
    awaits its continuation and returns nothing, the middleware of
    [api/status] returns a response, and what is sent is 204, not that
    response. *)
Lemma dropped_response :
  Sample.two_steps Sample.drops_result (Sample.answer "stop") Sample.nested_middleware
  = Some (Return (Some (Sample.text 200 "stop")))
  /\ exists s,
       Recursive.tunnel
         (Sample.chain_env (Sample.answer "done")
            [Sample.root_middleware; Sample.nested_middleware]
            (Sample.two_steps Sample.drops_result (Sample.answer "stop")))
         (Sample.request "GET" "api/status")
       = Done {| status := Some 204; body := NoBody; resHeaders := [] |} s
       /\ Recursive.log s
          = [EvRouting "api/status"; EvMiddleware "/middleware.mjs";
             EvMiddleware "/api/status/middleware.mjs"].
Proof.
  split; [reflexivity|].
  eexists. split; [vm_compute; reflexivity|reflexivity].
Qed.

(** ** The timeout *)

(** C4, at a middleware that never settles and never calls back. In the
    loop revision the request stays pending and no timer was set, the
    [setTimeout] coming after the [await] of the handler. In the recursive
    revision the request stays pending as well: the timer is armed and its
    callback throws the error naming the middleware, but from the event loop,
    where neither the chain nor the [catch] of [tunnel] sees it. In neither is
    the chain failed nor a response made. *)
Theorem timeout_misses_the_chain :
  (exists s,
     Loop.tunnel
       (Sample.chain_env (Sample.answer "done") [Sample.root_middleware]
          (Sample.all_alike Pending))
       (Sample.request "GET" "api/status") = Stuck s
     /\ Loop.log s = [EvRouting "api/status"; EvMiddleware "/middleware.mjs"])
  /\ (exists s,
     Recursive.tunnel
       (Sample.chain_env (Sample.answer "done") [Sample.root_middleware]
          (Sample.all_alike Pending))
       (Sample.request "GET" "api/status") = Stuck s
     /\ Recursive.log s = [EvRouting "api/status"; EvMiddleware "/middleware.mjs"]
     /\ Recursive.uncaught s
        = [ErrorValue "Middleware handler timeout: /middleware.mjs"]).
Proof.
  split; eexists; (split; [vm_compute; reflexivity|]); [|split]; reflexivity.
Qed.

(** The case the loop revision does handle: a middleware that returns
    nothing without calling back. *)
Example loop_timeout_of_silent_middleware :
  exists s,
    Loop.tunnel
      (Sample.chain_env (Sample.answer "done") [Sample.root_middleware]
         (Sample.all_alike (Return None)))
      (Sample.request "GET" "api/status")
    = Done (json_response 500 "Middleware handler timeout: /middleware.mjs") s
    /\ Loop.log s = [EvRouting "api/status"; EvMiddleware "/middleware.mjs"].
Proof. eexists. split; [vm_compute; reflexivity|reflexivity]. Qed.

(** In the recursive revision a middleware that answers without calling its
    continuation leaves its timer armed: the response is sent and the timeout
    error is thrown all the same. *)
Example recursive_timer_after_response :
  exists s,
    Recursive.tunnel
      (Sample.chain_env (Sample.answer "done") [Sample.root_middleware]
         (Sample.all_alike (Sample.answer "stop")))
      (Sample.request "GET" "api/status")
    = Done (Sample.text 200 "stop") s
    /\ Recursive.uncaught s = [ErrorValue "Middleware handler timeout: /middleware.mjs"].
Proof. eexists. split; [vm_compute; reflexivity|reflexivity]. Qed.

(* ===================================================================== *)
(** * Further properties *)
(* ===================================================================== *)

(** ** [normalizePath] *)

Section NormalizePath.

Import Path PathTs.

Lemma collapse_true_no_lead s :
  strip_leading_slashes (collapse_slashes true s) = collapse_slashes true s.
Proof.
  induction s as [|c s IH]; simpl; [done|].
  destruct (is_slash c) eqn:E; [done|]. simpl. by rewrite E.
Qed.

Lemma normalizePath_collapse s : normalizePath s = collapse_slashes true s.
Proof.
  unfold normalizePath. destruct s as [|c s]; simpl; [done|].
  destruct (is_slash c) eqn:E; simpl.
  - apply collapse_true_no_lead.
  - by rewrite E.
Qed.

Lemma is_slash_cases c :
  is_slash c = (Ascii.eqb c "\" || Ascii.eqb c "/").
Proof. unfold is_slash. apply orb_comm. Qed.

Lemma clean_collapse fl s : clean fl (collapse_slashes fl s) = true.
Proof.
  revert fl. induction s as [|c s IH]; intros fl; simpl; [done|].
  destruct (is_slash c) eqn:E.
  - destruct fl; [apply IH|]. simpl. apply IH.
  - simpl. rewrite is_slash_cases in E. apply orb_false_iff in E as [-> ->]. apply IH.
Qed.

Lemma clean_fixed fl s : clean fl s = true -> collapse_slashes fl s = s.
Proof.
  revert fl. induction s as [|c s IH]; intros fl; simpl; [done|].
  rewrite is_slash_cases.
  destruct (Ascii.eqb c "\"); simpl; [done|].
  destruct (Ascii.eqb c "/") eqn:E; simpl.
  - apply Ascii.eqb_eq in E as ->. destruct fl; simpl; [done|].
    intros H. by rewrite IH.
  - intros H. by rewrite IH.
Qed.

Lemma normalizePath_normalized q : normalized (normalizePath q).
Proof. unfold normalized. rewrite normalizePath_collapse. apply clean_collapse. Qed.

Lemma normalizePath_fixed q : normalized q -> normalizePath q = q.
Proof. intros Hq. rewrite normalizePath_collapse. by apply clean_fixed. Qed.

End NormalizePath.

(** X1. Whatever the path, [normalizePath] gives one without backslash,
    without two slashes in a row and without a slash at the start; it leaves
    such a path as it is, and only such a path; so applying it twice is
    applying it once. *)
Theorem normalizePath_normal_form (p : string) :
  PathTs.normalized (Path.normalizePath p)
  /\ Path.normalizePath (Path.normalizePath p) = Path.normalizePath p
  /\ (Path.normalizePath p = p <-> PathTs.normalized p).
Proof.
  split; [apply normalizePath_normalized|].
  split; [apply normalizePath_fixed, normalizePath_normalized|].
  split; [intros <-; apply normalizePath_normalized|apply normalizePath_fixed].
Qed.

(** ** The finders of [path.ts] *)

Section Finders.

Import PathTs.

Context (pathJoin : list string -> string) (glob : list string -> list string).
Context (env_patterns : list string).

Lemma normalized_empty : normalized "".
Proof. done. Qed.

Lemma first_normalized_head res :
  first_normalized res = head (map Path.normalizePath res).
Proof. destruct res as [|[|c r] res]; reflexivity. Qed.

Lemma map_normalized l : Forall normalized (map Path.normalizePath l).
Proof.
  induction l as [|x l IH]; simpl; [constructor|].
  constructor; [apply normalizePath_normalized|done].
Qed.

Lemma head_normalized l r :
  head (map Path.normalizePath l) = Some r -> normalized r.
Proof.
  destruct l as [|x l]; simpl; [done|]. intros [= <-].
  apply normalizePath_normalized.
Qed.

End Finders.

(** X2. Whatever [path.join] and [glob] return, every path that comes out
    of [join], [globFind], [globFindList], [globFindAll], [globFindAllList],
    [findEnvPaths] and [getEnvPath] is normalized: in particular an absolute
    path has lost its leading slash. *)
Theorem finders_give_normalized_paths
    (pathJoin : list string -> string) (glob : list string -> list string)
    (env_patterns : list string) :
  (forall paths, PathTs.normalized (PathTs.join pathJoin paths))
  /\ (forall pattern r, PathTs.globFind pathJoin glob pattern = Some r ->
        PathTs.normalized r)
  /\ (forall patterns r, PathTs.globFindList pathJoin glob patterns = Some r ->
        PathTs.normalized r)
  /\ (forall pattern, Forall PathTs.normalized (PathTs.globFindAll pathJoin glob pattern))
  /\ (forall patterns,
        Forall PathTs.normalized (PathTs.globFindAllList pathJoin glob patterns))
  /\ (forall basePath,
        Forall PathTs.normalized (PathTs.findEnvPaths pathJoin glob env_patterns basePath))
  /\ (forall basePath r,
        PathTs.getEnvPath pathJoin glob env_patterns basePath = Some r ->
        PathTs.normalized r).
Proof.
  repeat split.
  - intros paths. apply normalizePath_normalized.
  - intros pattern r. unfold PathTs.globFind. rewrite first_normalized_head.
    apply head_normalized.
  - intros patterns r. unfold PathTs.globFindList. rewrite first_normalized_head.
    apply head_normalized.
  - intros pattern. apply map_normalized.
  - intros patterns. apply map_normalized.
  - intros basePath. apply map_normalized.
  - intros basePath r. apply head_normalized.
Qed.

(** [/app/.env] found by a glob that gives absolute paths. *)
Lemma finders_give_normalized_paths_witness :
  PathTs.globFind (Js.join "/") (fun _ => ["/app/.env"; "/app/.env.local"]) ["/app"; ".env*"]
  = Some "app/.env"
  /\ PathTs.normalized "app/.env".
Proof.
  split; [reflexivity|].
  destruct (finders_give_normalized_paths (Js.join "/")
              (fun _ => ["/app/.env"; "/app/.env.local"]) []) as (_ & H & _).
  apply (H ["/app"; ".env*"]). reflexivity.
Defined.

(** X3. [globFind] gives the first path of [globFindAll] for the same
    pattern, and nothing exactly when [globFindAll] gives no path;
    [getEnvPath] gives the first path of [findEnvPaths]. *)
Theorem globFind_first_of_all
    (pathJoin : list string -> string) (glob : list string -> list string)
    (env_patterns : list string) (pattern : list string) :
  PathTs.globFind pathJoin glob pattern = head (PathTs.globFindAll pathJoin glob pattern)
  /\ (PathTs.globFind pathJoin glob pattern = None <->
      PathTs.globFindAll pathJoin glob pattern = [])
  /\ (forall basePath,
        PathTs.getEnvPath pathJoin glob env_patterns basePath
        = head (PathTs.findEnvPaths pathJoin glob env_patterns basePath)).
Proof.
  unfold PathTs.globFind, PathTs.globFindAll. rewrite first_normalized_head.
  split; [done|]. split; [|done].
  by destruct (glob [PathTs.join pathJoin pattern]).
Qed.

(** ** [clearExtension] and [escapePath] *)

Section Extensions.

Import Path PathTs.

Lemma collapse_app_char fl x c y :
  is_slash c = false ->
  collapse_slashes fl (String.append x (String c y))
  = String.append (collapse_slashes fl x) (String c (collapse_slashes false y)).
Proof.
  intros Hc. revert fl. induction x as [|d x IH]; intros fl; simpl.
  - by rewrite Hc.
  - destruct (is_slash d); [destruct fl|]; simpl; by rewrite IH.
Qed.

Lemma is_alnum_not_slash c : is_alnum c = true -> is_slash c = false.
Proof. destruct c as [[] [] [] [] [] [] [] []]; done. Qed.

Lemma is_alnum_not_dot c : is_alnum c = true -> Ascii.eqb c "." = false.
Proof. destruct c as [[] [] [] [] [] [] [] []]; done. Qed.

Lemma collapse_alnum fl s : all_alnum s = true -> collapse_slashes fl s = s.
Proof.
  revert fl. induction s as [|c s IH]; intros fl; simpl; [done|].
  intros [Hc Hs]%andb_true_iff. rewrite (is_alnum_not_slash c Hc). by rewrite IH.
Qed.

Lemma all_alnum_app_dot x y : all_alnum (String.append x (String "." y)) = false.
Proof.
  induction x as [|c x IH]; simpl; [done|]. rewrite IH. apply andb_false_r.
Qed.

Lemma strip_extension_app q ext :
  ext <> "" -> all_alnum ext = true ->
  strip_extension (String.append q (String "." ext)) = q.
Proof.
  intros Hne Hal. induction q as [|c q IH]; simpl.
  - rewrite Hal. destruct ext; [done|]. reflexivity.
  - rewrite all_alnum_app_dot, andb_false_r. by rewrite IH.
Qed.

Lemma strip_extension_no_dot s : free_of "." s -> strip_extension s = s.
Proof.
  induction s as [|c s IH]; simpl; [done|]. intros [-> Hs]. simpl. by rewrite IH.
Qed.

Lemma collapse_free_of_dot fl s : free_of "." s -> free_of "." (collapse_slashes fl s).
Proof.
  revert fl. induction s as [|c s IH]; intros fl; simpl; [done|]. intros [Hc Hs].
  destruct (is_slash c); [destruct fl|]; simpl; auto.
Qed.

Lemma collapse_app_slash fl b r :
  exists sep, (sep = "" \/ sep = "/")
    /\ collapse_slashes fl (String.append b (String "/" r))
       = String.append (collapse_slashes fl b)
           (String.append sep (collapse_slashes true r)).
Proof.
  revert fl. induction b as [|c b IH]; intros fl; simpl.
  - destruct fl; [exists ""|exists "/"]; auto.
  - destruct (is_slash c); [destruct fl|]; simpl.
    + apply IH.
    + destruct (IH true) as (sep & Hsep & ->). by exists sep.
    + destruct (IH false) as (sep & Hsep & ->). by exists sep.
Qed.

Lemma collapse_true_head s : strip_slash (collapse_slashes true s) = collapse_slashes true s.
Proof.
  induction s as [|c s IH]; simpl; [done|].
  destruct (is_slash c) eqn:E; [done|]. simpl.
  unfold is_slash in E. apply orb_false_iff in E as [-> _]. done.
Qed.

Lemma startsWith_app p x : Js.startsWith p (String.append p x) = true.
Proof. induction p as [|c p IH]; simpl; [done|]. by rewrite Ascii.eqb_refl. Qed.

Lemma drop_app p x : Js.drop (String.length p) (String.append p x) = x.
Proof. induction p as [|c p IH]; simpl; [by destruct x|done]. Qed.

Lemma remove_first_unfold pattern s :
  Js.remove_first pattern s
  = if Js.startsWith pattern s then Js.drop (String.length pattern) s
    else match s with
         | EmptyString => EmptyString
         | String c s' => String c (Js.remove_first pattern s')
         end.
Proof. by destruct s. Qed.

Lemma remove_first_prefix p x : Js.remove_first p (String.append p x) = x.
Proof. by rewrite remove_first_unfold, startsWith_app, drop_app. Qed.

Lemma remove_first_absent p s : Js.includes s p = false -> Js.remove_first p s = s.
Proof.
  induction s as [|c s IH]; simpl.
  - rewrite orb_false_r. intros ->. done.
  - intros [Hs Hi]%orb_false_iff. rewrite Hs. by rewrite IH.
Qed.

End Extensions.

(** X4. [clearExtension] takes off one extension, the last: a dot followed
    by letters and digits up to the end, however many dots come before; a
    path without any dot is normalized and nothing else. *)
Theorem clearExtension_last_extension (p ext : string) :
  ext <> "" -> PathTs.all_alnum ext = true ->
  PathTs.clearExtension (String.append p (String "." ext)) = Path.normalizePath p
  /\ (free_of "." p -> PathTs.clearExtension p = Path.normalizePath p).
Proof.
  intros Hne Hal. unfold PathTs.clearExtension. rewrite !normalizePath_collapse. split.
  - rewrite collapse_app_char by done. rewrite (collapse_alnum _ _ Hal).
    by apply strip_extension_app.
  - intros Hp. by apply strip_extension_no_dot, collapse_free_of_dot.
Qed.

Lemma clearExtension_last_extension_witness :
  PathTs.clearExtension (String.append "\routes//api.v1/route" (String "." "mjs"))
  = Path.normalizePath "\routes//api.v1/route"
  /\ (free_of "." "\routes//api.v1/route" ->
      PathTs.clearExtension "\routes//api.v1/route"
      = Path.normalizePath "\routes//api.v1/route").
Proof.
  apply (clearExtension_last_extension "\routes//api.v1/route" "mjs").
  - discriminate.
  - reflexivity.
Defined.

(** A file whose name starts with the dot loses its whole name, and a dot in
    a folder name is not an extension. *)
Example clearExtension_edges :
  PathTs.clearExtension "app/.env" = "app/"
  /\ PathTs.clearExtension "a.tar.gz" = "a.tar"
  /\ PathTs.clearExtension "api.v1/route" = "api.v1/route"
  /\ PathTs.clearExtension "notes." = "notes.".
Proof. repeat split. Qed.

(** X5. [escapePath] undoes the joining of a base and a path with a slash:
    from [base/rest] and [base] it gives [rest], normalized, whatever
    slashes and backslashes the two are written with; and when the normalized
    base does not occur in the normalized path, it gives the normalized
    path. *)
Theorem escapePath_of_joined (base rest : string) :
  PathTs.escapePath (String.append base (String "/" rest)) base = Path.normalizePath rest
  /\ (forall path,
        Js.includes (Path.normalizePath path) (Path.normalizePath base) = false ->
        PathTs.escapePath path base = Path.normalizePath path).
Proof.
  unfold PathTs.escapePath. rewrite !normalizePath_collapse. split.
  - destruct (collapse_app_slash true base rest) as (sep & Hsep & ->).
    rewrite remove_first_prefix.
    destruct Hsep as [-> | ->]; simpl; [apply collapse_true_head|done].
  - intros path. rewrite !normalizePath_collapse. intros Habs.
    rewrite (remove_first_absent _ _ Habs). apply collapse_true_head.
Qed.

(** A base written with backslashes, and a path outside of the base. *)
Lemma escapePath_of_joined_witness :
  PathTs.escapePath (String.append "C:\proj\api" (String "/" "/routes//users.ts"))
    "C:\proj\api"
  = "routes/users.ts"
  /\ PathTs.escapePath "lib\x.ts" "app" = "lib/x.ts".
Proof.
  destruct (escapePath_of_joined "C:\proj\api" "/routes//users.ts") as [H _].
  destruct (escapePath_of_joined "app" "") as [_ H'].
  split.
  - exact H.
  - apply (H' "lib\x.ts"). reflexivity.
Defined.

(** The base is looked for anywhere in the path, not at its start only. *)
Example escapePath_inside : PathTs.escapePath "src/app/src/x.ts" "app" = "src//src/x.ts".
Proof. reflexivity. Qed.

(** ** Paths without a route *)

Section NoMatch.

Lemma getIdentities_nil found p :
  Forall (fun i => regexp_test i p = false) found -> getIdentities found p = [].
Proof.
  intros Hnone. unfold getIdentities.
  replace (filter (fun m => regexp_test m p = true) found) with (@nil AutoGeneratedVars);
    [done|].
  symmetry. induction Hnone as [|i found Hi _ IH]; [done|].
  rewrite filter_cons, decide_False by congruence. done.
Qed.

Lemma elem_of_getIdentities found p i :
  i ∈ getIdentities found p <-> i ∈ found /\ regexp_test i p = true.
Proof.
  unfold getIdentities. rewrite elem_of_sort, list_elem_of_filter. tauto.
Qed.

End NoMatch.

(** X6. A request for which there is no static file and no discovered
    identity whose pattern matches the path is answered 404, with the
    configured message when there is a non-empty one and ["Not found"]
    otherwise; route matching is all that was entered. In both revisions. *)
Theorem not_found_without_match
    (envR : Env Recursive.MiddlewareHandler) (envL : Env Loop.MiddlewareHandler)
    (data : RequestData) :
  (static_file envR (dataPath data) = None ->
   Forall (fun i => regexp_test i (dataPath data) = false) (identitiesModules envR) ->
   Recursive.tunnel envR data
   = Done (json_response 404
             match NOT_FOUND envR with
             | Some (String c r) => String c r
             | _ => "Not found"
             end)
       (Recursive.add_log (EvRouting (dataPath data))
          (Recursive.initial (init_context data))))
  /\ (static_file envL (dataPath data) = None ->
   Forall (fun i => regexp_test i (dataPath data) = false) (identitiesModules envL) ->
   Loop.tunnel envL data
   = Done (json_response 404
             match NOT_FOUND envL with
             | Some (String c r) => String c r
             | _ => "Not found"
             end)
       (Loop.add_log (EvRouting (dataPath data)) (Loop.initial (init_context data)))).
Proof.
  split; intros Hstatic Hnone.
  - unfold Recursive.tunnel. simpl. rewrite Hstatic.
    unfold Recursive.route_and_run. simpl. by rewrite (getIdentities_nil _ _ Hnone).
  - unfold Loop.tunnel. simpl. rewrite Hstatic.
    unfold Loop.route_and_run. simpl. by rewrite (getIdentities_nil _ _ Hnone).
Qed.

Lemma not_found_without_match_witness :
  Recursive.tunnel (Sample.users_env [Sample.users_id; Sample.users_me])
    (Sample.request "GET" "orders")
  = Done (json_response 404 "Not found")
      (Recursive.add_log (EvRouting "orders")
         (Recursive.initial (init_context (Sample.request "GET" "orders"))))
  /\ Loop.tunnel (Sample.users_env [Sample.users_id; Sample.users_me])
       (Sample.request "GET" "orders")
     = Done (json_response 404 "Not found")
         (Loop.add_log (EvRouting "orders")
            (Loop.initial (init_context (Sample.request "GET" "orders")))).
Proof.
  destruct (not_found_without_match
              (Sample.users_env [Sample.users_id; Sample.users_me])
              (Sample.users_env [Sample.users_id; Sample.users_me])
              (Sample.request "GET" "orders")) as [HR HL].
  split.
  - apply HR; [reflexivity|]. repeat constructor.
  - apply HL; [reflexivity|]. repeat constructor.
Defined.

(** X7. The route [tunnel] settles on is one of the discovered identities,
    its pattern matches the request path, and the handler is the one its
    module gives; so the captures that fill [params] are those of a match,
    never the empty list of a failed one. In both revisions. *)
Theorem found_route_matches
    (envR : Env Recursive.MiddlewareHandler) (envL : Env Loop.MiddlewareHandler)
    (found : list AutoGeneratedVars) (m p : string) :
  (forall h i, Recursive.find_route envR m (getIdentities found p) = Some (h, i) ->
     i ∈ found /\ Recursive.route_handler envR m i = Some h
     /\ exists captures,
          paramExtract i p = Some captures
          /\ extract_params i p
             = Lodash.zipObject (paramKeys i) (map QueryString.unescape captures))
  /\ (forall h i, Loop.find_route envL m (getIdentities found p) = Some (h, i) ->
     i ∈ found /\ Loop.route_handler envL m i = Some h
     /\ exists captures,
          paramExtract i p = Some captures
          /\ extract_params i p
             = Lodash.zipObject (paramKeys i) (map QueryString.unescape captures)).
Proof.
  assert (H : forall rh h i, find_handler rh (getIdentities found p) = Some (h, i) ->
     i ∈ found /\ rh i = Some h
     /\ exists captures,
          paramExtract i p = Some captures
          /\ extract_params i p
             = Lodash.zipObject (paramKeys i) (map QueryString.unescape captures)).
  { intros rh h i (before & after & E & _ & Hh)%find_route_spec.
    assert (Hi : i ∈ getIdentities found p).
    { rewrite E. apply elem_of_app. right. by left. }
    apply elem_of_getIdentities in Hi as [Hi Htest].
    split; [done|]. split; [done|].
    unfold regexp_test in Htest. unfold extract_params, regexp_captures.
    destruct (paramExtract i p) as [captures|]; [|done]. by exists captures. }
  split; intros h i; apply H.
Qed.

(** [GET users/me] with the routes [users/[id]] and [users/me]. *)
Lemma found_route_matches_witness :
  Sample.users_me ∈ [Sample.users_id; Sample.users_me]
  /\ Loop.route_handler (Sample.users_env [Sample.users_id; Sample.users_me]) "GET"
       Sample.users_me
     = Some (Sample.answer "me")
  /\ exists captures,
       paramExtract Sample.users_me "users/me" = Some captures
       /\ extract_params Sample.users_me "users/me"
          = Lodash.zipObject (paramKeys Sample.users_me)
              (map QueryString.unescape captures).
Proof.
  destruct (found_route_matches
              (Sample.users_env [Sample.users_id; Sample.users_me])
              (Sample.users_env [Sample.users_id; Sample.users_me])
              [Sample.users_id; Sample.users_me] "GET" "users/me") as [_ HL].
  apply (HL (Sample.answer "me") Sample.users_me). reflexivity.
Defined.

(** X8. [getIdentities] gives the discovered identities whose pattern
    matches the path, all of them and each as often as it was discovered,
    and nothing else; when the identities satisfy the invariant of the data
    model they come in the order of [sortCompiledRoutes]. *)
Theorem getIdentities_all_matches (found : list AutoGeneratedVars) (p : string) :
  (forall i, i ∈ getIdentities found p <-> i ∈ found /\ regexp_test i p = true)
  /\ getIdentities found p ≡ₚ filter (fun i => regexp_test i p = true) found
  /\ (length (getIdentities found p) <= length found)%nat
  /\ (Forall conforms found -> StronglySorted prefers (getIdentities found p)).
Proof.
  split; [apply elem_of_getIdentities|]. split; [apply sort_Permutation|]. split.
  - unfold getIdentities. rewrite (Permutation_length (sort_Permutation _ _)).
    apply length_filter.
  - intros Hconf. by apply getIdentities_sorted.
Qed.

Lemma getIdentities_all_matches_witness :
  StronglySorted prefers
    (getIdentities [Sample.users_id; Sample.zed; Sample.users_me] "users/me").
Proof.
  destruct (getIdentities_all_matches [Sample.users_id; Sample.zed; Sample.users_me]
              "users/me") as (_ & _ & _ & H).
  apply H. repeat constructor; intros q; reflexivity.
Defined.

Example getIdentities_users :
  map pathname (getIdentities [Sample.users_id; Sample.zed; Sample.users_me] "users/me")
  = ["users/me"; "users/[id]"].
Proof. reflexivity. Qed.

(** ** The rules of the comparator *)

Section Rules.

Lemma compare_segments_first_difference pa pb sa sb ra rb :
  map is_dynamic pa = map is_dynamic pb ->
  is_dynamic sa = false -> is_dynamic sb = true ->
  compare_segments (pa ++ sa :: ra) (pb ++ sb :: rb) = Some (-1)
  /\ compare_segments (pb ++ sb :: rb) (pa ++ sa :: ra) = Some 1.
Proof.
  intros Hpre Ha Hb. revert pb Hpre.
  induction pa as [|x pa IH]; intros [|y pb] Hpre; simpl in *; try done.
  - by rewrite Ha, Hb.
  - injection Hpre as Hxy Hpre. rewrite Hxy.
    destruct (IH pb Hpre) as [-> ->]. by destruct (is_dynamic y).
Qed.

End Rules.

(** X9. Static beats dynamic at the first difference: when two templates
    have the same literal/dynamic shape up to some index, and there the first
    has a literal segment and the second a bracketed one, the first is
    listed first, whichever way they are compared and whatever follows. *)
Theorem literal_before_dynamic
    (a b : AutoGeneratedVars) (pa pb ra rb : list string) (sa sb : string) :
  segments a = pa ++ sa :: ra -> segments b = pb ++ sb :: rb ->
  map is_dynamic pa = map is_dynamic pb ->
  is_dynamic sa = false -> is_dynamic sb = true ->
  sortCompiledRoutes a b = -1 /\ sortCompiledRoutes b a = 1.
Proof.
  intros Ea Eb Hpre Ha Hb. unfold sortCompiledRoutes. rewrite Ea, Eb.
  by destruct (compare_segments_first_difference pa pb sa sb ra rb Hpre Ha Hb)
    as [-> ->].
Qed.

Lemma literal_before_dynamic_witness :
  sortCompiledRoutes (compile "api/[v]/users/me" "r1") (compile "api/[w]/[id]" "r0") = -1
  /\ sortCompiledRoutes (compile "api/[w]/[id]" "r0") (compile "api/[v]/users/me" "r1") = 1.
Proof.
  apply (literal_before_dynamic
           (compile "api/[v]/users/me" "r1") (compile "api/[w]/[id]" "r0")
           ["api"; "[v]"] ["api"; "[w]"] ["me"] [] "users" "[id]"); reflexivity.
Defined.

(** X10. Between two templates of the same literal/dynamic shape the
    declared routes decide, compared without regard to case, the smaller
    first; and when these are equal the longer pathname comes first. *)
Theorem same_shape_order (a b : AutoGeneratedVars) :
  shape a = shape b ->
  (Js.lt (Js.toLowerCase (route a)) (Js.toLowerCase (route b)) = true ->
   sortCompiledRoutes a b = -1)
  /\ (Js.lt (Js.toLowerCase (route b)) (Js.toLowerCase (route a)) = true ->
   sortCompiledRoutes a b = 1)
  /\ (Js.toLowerCase (route a) = Js.toLowerCase (route b) ->
   sortCompiledRoutes a b
   = Z.of_nat (String.length (pathname b)) - Z.of_nat (String.length (pathname a))).
Proof.
  intros Hshape.
  assert (Har : length (segments a) = length (segments b)).
  { unfold shape in Hshape. by rewrite <- (length_map is_dynamic), Hshape, length_map. }
  assert (Hnone : compare_segments (segments a) (segments b) = None).
  { by apply compare_segments_None. }
  unfold sortCompiledRoutes, compare_routes. rewrite Hnone. repeat split.
  - by intros ->.
  - intros H. by rewrite (lt_asym _ _ H), H.
  - intros ->. by rewrite lt_irrefl.
Qed.

Lemma same_shape_order_witness :
  (Js.lt (Js.toLowerCase (route (compile "users/[id]" "Users/B")))
     (Js.toLowerCase (route (compile "teams/[id]" "users/a"))) = true ->
   sortCompiledRoutes (compile "users/[id]" "Users/B") (compile "teams/[id]" "users/a") = -1)
  /\ (Js.lt (Js.toLowerCase (route (compile "teams/[id]" "users/a")))
        (Js.toLowerCase (route (compile "users/[id]" "Users/B"))) = true ->
   sortCompiledRoutes (compile "users/[id]" "Users/B") (compile "teams/[id]" "users/a") = 1)
  /\ (Js.toLowerCase (route (compile "users/[id]" "Users/B"))
      = Js.toLowerCase (route (compile "teams/[id]" "users/a")) ->
   sortCompiledRoutes (compile "users/[id]" "Users/B") (compile "teams/[id]" "users/a")
   = Z.of_nat (String.length (pathname (compile "teams/[id]" "users/a")))
     - Z.of_nat (String.length (pathname (compile "users/[id]" "Users/B")))).
Proof.
  apply (same_shape_order (compile "users/[id]" "Users/B") (compile "teams/[id]" "users/a")).
  reflexivity.
Defined.

Example same_shape_order_by_route :
  sortCompiledRoutes (compile "users/[id]" "Users/B") (compile "teams/[id]" "users/a") = 1
  /\ sortCompiledRoutes (compile "a/[id]" "same") (compile "abc/[id]" "SAME") = 2.
Proof. split; reflexivity. Qed.

(** ** Chains in which every middleware goes on *)

Section LoopThrough.

Import Loop.

Implicit Types (m : MiddlewareModule.t MiddlewareHandler) (s : State).

Lemma goes_on_exec p s b :
  goes_on p ->
  exists s',
    exec (fun st : State * bool => ctx st.1) (fun c st => (set_ctx c st.1, st.2))
      next_callback p (s, b) = Done None (s', true).
Proof.
  intros Hp. revert s. induction Hp as [c|k _ IH|c k _ IH]; intros s; simpl; eauto.
Qed.

Lemma run_middleware_goes_on m s :
  goes_on (MiddlewareModule.handler m) ->
  exists s1, run_middleware m s = Done None s1.
Proof.
  intros Hm. unfold run_middleware.
  destruct (goes_on_exec _ (add_log (EvMiddleware (MiddlewareModule.pathname m)) s)
              false Hm) as (s' & ->).
  by exists s'.
Qed.

Lemma run_middlewares_go_on ms s :
  Forall (fun m => goes_on (MiddlewareModule.handler m)) ms ->
  exists s1, run_middlewares ms s = Done None s1.
Proof.
  intros Hms. revert s. induction Hms as [|m ms Hm _ IH]; intros s; simpl; [eauto|].
  destruct (run_middleware_goes_on m s Hm) as (s' & ->). apply IH.
Qed.

Lemma call_handler_log h s : log (final (call_handler h s)) = log s ++ [EvHandler].
Proof.
  unfold call_handler.
  apply (exec_preserves ctx set_ctx no_next (fun s' => log s' = log s ++ [EvHandler]));
    [done| |done].
  intros [].
Qed.

Lemma run_middlewares_with_data ms ds s :
  Forall2 (fun m d => MiddlewareModule.handler m = Next d (fun _ => Return None)) ms ds ->
  exists s1,
    run_middlewares ms s = Done None s1
    /\ custom (ctx s1) = foldl Lodash.merge (custom (ctx s)) ds
    /\ same_request (ctx s) (ctx s1).
Proof.
  intros Hms. revert s. induction Hms as [|m d ms ds Hm _ IH]; intros s; simpl.
  - exists s. split; [done|]. split; [done|apply same_request_refl].
  - unfold run_middleware. rewrite Hm. simpl.
    destruct (IH (set_custom
                    (Lodash.merge
                       (custom (ctx (add_log (EvMiddleware (MiddlewareModule.pathname m)) s)))
                       d)
                    (add_log (EvMiddleware (MiddlewareModule.pathname m)) s)))
      as (s1 & Hrun & Hcustom & Hsame).
    exists s1. split; [done|]. split; [done|].
    eapply same_request_trans; [|exact Hsame]. by repeat split.
Qed.

End LoopThrough.

(** X11. In the loop revision, when every middleware of the chain calls
    back once while it runs, that is before its handler returns, and then
    returns nothing, the handler is called, once, after all of them have
    been entered in order; and when the middleware do nothing but pass their
    data in this way, [custom] is at that point the data merged one after
    the other into what it was, the rest of the request being untouched. *)
Theorem loop_chain_goes_through :
  (forall (ms : list (MiddlewareModule.t Loop.MiddlewareHandler)) h s,
     Forall (fun m => goes_on (MiddlewareModule.handler m)) ms ->
     exists s1,
       Loop.run_middlewares ms s = Done None s1
       /\ Loop.run_chain ms h s = Loop.call_handler h s1
       /\ Loop.log (final (Loop.run_chain ms h s))
          = Loop.log s ++ entered ms ++ [EvHandler])
  /\ (forall (ms : list (MiddlewareModule.t Loop.MiddlewareHandler)) ds h s,
     Forall2 (fun m d => MiddlewareModule.handler m = Next d (fun _ => Return None)) ms ds ->
     exists s1,
       Loop.run_chain ms h s = Loop.call_handler h s1
       /\ custom (Loop.ctx s1) = foldl Lodash.merge (custom (Loop.ctx s)) ds
       /\ same_request (Loop.ctx s) (Loop.ctx s1)).
Proof.
  split.
  - intros ms h s Hms. destruct (run_middlewares_go_on ms s Hms) as (s1 & Hrun).
    exists s1. split; [done|].
    assert (Hchain : Loop.run_chain ms h s = Loop.call_handler h s1).
    { unfold Loop.run_chain. by rewrite Hrun. }
    split; [done|].
    rewrite Hchain, call_handler_log, (run_middlewares_log _ _ _ Hrun).
    unfold entered. by rewrite <- app_assoc.
  - intros ms ds h s Hms.
    destruct (run_middlewares_with_data ms ds s Hms) as (s1 & Hrun & Hcustom & Hsame).
    exists s1. split; [|done]. unfold Loop.run_chain. by rewrite Hrun.
Qed.

Lemma loop_chain_goes_through_witness :
  exists s1,
    Loop.run_chain
      [Sample.at_root (Sample.proceeds_loop (Some [("user", JStr "ann")]));
       Sample.at_api (Sample.proceeds_loop None);
       Sample.at_api_status (Sample.proceeds_loop (Some [("role", JStr "admin")]))]
      (Sample.answer "done") Sample.start_loop
    = Loop.call_handler (Sample.answer "done") s1
    /\ custom (Loop.ctx s1)
       = foldl Lodash.merge (custom (Loop.ctx Sample.start_loop))
           [Some [("user", JStr "ann")]; None; Some [("role", JStr "admin")]]
    /\ same_request (Loop.ctx Sample.start_loop) (Loop.ctx s1).
Proof.
  apply (proj2 loop_chain_goes_through).
  repeat constructor.
Defined.

Example loop_custom_in_order :
  foldl Lodash.merge None
    [Some [("user", JStr "ann")]; None; Some [("role", JStr "admin"); ("user", JStr "bob")]]
  = Some [("user", JStr "bob"); ("role", JStr "admin")].
Proof. reflexivity. Qed.

Section RecursiveThrough.

Import Recursive.

Implicit Types (m : MiddlewareModule.t MiddlewareHandler) (s : State).

Lemma filter_fresh (n : nat) (p : string) (l : list (nat * string)) :
  Forall (fun t => (t.1 < n)%nat) l ->
  filter (fun t => t.1 <> n) (l ++ [(n, p)]) = l.
Proof.
  induction 1 as [|t l Ht _ IH]; simpl.
  - rewrite filter_cons, decide_False by (simpl; auto). done.
  - rewrite filter_cons, decide_True by (simpl; lia). by rewrite IH.
Qed.

Lemma recursive_call_handler_log h s :
  log (final (call_handler h s)) = log s ++ [EvHandler].
Proof.
  unfold call_handler.
  apply (exec_preserves ctx set_ctx no_next (fun s' => log s' = log s ++ [EvHandler]));
    [done| |done].
  intros [].
Qed.

Lemma chain_through ms h s :
  Forall (fun m => forwards (MiddlewareModule.handler m)) ms ->
  timers_fresh s ->
  exists s1,
    callRecursiveMiddlewares ms h s = call_handler h s1
    /\ log s1 = log s ++ entered ms
    /\ armed s1 = armed s
    /\ nextTimer s1 = (nextTimer s + length ms)%nat.
Proof.
  intros Hms. revert s. induction Hms as [|m ms Hm _ IH]; intros s Hfresh.
  - exists s. simpl. rewrite app_nil_r. repeat split; lia.
  - pose proof (callRecursiveMiddlewares_cons m ms h s) as Hc.
    destruct (forwards_exec (MiddlewareModule.handler m)
                (fun c s' => settle (callRecursiveMiddlewares ms h
                                       (next_effect (nextTimer s) c s')))
                (add_log (EvMiddleware (MiddlewareModule.pathname m))
                   (setTimeout (MiddlewareModule.pathname m) s).2) Hm)
      as (c & s' & Hlog & Htimer & Harmed & Hexec).
    rewrite Hexec, forward_settle in Hc.
    assert (Ha : armed (next_effect (nextTimer s) c s') = armed s).
    { simpl. rewrite Harmed. simpl. by apply filter_fresh. }
    assert (Hn : nextTimer (next_effect (nextTimer s) c s') = S (nextTimer s)).
    { simpl. by rewrite Htimer. }
    destruct (IH (next_effect (nextTimer s) c s')) as (s1 & Hrun & Hlog1 & Harmed1 & Hn1).
    { unfold timers_fresh. rewrite Ha, Hn.
      eapply Forall_impl; [exact Hfresh|]. simpl. intros; lia. }
    exists s1. split; [by rewrite Hc|]. split; [|split].
    + rewrite Hlog1. simpl. rewrite Hlog. simpl. by rewrite <- app_assoc.
    + by rewrite Harmed1.
    + rewrite Hn1, Hn. simpl. lia.
Qed.

Lemma exec_next_forward (next : option CustomRequestData -> State -> Settled * State) d s :
  exec ctx set_ctx next (Next d forward) s
  = exec ctx set_ctx next (forward (next d s).1) (next d s).2.
Proof. simpl. by destruct (next d s). Qed.

Lemma chain_with_data ms ds h s :
  Forall2 (fun m d => MiddlewareModule.handler m = Next d forward) ms ds ->
  exists s1,
    callRecursiveMiddlewares ms h s = call_handler h s1
    /\ custom (ctx s1) = foldl Lodash.merge (custom (ctx s)) ds
    /\ same_request (ctx s) (ctx s1).
Proof.
  intros Hms. revert s. induction Hms as [|m d ms ds Hm _ IH]; intros s.
  - exists s. split; [done|]. split; [done|apply same_request_refl].
  - pose proof (callRecursiveMiddlewares_cons m ms h s) as Hc.
    rewrite Hm, exec_next_forward, forward_settle in Hc.
    destruct (IH (next_effect (nextTimer s) d
                    (add_log (EvMiddleware (MiddlewareModule.pathname m))
                       (setTimeout (MiddlewareModule.pathname m) s).2)))
      as (s1 & Hrun & Hcustom & Hsame).
    exists s1. split; [by rewrite Hc|]. split; [done|].
    eapply same_request_trans; [|exact Hsame]. by repeat split.
Qed.

End RecursiveThrough.

(** X12. In the recursive revision, when every middleware of the chain
    returns what its continuation gives, the chain is the call of the
    handler, made after all of them have been entered in order, and every
    timer set on the way has been cleared; and when the middleware do nothing
    but pass their data, [custom] is at that point the data merged one after
    the other into what it was, the rest of the request being untouched. *)
Theorem recursive_chain_goes_through :
  (forall (ms : list (MiddlewareModule.t Recursive.MiddlewareHandler)) h s,
     Forall (fun m => Recursive.forwards (MiddlewareModule.handler m)) ms ->
     timers_fresh s ->
     exists s1,
       Recursive.callRecursiveMiddlewares ms h s = Recursive.call_handler h s1
       /\ Recursive.log s1 = Recursive.log s ++ entered ms
       /\ Recursive.armed s1 = Recursive.armed s
       /\ Recursive.log (final (Recursive.callRecursiveMiddlewares ms h s))
          = Recursive.log s ++ entered ms ++ [EvHandler])
  /\ (forall (ms : list (MiddlewareModule.t Recursive.MiddlewareHandler)) ds h s,
     Forall2 (fun m d => MiddlewareModule.handler m = Next d Recursive.forward) ms ds ->
     exists s1,
       Recursive.callRecursiveMiddlewares ms h s = Recursive.call_handler h s1
       /\ custom (Recursive.ctx s1) = foldl Lodash.merge (custom (Recursive.ctx s)) ds
       /\ same_request (Recursive.ctx s) (Recursive.ctx s1)).
Proof.
  split.
  - intros ms h s Hms Hfresh.
    destruct (chain_through ms h s Hms Hfresh) as (s1 & Hrun & Hlog & Harmed & _).
    exists s1. split; [done|]. split; [done|]. split; [done|].
    rewrite Hrun, recursive_call_handler_log, Hlog. by rewrite <- app_assoc.
  - intros ms ds h s Hms. by apply chain_with_data.
Qed.

Lemma recursive_chain_goes_through_witness :
  exists s1,
    Recursive.callRecursiveMiddlewares
      [Sample.at_root (Sample.proceeds (Some [("user", JStr "ann")]));
       Sample.at_api_status (Sample.proceeds None)]
      (Sample.answer "done") Sample.start_recursive
    = Recursive.call_handler (Sample.answer "done") s1
    /\ Recursive.log s1
       = Recursive.log Sample.start_recursive
         ++ entered [Sample.at_root (Sample.proceeds (Some [("user", JStr "ann")]));
                     Sample.at_api_status (Sample.proceeds None)]
    /\ Recursive.armed s1 = Recursive.armed Sample.start_recursive
    /\ Recursive.log
         (final (Recursive.callRecursiveMiddlewares
                   [Sample.at_root (Sample.proceeds (Some [("user", JStr "ann")]));
                    Sample.at_api_status (Sample.proceeds None)]
                   (Sample.answer "done") Sample.start_recursive))
       = Recursive.log Sample.start_recursive
         ++ entered [Sample.at_root (Sample.proceeds (Some [("user", JStr "ann")]));
                     Sample.at_api_status (Sample.proceeds None)]
         ++ [EvHandler].
Proof.
  apply (proj1 recursive_chain_goes_through).
  - repeat constructor.
  - constructor.
Defined.

(** ** Chains that fail *)

Section LoopFailure.

Import Loop.

Implicit Types (m : MiddlewareModule.t MiddlewareHandler) (s : State).

(** A handler that calls no callback runs the same with the local flag
    carried along. *)
Lemma exec_alone_flag p s b :
  calls_no_next p ->
  exec (fun st : State * bool => ctx st.1) (fun c st => (set_ctx c st.1, st.2))
    next_callback p (s, b)
  = match loop_run_alone p s with
    | Done r s' => Done r (s', b)
    | Failed e s' => Failed e (s', b)
    | Stuck s' => Stuck (s', b)
    end.
Proof.
  intros Hp. revert s. unfold loop_run_alone.
  induction Hp as [r|e| |k _ IH|c k _ IH]; intros s; simpl; auto.
Qed.

End LoopFailure.

(** X13. In the loop revision a step that fails ends the chain with its
    failure: when the steps before it have gone on and it is rejected with a
    value, the chain is rejected with that value, and the trace holds the
    steps up to it and nothing else, neither a later step nor the handler. *)
Theorem loop_failure_stops_chain
    (pre post : list (MiddlewareModule.t Loop.MiddlewareHandler))
    (mk : MiddlewareModule.t Loop.MiddlewareHandler) (h : RequestHandler)
    (s s1 s2 : Loop.State) (v : Thrown) :
  Loop.run_middlewares pre s = Done None s1 ->
  Loop.run_middleware mk s1 = Failed v s2 ->
  Loop.run_chain (pre ++ mk :: post) h s = Failed v s2
  /\ Loop.log s2 = Loop.log s ++ entered (pre ++ [mk]).
Proof.
  intros Hpre Hmk. split.
  - unfold Loop.run_chain. rewrite run_middlewares_app, Hpre. simpl. by rewrite Hmk.
  - pose proof (run_middleware_log mk s1) as Hlog. rewrite Hmk in Hlog. simpl in Hlog.
    rewrite Hlog, (run_middlewares_log _ _ _ Hpre). unfold entered.
    rewrite map_app. simpl. by rewrite <- app_assoc.
Qed.

Lemma loop_failure_stops_chain_witness :
  Loop.run_chain
    ([Sample.at_root (Sample.proceeds_loop None)]
     ++ Sample.at_api (Raise (ErrorValue "denied"))
        :: [Sample.at_api_status (Sample.proceeds_loop None)])
    (Sample.answer "done") Sample.start_loop
  = Failed (ErrorValue "denied")
      (final (Loop.run_middleware (Sample.at_api (Raise (ErrorValue "denied")))
                (final (Loop.run_middlewares [Sample.at_root (Sample.proceeds_loop None)]
                          Sample.start_loop))))
  /\ Loop.log
       (final (Loop.run_middleware (Sample.at_api (Raise (ErrorValue "denied")))
                 (final (Loop.run_middlewares [Sample.at_root (Sample.proceeds_loop None)]
                           Sample.start_loop))))
     = Loop.log Sample.start_loop
       ++ entered ([Sample.at_root (Sample.proceeds_loop None)]
                   ++ [Sample.at_api (Raise (ErrorValue "denied"))]).
Proof.
  apply (loop_failure_stops_chain
           [Sample.at_root (Sample.proceeds_loop None)]
           [Sample.at_api_status (Sample.proceeds_loop None)]
           (Sample.at_api (Raise (ErrorValue "denied"))) (Sample.answer "done")
           Sample.start_loop
           (final (Loop.run_middlewares [Sample.at_root (Sample.proceeds_loop None)]
                     Sample.start_loop))).
  - vm_compute. reflexivity.
  - vm_compute. reflexivity.
Defined.

(** X14. In the loop revision a middleware that returns nothing and never
    calls back is rejected with the error ["Middleware handler timeout: "]
    followed by its pathname, whatever it read or assigned before; one that
    returns a response, throws or never returns is not. *)
Theorem loop_silent_step_times_out
    (m : MiddlewareModule.t Loop.MiddlewareHandler) (s : Loop.State) :
  calls_no_next (MiddlewareModule.handler m) ->
  Loop.run_middleware m s
  = match loop_run_alone (MiddlewareModule.handler m)
            (Loop.add_log (EvMiddleware (MiddlewareModule.pathname m)) s) with
    | Done None s' =>
        Failed (ErrorValue (timeout_message (MiddlewareModule.pathname m))) s'
    | r => r
    end.
Proof.
  intros Hm. unfold Loop.run_middleware. rewrite exec_alone_flag by done.
  by destruct (loop_run_alone _ _) as [[r|] s'|e s'|s'].
Qed.

(** A middleware that only looks at the request. *)
Lemma loop_silent_step_times_out_witness :
  Loop.run_middleware (Sample.at_api Sample.looks_on) Sample.start_loop
  = match loop_run_alone
            (MiddlewareModule.handler (Sample.at_api Sample.looks_on))
            (Loop.add_log
               (EvMiddleware
                  (MiddlewareModule.pathname (Sample.at_api Sample.looks_on)))
               Sample.start_loop) with
    | Done None s' =>
        Failed (ErrorValue
                  (timeout_message
                     (MiddlewareModule.pathname
                        (Sample.at_api Sample.looks_on)))) s'
    | r => r
    end.
Proof.
  apply (loop_silent_step_times_out (Sample.at_api Sample.looks_on)
           Sample.start_loop).
  repeat constructor.
Defined.

Section RecursiveTimers.

Import Recursive.

Implicit Types (m : MiddlewareModule.t MiddlewareHandler) (s : State).

Lemma chain_leaves_timer pre mk post h s :
  Forall (fun m => forwards (MiddlewareModule.handler m)) pre ->
  calls_no_next (MiddlewareModule.handler mk) ->
  timers_fresh s ->
  armed (final (callRecursiveMiddlewares (pre ++ mk :: post) h s))
  = armed s ++ [((nextTimer s + length pre)%nat, MiddlewareModule.pathname mk)].
Proof.
  intros Hpre Hmk. revert s. induction Hpre as [|m pre Hm _ IH]; intros s Hfresh.
  - simpl app. rewrite chain_stops_timer by done. simpl. do 3 f_equal. lia.
  - pose proof (callRecursiveMiddlewares_cons m (pre ++ mk :: post) h s) as Hc.
    destruct (forwards_exec (MiddlewareModule.handler m)
                (fun c s' => settle (callRecursiveMiddlewares (pre ++ mk :: post) h
                                       (next_effect (nextTimer s) c s')))
                (add_log (EvMiddleware (MiddlewareModule.pathname m))
                   (setTimeout (MiddlewareModule.pathname m) s).2) Hm)
      as (c & s' & Hlog & Htimer & Harmed & Hexec).
    rewrite Hexec, forward_settle in Hc.
    assert (Ha : armed (next_effect (nextTimer s) c s') = armed s).
    { simpl. rewrite Harmed. simpl. by apply filter_fresh. }
    assert (Hn : nextTimer (next_effect (nextTimer s) c s') = S (nextTimer s)).
    { simpl. by rewrite Htimer. }
    rewrite <- app_comm_cons, Hc, IH.
    + rewrite Ha, Hn. simpl. do 3 f_equal. lia.
    + unfold timers_fresh. rewrite Ha, Hn.
      eapply Forall_impl; [exact Hfresh|]. simpl. intros; lia.
Qed.

End RecursiveTimers.

(** X15. In the recursive revision a timer is cleared by the continuation
    of its step and by nothing else: when the steps before step k return what
    their continuation gives and step k calls no continuation, whether it
    then answers, throws or returns nothing, the timers of the steps before
    are cleared and the timer of step k stays armed, so that the error naming
    step k is thrown from the timer afterwards. *)
Theorem recursive_timer_stays_armed
    (pre post : list (MiddlewareModule.t Recursive.MiddlewareHandler))
    (mk : MiddlewareModule.t Recursive.MiddlewareHandler) (h : RequestHandler)
    (s : Recursive.State) :
  Forall (fun m => Recursive.forwards (MiddlewareModule.handler m)) pre ->
  calls_no_next (MiddlewareModule.handler mk) ->
  timers_fresh s ->
  Recursive.armed (final (Recursive.callRecursiveMiddlewares (pre ++ mk :: post) h s))
  = Recursive.armed s
    ++ [((Recursive.nextTimer s + length pre)%nat, MiddlewareModule.pathname mk)]
  /\ Recursive.uncaught
       (final (Recursive.callRecursiveMiddlewares (pre ++ mk :: post) h s))
     = Recursive.uncaught s
       ++ [ErrorValue (timeout_message (MiddlewareModule.pathname mk))].
Proof.
  intros Hpre Hmk Hfresh.
  pose proof (chain_leaves_timer pre mk post h s Hpre Hmk Hfresh) as Ha.
  split; [done|]. unfold Recursive.uncaught.
  etrans; [apply (f_equal _ Ha)|]. by rewrite map_app.
Qed.

Lemma recursive_timer_stays_armed_witness :
  Recursive.armed
    (final (Recursive.callRecursiveMiddlewares
              ([Sample.at_root (Sample.proceeds None)]
               ++ Sample.at_api Sample.stops
                  :: [Sample.at_api_status (Sample.proceeds None)])
              (Sample.answer "done") Sample.start_recursive))
  = Recursive.armed Sample.start_recursive
    ++ [((Recursive.nextTimer Sample.start_recursive
          + length [Sample.at_root (Sample.proceeds None)])%nat,
         MiddlewareModule.pathname (Sample.at_api Sample.stops))]
  /\ Recursive.uncaught
       (final (Recursive.callRecursiveMiddlewares
                 ([Sample.at_root (Sample.proceeds None)]
                  ++ Sample.at_api Sample.stops
                     :: [Sample.at_api_status (Sample.proceeds None)])
                 (Sample.answer "done") Sample.start_recursive))
     = Recursive.uncaught Sample.start_recursive
       ++ [ErrorValue
             (timeout_message
                (MiddlewareModule.pathname (Sample.at_api Sample.stops)))].
Proof.
  apply (recursive_timer_stays_armed
           [Sample.at_root (Sample.proceeds None)]
           [Sample.at_api_status (Sample.proceeds None)]
           (Sample.at_api Sample.stops) (Sample.answer "done")
           Sample.start_recursive).
  - repeat constructor.
  - constructor.
  - constructor.
Defined.

(** ** The prefixes of a pathname *)

Section Prefixes.

Lemma prefix_pathnames_head pn :
  exists rest, prefix_pathnames pn = "/" :: rest.
Proof.
  unfold prefix_pathnames. rewrite map_index_seq.
  pose proof (split_nonempty "/" pn) as Hne.
  destruct (Js.split "/" pn) as [|x l]; [done|]. simpl. eauto.
Qed.

Lemma prefix_pathnames_length pn :
  length (prefix_pathnames pn) = length (Js.split "/" pn).
Proof.
  unfold prefix_pathnames. rewrite map_index_seq. by rewrite length_map, length_seq.
Qed.

End Prefixes.

(** X16. The prefixes [getMiddlewares] computes are as many as the pieces
    of the pathname between slashes, and the first is the root; for a
    pathname written without a slash at the start the others are the
    prefixes of two pieces and more, so that the prefix made of the first
    piece alone is not among them and a pathname of one piece has the root
    only. *)
Theorem prefix_pathnames_shape (segs : list string) :
  segs <> [] -> Forall (free_of "/") segs ->
  (exists rest, prefix_pathnames (Js.join "/" segs) = "/" :: rest)
  /\ length (prefix_pathnames (Js.join "/" segs)) = length segs
  /\ prefix_pathnames (Js.join "/" segs)
     = "/" :: map (fun k => Js.join "/" (take k segs)) (seq 2 (length segs - 1))
  /\ (forall x, segs = [x] -> prefix_pathnames (Js.join "/" segs) = ["/"]).
Proof.
  intros Hne Hfree. split; [apply prefix_pathnames_head|]. split; [|split].
  - by rewrite prefix_pathnames_length, (split_join "/").
  - by apply prefix_pathnames_unrooted.
  - intros x ->. by rewrite prefix_pathnames_unrooted.
Qed.

Lemma prefix_pathnames_shape_witness :
  (exists rest, prefix_pathnames (Js.join "/" ["api"; "users"; "[id]"]) = "/" :: rest)
  /\ length (prefix_pathnames (Js.join "/" ["api"; "users"; "[id]"]))
     = length ["api"; "users"; "[id]"]
  /\ prefix_pathnames (Js.join "/" ["api"; "users"; "[id]"])
     = "/" :: map (fun k => Js.join "/" (take k ["api"; "users"; "[id]"]))
                (seq 2 (length ["api"; "users"; "[id]"] - 1))
  /\ (forall x, ["api"; "users"; "[id]"] = [x] ->
        prefix_pathnames (Js.join "/" ["api"; "users"; "[id]"]) = ["/"]).
Proof.
  apply (prefix_pathnames_shape ["api"; "users"; "[id]"]).
  - discriminate.
  - repeat constructor.
Defined.

Example prefix_pathnames_api_users :
  prefix_pathnames "api/users/[id]" = ["/"; "api/users"; "api/users/[id]"].
Proof. reflexivity. Qed.

(** ** The middleware of the loop revision *)

Section LoopApplicable.

Lemma some_includes_elem_of p l :
  Js.some (fun pn => Js.includes p pn) l = true <->
  exists pn, pn ∈ l /\ Js.includes p pn = true.
Proof.
  unfold Js.some. rewrite existsb_exists. split.
  - intros (x & Hx & E). exists x. by rewrite list_elem_of_In.
  - intros (x & Hx & E). exists x. by rewrite <- list_elem_of_In.
Qed.

End LoopApplicable.

(** X17. In the loop revision a middleware is in the chain of a pathname
    exactly when its file was discovered, holds one of the prefixes of the
    pathname somewhere in its path, and exports [handler]; the root prefix
    being a single slash, every discovered file with a slash in its path and
    a handler is in the chain of every pathname; and the chain keeps the
    order of discovery. *)
Theorem loop_middlewares_by_substring (env : Env Loop.MiddlewareHandler) (pn : string) :
  (forall m, m ∈ Loop.getMiddlewares env pn <->
     exists p, p ∈ middlewarePaths env
       /\ (exists prefix, prefix ∈ prefix_pathnames pn /\ Js.includes p prefix = true)
       /\ Loop.load_middleware env p = Some m)
  /\ (forall p m, p ∈ middlewarePaths env -> Js.includes p "/" = true ->
        Loop.load_middleware env p = Some m -> m ∈ Loop.getMiddlewares env pn)
  /\ (exists kept, kept `sublist_of` middlewarePaths env
       /\ Forall2 (fun p m => Loop.load_middleware env p = Some m)
            kept (Loop.getMiddlewares env pn)).
Proof.
  assert (Hiff : forall m, m ∈ Loop.getMiddlewares env pn <->
     exists p, p ∈ middlewarePaths env
       /\ (exists prefix, prefix ∈ prefix_pathnames pn /\ Js.includes p prefix = true)
       /\ Loop.load_middleware env p = Some m).
  { intros m. unfold Loop.getMiddlewares. rewrite list_elem_of_omap. split.
    - intros (p & Hp & Hload). exists p.
      apply list_elem_of_filter in Hp as [Hsome Hp].
      apply some_includes_elem_of in Hsome. eauto.
    - intros (p & Hp & Hprefix & Hload). exists p. split; [|done].
      apply list_elem_of_filter. split; [|done]. by apply some_includes_elem_of. }
  split; [done|]. split.
  - intros p m Hp Hslash Hload. apply Hiff. exists p. split; [done|]. split; [|done].
    destruct (prefix_pathnames_head pn) as (rest & ->). exists "/". split; [by left|done].
  - unfold Loop.getMiddlewares.
    destruct (omap_kept (Loop.load_middleware env)
                (filter (fun p => Js.some (fun pn0 => Js.includes p pn0)
                                    (prefix_pathnames pn) = true)
                   (middlewarePaths env))) as (kept & Hsub & Hall).
    exists kept. split; [|done]. etrans; [done|]. apply sublist_filter.
Qed.

(** The middleware of [other/] is in the chain of [api/status]. *)
Lemma loop_middlewares_by_substring_witness :
  Sample.at_other (Sample.proceeds_loop None)
  ∈ Loop.getMiddlewares
      (Sample.chain_env (Sample.answer "done") [Sample.other_middleware]
         (Sample.all_alike (Sample.proceeds_loop None)))
      "api/status".
Proof.
  destruct (loop_middlewares_by_substring
              (Sample.chain_env (Sample.answer "done") [Sample.other_middleware]
                 (Sample.all_alike (Sample.proceeds_loop None)))
              "api/status") as (_ & H & _).
  apply (H Sample.other_middleware).
  - left.
  - reflexivity.
  - reflexivity.
Defined.

(** ** What a request enters, and in which order *)

Section LoopTrace.

Import Loop.

Lemma run_middlewares_trace (ms : list (MiddlewareModule.t MiddlewareHandler)) s :
  exists k,
    (k <= length ms)%nat
    /\ log (final (run_middlewares ms s)) = log s ++ entered (take k ms)
    /\ (forall s1, run_middlewares ms s = Done None s1 -> k = length ms).
Proof.
  revert s. induction ms as [|m ms IH]; intros s; simpl.
  - exists 0%nat. split; [done|]. split; [by rewrite app_nil_r|done].
  - pose proof (run_middleware_log m s) as Hlog.
    destruct (run_middleware m s) as [[r|] s'|e s'|s']; simpl in Hlog.
    + exists 1%nat. split; [lia|]. split; [done|done].
    + destruct (IH s') as (k & Hk & Hlogk & Hall).
      exists (S k). split; [lia|]. split.
      * rewrite Hlogk, Hlog. simpl. by rewrite <- app_assoc.
      * intros s1 Hs1. f_equal. by apply (Hall s1).
    + exists 1%nat. split; [lia|]. split; [done|done].
    + exists 1%nat. split; [lia|]. split; [done|done].
Qed.

End LoopTrace.

(** X18. In the loop revision, whatever the middleware and the handler do,
    a request enters the middleware of its chain one after the other in the
    order of the chain, each at most once, up to some step; and the handler is
    entered at most once, after all of them, and as the last thing. *)
Theorem loop_trace
    (ms : list (MiddlewareModule.t Loop.MiddlewareHandler)) (h : RequestHandler)
    (s : Loop.State) :
  exists k,
    (k <= length ms)%nat
    /\ (Loop.log (final (Loop.run_chain ms h s)) = Loop.log s ++ entered (take k ms)
        \/ (k = length ms
            /\ Loop.log (final (Loop.run_chain ms h s))
               = Loop.log s ++ entered ms ++ [EvHandler])).
Proof.
  destruct (run_middlewares_trace ms s) as (k & Hk & Hlog & Hall).
  exists k. split; [done|]. unfold Loop.run_chain.
  destruct (Loop.run_middlewares ms s) as [[r|] s'|e s'|s'] eqn:E; simpl in *;
    try (by left).
  right. rewrite (Hall s' eq_refl) in *. split; [done|].
  rewrite call_handler_log, Hlog, firstn_all. by rewrite <- app_assoc.
Qed.

Section RecursiveTrace.

Import Recursive.

Lemma settle_final (r : Result State (option IntResponse)) : (settle r).2 = final r.
Proof. by destruct r. Qed.

Lemma chain_trace_of_run (ms : list (MiddlewareModule.t MiddlewareHandler)) h s :
  exists t,
    log (final (callRecursiveMiddlewares ms h s)) = log s ++ t
    /\ chain_trace (names ms) t.
Proof.
  revert s. induction ms as [|m ms IH]; intros s.
  - exists [EvHandler]. split; [apply recursive_call_handler_log|done].
  - rewrite callRecursiveMiddlewares_cons.
    apply (exec_preserves ctx set_ctx _
             (fun s' => exists t, log s' = log s ++ t
                                  /\ chain_trace (names (m :: ms)) t)).
    + intros c s' (t & Ht & Htrace). by exists t.
    + intros c s' (t & Ht & ts & Hts & ->). simpl. rewrite settle_final.
      destruct (IH (next_effect (nextTimer s) c s')) as (u & Hu & Htu).
      exists (EvMiddleware (MiddlewareModule.pathname m) :: concat (ts ++ [u])).
      split.
      * rewrite Hu. simpl. rewrite Ht, concat_app. simpl.
        rewrite app_nil_r, <- app_assoc. done.
      * exists (ts ++ [u]). split; [|done]. apply Forall_app. split; [done|].
        by constructor.
    + exists [EvMiddleware (MiddlewareModule.pathname m)]. split; [done|].
      exists []. split; [constructor|done].
Qed.

Lemma concat_split {A} (ts : list (list A)) a x b :
  concat ts = a ++ x :: b ->
  exists ts1 u ts2 u1 u2,
    ts = ts1 ++ u :: ts2 /\ u = u1 ++ x :: u2 /\ a = concat ts1 ++ u1.
Proof.
  revert a. induction ts as [|u ts IH]; intros a; simpl.
  - by destruct a.
  - intros E. apply app_eq_inv in E as [(k & Hu & Hk)|(k & Ha & Hk)].
    + destruct k as [|y k]; simpl in Hk.
      * destruct (IH [] (eq_sym Hk)) as (ts1 & v & ts2 & v1 & v2 & Hts & Hv & Hnil).
        exists (u :: ts1), v, ts2, v1, v2. split; [by rewrite Hts|]. split; [done|].
        simpl. rewrite <- app_assoc, <- Hnil, Hu. by rewrite !app_nil_r.
      * injection Hk as <- Hk. exists [], u, ts, a, k. by repeat split.
    + destruct (IH k Hk) as (ts1 & v & ts2 & v1 & v2 & Hts & Hv & Hk').
      exists (u :: ts1), v, ts2, v1, v2. split; [by rewrite Hts|]. split; [done|].
      simpl. by rewrite Ha, Hk', app_assoc.
Qed.

Lemma chain_trace_handler_after nms t t1 t2 p :
  chain_trace nms t -> t = t1 ++ EvHandler :: t2 -> p ∈ nms -> EvMiddleware p ∈ t1.
Proof.
  revert t t1 t2. induction nms as [|q rest IH]; intros t t1 t2; simpl.
  - intros _ _ Hp. by apply elem_of_nil in Hp.
  - intros (ts & Hts & ->) E Hp.
    destruct t1 as [|e t1]; simpl in E; [done|]. injection E as <- E.
    apply elem_of_cons in Hp as [->|Hp]; [by left|]. right.
    destruct (concat_split ts t1 EvHandler t2 E)
      as (ts1 & u & ts2 & u1 & u2 & -> & -> & ->).
    apply elem_of_app. right.
    apply Forall_app in Hts as [_ Hu]. apply Forall_cons in Hu as [Hu _].
    by apply (IH _ u1 u2 Hu).
Qed.

End RecursiveTrace.

(** X19. In the recursive revision, whatever the middleware and the
    handler do (a middleware may call its continuation more than once, or
    not at all), the handler is never entered before every middleware of the
    chain has been entered: in the trace of the chain each entry of the
    handler comes after an entry of each middleware. *)
Theorem recursive_handler_after_all
    (ms : list (MiddlewareModule.t Recursive.MiddlewareHandler)) (h : RequestHandler)
    (s : Recursive.State) (t1 t2 : list Event) :
  Recursive.log (final (Recursive.callRecursiveMiddlewares ms h s))
  = Recursive.log s ++ t1 ++ EvHandler :: t2 ->
  forall m, m ∈ ms -> EvMiddleware (MiddlewareModule.pathname m) ∈ t1.
Proof.
  intros Hlog m Hm.
  destruct (chain_trace_of_run ms h s) as (t & Ht & Htrace).
  rewrite Ht in Hlog. apply app_inv_head in Hlog.
  apply (chain_trace_handler_after (names ms) t t1 t2); [done|done|].
  unfold names. apply elem_of_map. eauto.
Qed.

(** The root middleware calls its continuation twice: the handler is
    entered twice, each time after both middleware. *)
Lemma recursive_handler_after_all_witness :
  Recursive.log
    (final (Recursive.callRecursiveMiddlewares
              [Sample.at_root Sample.calls_twice; Sample.at_api (Sample.proceeds None)]
              (Sample.answer "done") Sample.start_recursive))
  = Recursive.log Sample.start_recursive
    ++ [EvMiddleware "/middleware.mjs"; EvMiddleware "/api/middleware.mjs"]
    ++ EvHandler :: [EvMiddleware "/api/middleware.mjs"; EvHandler]
  /\ EvMiddleware (MiddlewareModule.pathname (Sample.at_api (Sample.proceeds None)))
     ∈ [EvMiddleware "/middleware.mjs"; EvMiddleware "/api/middleware.mjs"].
Proof.
  split; [vm_compute; reflexivity|].
  apply (recursive_handler_after_all
           [Sample.at_root Sample.calls_twice; Sample.at_api (Sample.proceeds None)]
           (Sample.answer "done") Sample.start_recursive
           [EvMiddleware "/middleware.mjs"; EvMiddleware "/api/middleware.mjs"]
           [EvMiddleware "/api/middleware.mjs"; EvHandler]).
  - vm_compute. reflexivity.
  - right. left.
Defined.

(** ** The trace of a request *)

Lemma final_answer {St} (r : Result St (option IntResponse)) :
  final (catch_boundary (respond r)) = final r.
Proof. destruct r as [[x|] s|[m|o|p] s|s]; done. Qed.

(** X20. A request that is not answered from the static folder is routed
    once, before anything else; when no route with a handler is found
    nothing else is entered, and otherwise what is entered after routing is
    the chain of the route found: in the recursive revision each middleware
    followed by what its continuations enter, in the loop revision the
    middleware in order up to some step, or all of them and then the
    handler. Setting the parameters, the 204 response and the [catch] enter
    nothing. *)
Theorem tunnel_routes_first
    (envR : Env Recursive.MiddlewareHandler) (envL : Env Loop.MiddlewareHandler)
    (data : RequestData) :
  (static_file envR (dataPath data) = None ->
   exists t,
     Recursive.log (final (Recursive.tunnel envR data)) = EvRouting (dataPath data) :: t
     /\ match Recursive.find_route envR (dataMethod data)
                (getIdentities (identitiesModules envR) (dataPath data)) with
        | Some (h, i) => chain_trace (names (Recursive.getMiddlewares envR (pathname i))) t
        | None => t = []
        end)
  /\ (static_file envL (dataPath data) = None ->
      exists t,
        Loop.log (final (Loop.tunnel envL data)) = EvRouting (dataPath data) :: t
        /\ match Loop.find_route envL (dataMethod data)
                   (getIdentities (identitiesModules envL) (dataPath data)) with
           | Some (h, i) => loop_chain_trace (Loop.getMiddlewares envL (pathname i)) t
           | None => t = []
           end).
Proof.
  split; intros Hstatic.
  - unfold Recursive.tunnel. simpl. rewrite Hstatic.
    unfold Recursive.route_and_run. simpl.
    destruct (getIdentities (identitiesModules envR) (dataPath data)) as [|j ids].
    { by exists []. }
    destruct (Recursive.find_route envR (dataMethod data) (j :: ids)) as [[h i]|].
    2:{ by exists []. }
    rewrite final_answer.
    destruct (chain_trace_of_run (Recursive.getMiddlewares envR (pathname i)) h
                (Recursive.set_params (extract_params i (dataPath data))
                   (Recursive.add_log (EvRouting (dataPath data))
                      (Recursive.initial (init_context data))))) as (t & Ht & Htrace).
    exists t. split; [|done]. by rewrite Ht.
  - unfold Loop.tunnel. simpl. rewrite Hstatic.
    unfold Loop.route_and_run. simpl.
    destruct (getIdentities (identitiesModules envL) (dataPath data)) as [|j ids].
    { by exists []. }
    destruct (Loop.find_route envL (dataMethod data) (j :: ids)) as [[h i]|].
    2:{ by exists []. }
    rewrite final_answer.
    set (s := Loop.set_params _ _).
    set (ms := Loop.getMiddlewares envL (pathname i)).
    destruct (run_middlewares_trace ms s) as (k & Hk & Hlog & Hall).
    unfold Loop.run_chain.
    destruct (Loop.run_middlewares ms s) as [[r|] s'|e s'|s'] eqn:E; simpl in *;
      try (exists (entered (take k ms)); split; [by rewrite Hlog|left; by exists k]).
    exists (entered ms ++ [EvHandler]). split; [|by right].
    rewrite (Hall s' eq_refl), firstn_all in Hlog.
    rewrite call_handler_log, Hlog. done.
Qed.

(** A [GET] of [api/status] with middleware at the root and at [api/status]. *)
Lemma tunnel_routes_first_witness :
  (exists t,
     Recursive.log
       (final (Recursive.tunnel
                 (Sample.chain_env (Sample.answer "done")
                    [Sample.root_middleware; Sample.nested_middleware]
                    (Sample.all_alike (Sample.proceeds None)))
                 (Sample.request "GET" "api/status")))
     = EvRouting "api/status" :: t
     /\ chain_trace ["/middleware.mjs"; "/api/status/middleware.mjs"] t)
  /\ (exists t,
        Loop.log
          (final (Loop.tunnel
                    (Sample.chain_env (Sample.answer "done")
                       [Sample.root_middleware; Sample.nested_middleware]
                       (Sample.all_alike (Sample.proceeds_loop None)))
                    (Sample.request "GET" "api/status")))
        = EvRouting "api/status" :: t
        /\ loop_chain_trace
             [Sample.at_root (Sample.proceeds_loop None);
              Sample.at_api_status (Sample.proceeds_loop None)] t).
Proof.
  destruct (tunnel_routes_first
              (Sample.chain_env (Sample.answer "done")
                 [Sample.root_middleware; Sample.nested_middleware]
                 (Sample.all_alike (Sample.proceeds None)))
              (Sample.chain_env (Sample.answer "done")
                 [Sample.root_middleware; Sample.nested_middleware]
                 (Sample.all_alike (Sample.proceeds_loop None)))
              (Sample.request "GET" "api/status")) as [HR HL].
  split.
  - destruct (HR eq_refl) as (t & Ht & Htrace). exists t. split; [exact Ht|exact Htrace].
  - destruct (HL eq_refl) as (t & Ht & Htrace). exists t. split; [exact Ht|exact Htrace].
Defined.

(** ** Static files *)

Section StaticBlock.

Context {H : Type}.
Variable env : Env H.

Lemma static_file_served path folder file mime :
  Js.truthy (staticFolder env) = Some folder ->
  Js.truthy (globFind env folder path) = Some file ->
  Js.truthy (lookup env file) = Some mime ->
  static_file env path
  = Some {| status := Some 200; body := FileStream file;
            resHeaders := [("Content-Type", mime)] |}.
Proof. intros Hfolder Hfile Hmime. unfold static_file. by rewrite Hfolder, Hfile, Hmime. Qed.

Lemma static_file_without_type path folder file :
  Js.truthy (staticFolder env) = Some folder ->
  Js.truthy (globFind env folder path) = Some file ->
  Js.truthy (lookup env file) = None ->
  static_file env path = None.
Proof. intros Hfolder Hfile Hmime. unfold static_file. by rewrite Hfolder, Hfile, Hmime. Qed.

Lemma static_file_without_file path :
  Js.truthy (staticFolder env) = None
  \/ (exists folder, Js.truthy (staticFolder env) = Some folder
                     /\ Js.truthy (globFind env folder path) = None) ->
  static_file env path = None.
Proof.
  unfold static_file. intros [Hfolder|(folder & Hfolder & Hfile)].
  - by rewrite Hfolder.
  - by rewrite Hfolder, Hfile.
Qed.

End StaticBlock.

Lemma recursive_routing_first (env : Env Recursive.MiddlewareHandler) (data : RequestData) :
  static_file env (dataPath data) = None ->
  Recursive.tunnel env data
  = catch_boundary (Recursive.route_and_run env data (Recursive.initial (init_context data)))
  /\ exists t,
       Recursive.log (final (Recursive.tunnel env data)) = EvRouting (dataPath data) :: t.
Proof.
  intros Hstatic.
  assert (Htunnel : Recursive.tunnel env data
                    = catch_boundary
                        (Recursive.route_and_run env data
                           (Recursive.initial (init_context data)))).
  { unfold Recursive.tunnel. simpl. by rewrite Hstatic. }
  split; [done|]. rewrite Htunnel.
  unfold Recursive.route_and_run. simpl.
  destruct (getIdentities (identitiesModules env) (dataPath data)) as [|j ids].
  { by exists []. }
  destruct (Recursive.find_route env (dataMethod data) (j :: ids)) as [[h i]|].
  2:{ by exists []. }
  rewrite final_answer.
  destruct (chain_trace_of_run (Recursive.getMiddlewares env (pathname i)) h
              (Recursive.set_params (extract_params i (dataPath data))
                 (Recursive.add_log (EvRouting (dataPath data))
                    (Recursive.initial (init_context data))))) as (t & Ht & _).
  exists t. by rewrite Ht.
Qed.

Lemma loop_routing_first (env : Env Loop.MiddlewareHandler) (data : RequestData) :
  static_file env (dataPath data) = None ->
  Loop.tunnel env data
  = catch_boundary (Loop.route_and_run env data (Loop.initial (init_context data)))
  /\ exists t,
       Loop.log (final (Loop.tunnel env data)) = EvRouting (dataPath data) :: t.
Proof.
  intros Hstatic.
  assert (Htunnel : Loop.tunnel env data
                    = catch_boundary
                        (Loop.route_and_run env data (Loop.initial (init_context data)))).
  { unfold Loop.tunnel. simpl. by rewrite Hstatic. }
  split; [done|]. rewrite Htunnel.
  unfold Loop.route_and_run. simpl.
  destruct (getIdentities (identitiesModules env) (dataPath data)) as [|j ids].
  { by exists []. }
  destruct (Loop.find_route env (dataMethod data) (j :: ids)) as [[h i]|].
  2:{ by exists []. }
  rewrite final_answer.
  set (s := Loop.set_params _ _).
  set (ms := Loop.getMiddlewares env (pathname i)).
  destruct (run_middlewares_trace ms s) as (k & Hk & Hlog & Hall).
  unfold Loop.run_chain.
  destruct (Loop.run_middlewares ms s) as [[r|] s'|e s'|s'] eqn:E; simpl in *;
    try (exists (entered (take k ms)); by rewrite Hlog).
  exists (entered ms ++ [EvHandler]).
  rewrite (Hall s' eq_refl), firstn_all in Hlog.
  by rewrite call_handler_log, Hlog.
Qed.

(** C7 (as amended). A request whose path has a file in the static folder
    and whose file has a known content type is answered with that file, in
    the initial state: nothing of routing, of the middleware or of a handler
    has been entered, whatever routes exist. A file without a known content
    type is not served: the request goes into the [try] block, and route
    matching is the first thing entered; so does a request when there is no
    static folder or no file for its path. The folder, the file and the type
    are tested as JavaScript tests a string, the empty one counting as
    missing. In both revisions. *)
Theorem static_asset_first
    (envR : Env Recursive.MiddlewareHandler) (envL : Env Loop.MiddlewareHandler)
    (data : RequestData) :
  ((forall folder file mime,
      Js.truthy (staticFolder envR) = Some folder ->
      Js.truthy (globFind envR folder (dataPath data)) = Some file ->
      Js.truthy (lookup envR file) = Some mime ->
      Recursive.tunnel envR data
      = Done {| status := Some 200; body := FileStream file;
                resHeaders := [("Content-Type", mime)] |}
          (Recursive.initial (init_context data))
      /\ Recursive.log (Recursive.initial (init_context data)) = [])
   /\ (forall folder file,
      Js.truthy (staticFolder envR) = Some folder ->
      Js.truthy (globFind envR folder (dataPath data)) = Some file ->
      Js.truthy (lookup envR file) = None ->
      Recursive.tunnel envR data
      = catch_boundary
          (Recursive.route_and_run envR data (Recursive.initial (init_context data)))
      /\ exists t,
           Recursive.log (final (Recursive.tunnel envR data))
           = EvRouting (dataPath data) :: t)
   /\ (Js.truthy (staticFolder envR) = None
       \/ (exists folder,
             Js.truthy (staticFolder envR) = Some folder
             /\ Js.truthy (globFind envR folder (dataPath data)) = None) ->
      Recursive.tunnel envR data
      = catch_boundary
          (Recursive.route_and_run envR data (Recursive.initial (init_context data)))
      /\ exists t,
           Recursive.log (final (Recursive.tunnel envR data))
           = EvRouting (dataPath data) :: t))
  /\ ((forall folder file mime,
      Js.truthy (staticFolder envL) = Some folder ->
      Js.truthy (globFind envL folder (dataPath data)) = Some file ->
      Js.truthy (lookup envL file) = Some mime ->
      Loop.tunnel envL data
      = Done {| status := Some 200; body := FileStream file;
                resHeaders := [("Content-Type", mime)] |}
          (Loop.initial (init_context data))
      /\ Loop.log (Loop.initial (init_context data)) = [])
   /\ (forall folder file,
      Js.truthy (staticFolder envL) = Some folder ->
      Js.truthy (globFind envL folder (dataPath data)) = Some file ->
      Js.truthy (lookup envL file) = None ->
      Loop.tunnel envL data
      = catch_boundary (Loop.route_and_run envL data (Loop.initial (init_context data)))
      /\ exists t,
           Loop.log (final (Loop.tunnel envL data)) = EvRouting (dataPath data) :: t)
   /\ (Js.truthy (staticFolder envL) = None
       \/ (exists folder,
             Js.truthy (staticFolder envL) = Some folder
             /\ Js.truthy (globFind envL folder (dataPath data)) = None) ->
      Loop.tunnel envL data
      = catch_boundary (Loop.route_and_run envL data (Loop.initial (init_context data)))
      /\ exists t,
           Loop.log (final (Loop.tunnel envL data)) = EvRouting (dataPath data) :: t)).
Proof.
  split; (split; [|split]).
  - intros folder file mime Hfolder Hfile Hmime. split; [|done].
    unfold Recursive.tunnel. simpl.
    by rewrite (static_file_served envR _ folder file mime).
  - intros folder file Hfolder Hfile Hmime. apply recursive_routing_first.
    by apply (static_file_without_type envR _ folder file).
  - intros Hnone. apply recursive_routing_first. by apply static_file_without_file.
  - intros folder file mime Hfolder Hfile Hmime. split; [|done].
    unfold Loop.tunnel. simpl.
    by rewrite (static_file_served envL _ folder file mime).
  - intros folder file Hfolder Hfile Hmime. apply loop_routing_first.
    by apply (static_file_without_type envL _ folder file).
  - intros Hnone. apply loop_routing_first. by apply static_file_without_file.
Qed.

(** [logo.png] is both a static file and a route: the file is served. The
    file [status] has no known content type: the request is routed. *)
Lemma static_asset_first_witness :
  (Recursive.tunnel Sample.static_env (Sample.request "GET" "logo.png")
   = Done {| status := Some 200; body := FileStream "/app/static/logo.png";
             resHeaders := [("Content-Type", "image/png")] |}
       (Recursive.initial (init_context (Sample.request "GET" "logo.png")))
   /\ Loop.tunnel Sample.static_env (Sample.request "GET" "logo.png")
      = Done {| status := Some 200; body := FileStream "/app/static/logo.png";
                resHeaders := [("Content-Type", "image/png")] |}
          (Loop.initial (init_context (Sample.request "GET" "logo.png"))))
  /\ ((exists t,
         Recursive.log
           (final (Recursive.tunnel Sample.static_env (Sample.request "GET" "status")))
         = EvRouting "status" :: t)
      /\ (exists t,
            Loop.log (final (Loop.tunnel Sample.static_env (Sample.request "GET" "status")))
            = EvRouting "status" :: t)).
Proof.
  destruct (static_asset_first Sample.static_env Sample.static_env
              (Sample.request "GET" "logo.png")) as [[HR _] [HL _]].
  destruct (static_asset_first Sample.static_env Sample.static_env
              (Sample.request "GET" "status")) as [(_ & HR' & _) (_ & HL' & _)].
  split; split.
  - apply (HR "/app/static" "/app/static/logo.png" "image/png"); reflexivity.
  - apply (HL "/app/static" "/app/static/logo.png" "image/png"); reflexivity.
  - apply (HR' "/app/static" "/app/static/status"); reflexivity.
  - apply (HL' "/app/static" "/app/static/status"); reflexivity.
Defined.

(** C7 (as stated) fails for a static file without a known content type:
    the file [status] exists in the static folder, [lookup] knows no type
    for it, and the request goes through routing to the handler of the route
    [status]. *)
Lemma static_asset_without_type :
  globFind (@Sample.static_env Recursive.MiddlewareHandler) "/app/static" "status"
  = Some "/app/static/status"
  /\ (exists s,
        Recursive.tunnel Sample.static_env (Sample.request "GET" "status")
        = Done (Sample.text 200 "status") s
        /\ Recursive.log s = [EvRouting "status"; EvHandler])
  /\ (exists s,
        Loop.tunnel Sample.static_env (Sample.request "GET" "status")
        = Done (Sample.text 200 "status") s
        /\ Loop.log s = [EvRouting "status"; EvHandler]).
Proof.
  split; [reflexivity|].
  split; eexists; (split; [vm_compute; reflexivity|reflexivity]).
Qed.

(** An empty file path is no file: with a static folder in which [globFind]
    gives the empty string, nothing is served from it. *)
Example static_file_empty_path :
  static_file
    {| staticFolder := Some "/app/static";
       globFind := fun _ _ => Some "";
       lookup := fun _ => Some "text/plain";
       identitiesModules := [];
       routeModule := fun _ _ => @None RequestHandler;
       basePath := "";
       join := Sample.slash_join;
       middlewarePaths := [];
       middlewareModule := fun _ _ => @None Loop.MiddlewareHandler;
       NOT_FOUND := None;
       METHOD_NOT_ALLOWED := None |} "index.html"
  = None.
Proof. reflexivity. Qed.

(** ** The continuation *)

Lemma merge_no_data (object : option CustomRequestData) :
  Lodash.merge object None = Some (default [] object).
Proof. done. Qed.

Lemma passes_no_data_assigns_nothing {B} (p : Prog (option CustomRequestData) B) :
  passes_no_data p -> assigns_nothing p.
Proof. induction 1; by constructor. Qed.

(** What holds of the state when the handler assigns nothing and gives its
    continuation no data. *)
Lemma exec_passes_no_data {B St} (get_ctx : St -> IntRequest)
    (set_ctx : IntRequest -> St -> St)
    (next : option CustomRequestData -> St -> B * St) (P : St -> Prop) p s :
  passes_no_data p ->
  (forall s, P s -> P (next None s).2) ->
  P s -> P (final (exec get_ctx set_ctx next p s)).
Proof.
  intros Hp Hnext. revert s.
  induction Hp as [r|e| |k _ IH|k _ IH]; intros s Hs; simpl; auto.
  specialize (Hnext s Hs). destruct (next None s) as [b s']. by apply IH.
Qed.

Section LoopFrame.

Import Loop.

Implicit Types (m : MiddlewareModule.t MiddlewareHandler) (s : State).

Lemma loop_call_handler_frame h s :
  assigns_nothing h ->
  same_request (ctx s) (ctx (final (call_handler h s)))
  /\ custom (ctx (final (call_handler h s))) = custom (ctx s).
Proof.
  intros Hh. unfold call_handler.
  apply (exec_assigns_nothing ctx set_ctx no_next
           (fun s' => same_request (ctx s) (ctx s') /\ custom (ctx s') = custom (ctx s)));
    [done| |split; [apply same_request_refl|done]].
  intros [].
Qed.

Lemma run_middlewares_frame ms s :
  Forall (fun m => assigns_nothing (MiddlewareModule.handler m)) ms ->
  same_request (ctx s) (ctx (final (run_middlewares ms s))).
Proof.
  intros Hms. revert s. induction Hms as [|m ms Hm _ IH]; intros s; simpl.
  - apply same_request_refl.
  - pose proof (run_middleware_frame m s Hm) as Hstep.
    destruct (run_middleware m s) as [[r|] s'|e s'|s']; simpl in Hstep; try done.
    eapply same_request_trans; [exact Hstep|apply IH].
Qed.

Lemma run_chain_frame ms h s :
  Forall (fun m => assigns_nothing (MiddlewareModule.handler m)) ms ->
  assigns_nothing h ->
  same_request (ctx s) (ctx (final (run_chain ms h s))).
Proof.
  intros Hms Hh. pose proof (run_middlewares_frame ms s Hms) as Hsteps.
  unfold run_chain.
  destruct (run_middlewares ms s) as [[r|] s'|e s'|s']; simpl in Hsteps; try done.
  eapply same_request_trans; [exact Hsteps|]. by apply loop_call_handler_frame.
Qed.

Lemma run_middleware_no_data m s o :
  passes_no_data (MiddlewareModule.handler m) ->
  custom (ctx s) = Some o ->
  custom (ctx (final (run_middleware m s))) = Some o.
Proof.
  intros Hm Ho. unfold run_middleware.
  pose proof (exec_passes_no_data (fun st : State * bool => ctx st.1)
                (fun c st => (set_ctx c st.1, st.2)) next_callback
                (fun st => custom (ctx st.1) = Some o)
                (MiddlewareModule.handler m)
                (add_log (EvMiddleware (MiddlewareModule.pathname m)) s, false) Hm) as H.
  destruct (exec _ _ _ _ _) as [res [s' resolved]|e [s' resolved]|[s' resolved]];
    simpl in H; [destruct (bool_decide (is_Some res) || resolved)|..]; simpl;
    apply H; try done;
    intros st Hst; simpl; by rewrite Hst.
Qed.

Lemma run_middlewares_no_data ms s o :
  Forall (fun m => passes_no_data (MiddlewareModule.handler m)) ms ->
  custom (ctx s) = Some o ->
  custom (ctx (final (run_middlewares ms s))) = Some o.
Proof.
  intros Hms. revert s. induction Hms as [|m ms Hm _ IH]; intros s Ho; simpl.
  - done.
  - pose proof (run_middleware_no_data m s o Hm Ho) as Hstep.
    destruct (run_middleware m s) as [[r|] s'|e s'|s']; simpl in Hstep; try done.
    by apply IH.
Qed.

Lemma run_chain_no_data ms h s o :
  Forall (fun m => passes_no_data (MiddlewareModule.handler m)) ms ->
  assigns_nothing h ->
  custom (ctx s) = Some o ->
  custom (ctx (final (run_chain ms h s))) = Some o.
Proof.
  intros Hms Hh Ho. pose proof (run_middlewares_no_data ms s o Hms Ho) as Hsteps.
  unfold run_chain.
  destruct (run_middlewares ms s) as [[r|] s'|e s'|s']; simpl in Hsteps; try done.
  destruct (loop_call_handler_frame h s' Hh) as [_ Hc]. by rewrite Hc.
Qed.

End LoopFrame.

Section RecursiveFrame.

Import Recursive.

Implicit Types (m : MiddlewareModule.t MiddlewareHandler) (s : State).

Lemma call_handler_custom h s :
  assigns_nothing h -> custom (ctx (final (call_handler h s))) = custom (ctx s).
Proof.
  intros Hh. unfold call_handler.
  apply (exec_assigns_nothing ctx set_ctx no_next
           (fun s' => custom (ctx s') = custom (ctx s))); [done| |done].
  intros [].
Qed.

Lemma chain_no_data ms h s o :
  Forall (fun m => passes_no_data (MiddlewareModule.handler m)) ms ->
  assigns_nothing h ->
  custom (ctx s) = Some o ->
  custom (ctx (final (callRecursiveMiddlewares ms h s))) = Some o.
Proof.
  intros Hms Hh. revert s. induction Hms as [|m ms Hm _ IH]; intros s Ho.
  - simpl. by rewrite call_handler_custom.
  - rewrite callRecursiveMiddlewares_cons.
    apply (exec_passes_no_data ctx set_ctx _ (fun s' => custom (ctx s') = Some o));
      [done| |done].
    intros s' Hs'. simpl. rewrite settle_final. apply IH. simpl. by rewrite Hs'.
Qed.

End RecursiveFrame.

(** C10 (as amended). What the continuation does to the shared context, in
    both revisions. Its own statements leave the method, path, headers, query
    and params as they were, for any data, and make of [custom] the merge of
    [custom] and the data; with no data a [custom] that is there stays as it
    is, and a missing one becomes the empty mapping. And on whole chains, in
    which a continuation may be called any number of times: when no handler
    assigns the context itself, the request is after the chain what it was
    before, [custom] apart; and when moreover the middleware give their
    continuations no data, a [custom] that was there is the same after the
    chain. *)
Theorem continuation_frame :
  ((forall timeoutId c s,
      same_request (Recursive.ctx s) (Recursive.ctx (Recursive.next_effect timeoutId c s))
      /\ custom (Recursive.ctx (Recursive.next_effect timeoutId c s))
         = Lodash.merge (custom (Recursive.ctx s)) c
      /\ (forall o, custom (Recursive.ctx s) = Some o ->
            custom (Recursive.ctx (Recursive.next_effect timeoutId None s)) = Some o)
      /\ (custom (Recursive.ctx s) = None ->
            custom (Recursive.ctx (Recursive.next_effect timeoutId None s)) = Some []))
   /\ (forall (ms : list (MiddlewareModule.t Recursive.MiddlewareHandler)) h s,
      Forall (fun m => assigns_nothing (MiddlewareModule.handler m)) ms ->
      assigns_nothing h ->
      same_request (Recursive.ctx s)
        (Recursive.ctx (final (Recursive.callRecursiveMiddlewares ms h s))))
   /\ (forall (ms : list (MiddlewareModule.t Recursive.MiddlewareHandler)) h s o,
      Forall (fun m => passes_no_data (MiddlewareModule.handler m)) ms ->
      assigns_nothing h ->
      custom (Recursive.ctx s) = Some o ->
      custom (Recursive.ctx (final (Recursive.callRecursiveMiddlewares ms h s))) = Some o))
  /\ ((forall c s resolved,
      same_request (Loop.ctx s) (Loop.ctx (Loop.next_callback c (s, resolved)).2.1)
      /\ custom (Loop.ctx (Loop.next_callback c (s, resolved)).2.1)
         = Lodash.merge (custom (Loop.ctx s)) c
      /\ (forall o, custom (Loop.ctx s) = Some o ->
            custom (Loop.ctx (Loop.next_callback None (s, resolved)).2.1) = Some o)
      /\ (custom (Loop.ctx s) = None ->
            custom (Loop.ctx (Loop.next_callback None (s, resolved)).2.1) = Some []))
   /\ (forall (ms : list (MiddlewareModule.t Loop.MiddlewareHandler)) h s,
      Forall (fun m => assigns_nothing (MiddlewareModule.handler m)) ms ->
      assigns_nothing h ->
      same_request (Loop.ctx s) (Loop.ctx (final (Loop.run_chain ms h s))))
   /\ (forall (ms : list (MiddlewareModule.t Loop.MiddlewareHandler)) h s o,
      Forall (fun m => passes_no_data (MiddlewareModule.handler m)) ms ->
      assigns_nothing h ->
      custom (Loop.ctx s) = Some o ->
      custom (Loop.ctx (final (Loop.run_chain ms h s))) = Some o)).
Proof.
  split; (split; [|split]).
  - intros timeoutId c s. split; [by repeat split|]. split; [done|]. split.
    + intros o Ho. simpl. by rewrite Ho.
    + intros Ho. simpl. by rewrite Ho.
  - intros ms h s Hms Hh. by apply chain_frame.
  - intros ms h s o Hms Hh Ho. by apply chain_no_data.
  - intros c s resolved. split; [by repeat split|]. split; [done|]. split.
    + intros o Ho. simpl. by rewrite Ho.
    + intros Ho. simpl. by rewrite Ho.
  - intros ms h s Hms Hh. by apply run_chain_frame.
  - intros ms h s o Hms Hh Ho. by apply run_chain_no_data.
Qed.

(** A request that comes with [custom], through a middleware that calls its
    continuation without data: [custom] is the same after the chain. *)
Lemma continuation_frame_witness :
  custom
    (Recursive.ctx
       (final (Recursive.callRecursiveMiddlewares
                 [Sample.at_root (Sample.proceeds None)] (Sample.answer "done")
                 (Recursive.initial
                    (init_context (Sample.request_with [("user", JStr "ann")]))))))
  = Some [("user", JStr "ann")]
  /\ custom
       (Loop.ctx
          (final (Loop.run_chain
                    [Sample.at_root (Sample.proceeds_loop None)] (Sample.answer "done")
                    (Loop.initial
                       (init_context (Sample.request_with [("user", JStr "ann")]))))))
     = Some [("user", JStr "ann")].
Proof.
  destruct continuation_frame as [(_ & _ & HR) (_ & _ & HL)].
  split.
  - apply HR; [|constructor|reflexivity].
    constructor; [|constructor]. constructor. intros []; constructor.
  - apply HL; [|constructor|reflexivity].
    constructor; [|constructor]. constructor. intros []. constructor.
Defined.

(** C10 (as stated) fails for a request without [custom], which is what
    [tunnel] starts from unless the worker sent one: the root middleware
    calls its continuation without data, and [custom], missing before, is
    the empty mapping afterwards. In both revisions. *)
Lemma continuation_makes_custom :
  custom (init_context (Sample.request "GET" "api/status")) = None
  /\ custom
       (Recursive.ctx
          (final (Recursive.tunnel
                    (Sample.chain_env (Sample.answer "done") [Sample.root_middleware]
                       (Sample.all_alike (Sample.proceeds None)))
                    (Sample.request "GET" "api/status"))))
     = Some []
  /\ custom
       (Loop.ctx
          (final (Loop.tunnel
                    (Sample.chain_env (Sample.answer "done") [Sample.root_middleware]
                       (Sample.all_alike (Sample.proceeds_loop None)))
                    (Sample.request "GET" "api/status"))))
     = Some [].
Proof. split; [reflexivity|]. split; vm_compute; reflexivity. Qed.
